(** * Seat booking web form: normalisation, pairing, ledger and routes

    A shallow embedding of [app.py].  Python values that reach the code from a
    JSON body are [pyval]; a function that can raise returns [result]; code
    that talks to the spreadsheet, to the messaging client or to standard
    output runs in the state-and-exception monad [M] over a [world].

    Characters are code points below 256 (the type [ascii]); the character
    classes below are Python's restricted to that range.  [int] is unbounded
    ([Z]), and reading one from a string is subject to the interpreter's cap
    on the number of digits of a decimal literal ([int_max_str_digits]).
    [str] of an [int] has the same cap; the ints that the application
    turns into text were read by the JSON decoder or by [int], which both
    refuse more digits, so [str] is total on them.  The interpreter is
    Python 3.11 or later, also for the text of the exceptions it raises.  The interpreter's [repr] and
    [json.dumps] are parameters of the application.

    The file has the runtime model, then the application function by
    function, then the vocabulary of the properties, then the lemmas and
    theorems, and last the instances of the theorems. *)

From Stdlib Require Import List String Ascii Bool ZArith NArith Lia.
From Stdlib Require Import Decimal DecimalString DecimalPos DecimalN DecimalZ.
From Stdlib Require Import PrimFloat.
Import ListNotations.

Set Warnings "-register-all".

Local Open Scope string_scope.
Local Open Scope list_scope.

(** String concatenation, apart from the [++] of lists. *)
Infix "+++" := String.append (right associativity, at level 60).

(** ** Exceptions and fallible computations *)

Inductive exn : Type :=
| ValueError (msg : string)
| TypeError (msg : string)
| AttributeError (msg : string)
| IndexError (msg : string)
| ServiceError (msg : string).

(** [str(e)] *)
Definition exn_str (e : exn) : string :=
  match e with
  | ValueError m | TypeError m | AttributeError m | IndexError m
  | ServiceError m => m
  end.

Inductive result (A : Type) : Type :=
| Ok (a : A)
| Raise (e : exn).
Arguments Ok {A} a.
Arguments Raise {A} e.

Definition rbind {A B} (r : result A) (k : A -> result B) : result B :=
  match r with
  | Ok a => k a
  | Raise e => Raise e
  end.

Notation "'let!' x ':=' r 'in' k" := (rbind r (fun x => k))
  (at level 10, x name, r at level 100, k at level 200).

(** A list comprehension whose element expression may raise: elements are
    evaluated left to right and the first exception aborts the whole list. *)
Fixpoint mapM {A B} (f : A -> result B) (l : list A) : result (list B) :=
  match l with
  | [] => Ok []
  | x :: xs => let! y := f x in let! ys := mapM f xs in Ok (y :: ys)
  end.

(** [l[i]] *)
Definition idx {A} (l : list A) (i : nat) : result A :=
  match nth_error l i with
  | Some x => Ok x
  | None => Raise (IndexError "list index out of range")
  end.

(** ** Strings *)

Definition code (c : ascii) : N := N_of_ascii c.

(** The regular expression class [\d]. *)
Definition is_digit (c : ascii) : bool :=
  ((48 <=? code c) && (code c <=? 57))%N.

(** What [str.strip] removes and [str.isspace] accepts. *)
Definition is_space (c : ascii) : bool :=
  let n := code c in
  (((9 <=? n) && (n <=? 13)) || ((28 <=? n) && (n <=? 32))
   || (n =? 133) || (n =? 160))%N.

(** One character of [str.isdigit]: the decimal digits and the superscripts
    one, two and three. *)
Definition isdigit_char (c : ascii) : bool :=
  let n := code c in
  (is_digit c || (n =? 178) || (n =? 179) || (n =? 185))%N.

Fixpoint forallb_str (p : ascii -> bool) (s : string) : bool :=
  match s with
  | EmptyString => true
  | String c s' => p c && forallb_str p s'
  end.

Fixpoint existsb_str (p : ascii -> bool) (s : string) : bool :=
  match s with
  | EmptyString => false
  | String c s' => p c || existsb_str p s'
  end.

Fixpoint filter_str (p : ascii -> bool) (s : string) : string :=
  match s with
  | EmptyString => EmptyString
  | String c s' => if p c then String c (filter_str p s') else filter_str p s'
  end.

Definition is_empty (s : string) : bool :=
  match s with EmptyString => true | _ => false end.

(** [s.isdigit()] *)
Definition isdigit (s : string) : bool :=
  negb (is_empty s) && forallb_str isdigit_char s.

Fixpoint lstrip (s : string) : string :=
  match s with
  | EmptyString => EmptyString
  | String c s' => if is_space c then lstrip s' else s
  end.

Fixpoint rstrip (s : string) : string :=
  match s with
  | EmptyString => EmptyString
  | String c s' =>
      match rstrip s' with
      | EmptyString => if is_space c then EmptyString else String c EmptyString
      | r => String c r
      end
  end.

(** [s.strip()] *)
Definition strip (s : string) : string := rstrip (lstrip s).

(** [s.split(sep)] for a one-character separator: never the empty list. *)
Fixpoint split (sep : ascii) (s : string) : list string :=
  match s with
  | EmptyString => [EmptyString]
  | String c s' =>
      if Ascii.eqb c sep then EmptyString :: split sep s'
      else match split sep s' with
           | p :: ps => String c p :: ps
           | [] => [String c EmptyString]
           end
  end.

(** [re.findall(r"\d+", s)]: the maximal runs of digits, left to right.
    [run] is the run being read. *)
Fixpoint findall_digits_from (run : string) (s : string) : list string :=
  match s with
  | EmptyString => if is_empty run then [] else [run]
  | String c s' =>
      if is_digit c then findall_digits_from (run +++ String c EmptyString) s'
      else (if is_empty run then [] else [run]) ++ findall_digits_from EmptyString s'
  end.

Definition findall_digits (s : string) : list string :=
  findall_digits_from EmptyString s.

(** [re.sub(r"\D+", repl, s)]: every maximal run of non-digits is replaced
    by [repl].  [in_run] tells whether a run of non-digits is being read. *)
Fixpoint sub_nondigits_from (repl : string) (in_run : bool) (s : string) : string :=
  match s with
  | EmptyString => EmptyString
  | String c s' =>
      if is_digit c then String c (sub_nondigits_from repl false s')
      else (if in_run then EmptyString else repl) +++ sub_nondigits_from repl true s'
  end.

Definition sub_nondigits (repl s : string) : string :=
  sub_nondigits_from repl false s.

(** ** Integers as text *)

(** [str(z)] for an [int]. *)
Definition str_of_Z (z : Z) : string := NilZero.string_of_int (Z.to_int z).

(** The digits of an integer literal as [int()] reads them: decimal digits,
    single underscores allowed between two digits. *)
Fixpoint int_literal (after_digit : bool) (s : string) : option uint :=
  match s with
  | EmptyString => if after_digit then Some Nil else None
  | String c s' =>
      if is_digit c then uint_of_char c (int_literal true s')
      else if Ascii.eqb c "_" then
             if after_digit then int_literal false s' else None
           else None
  end.

(** The optional sign in front of an integer literal. *)
Definition split_sign (t : string) : bool * string :=
  match t with
  | String "-" r => (true, r)
  | String "+" r => (false, r)
  | _ => (false, t)
  end.

Definition parse_int (s : string) : option Z :=
  let (neg, body) := split_sign (strip s) in
  match int_literal false body with
  | Some d => let n := Z.of_N (N.of_uint d) in Some (if neg then (- n)%Z else n)
  | None => None
  end.

(** The cap of the interpreter on the number of digits of a decimal literal
    ([sys.get_int_max_str_digits()], 4300 unless the process changes it;
    the application does not). *)
Definition int_max_str_digits : N := 4300.

(** The first pass of [int()] over a literal: it runs over the leading
    digits and underscores and counts the digits; two underscores in a row
    or an underscore at the end of the run are a syntax error ([None]). *)
Fixpoint scan_digits (prev_underscore : bool) (digits : N) (s : string)
  : option N :=
  match s with
  | EmptyString => if prev_underscore then None else Some digits
  | String c s' =>
      if is_digit c then scan_digits false (N.succ digits) s'
      else if Ascii.eqb c "_" then
             if prev_underscore then None else scan_digits true digits s'
           else if prev_underscore then None else Some digits
  end.

Definition starts_with_underscore (s : string) : bool :=
  match s with
  | String c _ => Ascii.eqb c "_"
  | EmptyString => false
  end.

Definition str_of_N (n : N) : string := NilZero.string_of_uint (N.to_uint n).

Definition exceeds_limit_message (digits : N) : string :=
  "Exceeds the limit (" +++ str_of_N int_max_str_digits
  +++ " digits) for integer string conversion: value has "
  +++ str_of_N digits
  +++ " digits; use sys.set_int_max_str_digits() to increase the limit".

(** ** Values *)

(** What [request.get_json] can return. *)
Inductive pyval : Type :=
| PNone
| PBool (b : bool)
| PInt (z : Z)
| PFloat (f : float)
| PStr (s : string)
| PList (l : list pyval)
| PDict (d : list (string * pyval)).

(** An instance of [int]: [bool] is a subclass of [int], so a JSON [true] in
    a seat list passes [isinstance(item, int)] and stays a [bool]. *)
Inductive pyint : Type :=
| IntV (z : Z)
| BoolV (b : bool).

Definition int_val (i : pyint) : Z :=
  match i with
  | IntV z => z
  | BoolV true => 1
  | BoolV false => 0
  end.

(** [str(i)], which is also [repr(i)]. *)
Definition pyint_str (i : pyint) : string :=
  match i with
  | IntV z => str_of_Z z
  | BoolV true => "True"
  | BoolV false => "False"
  end.

(** [repr] of a list of [int]s, as an f-string prints it. *)
Definition pyint_list_repr (l : list pyint) : string :=
  "[" +++ String.concat ", " (map pyint_str l) +++ "]".

(** [bool(v)] *)
Definition truthy (v : pyval) : bool :=
  match v with
  | PNone => false
  | PBool b => b
  | PInt z => negb (z =? 0)%Z
  | PFloat f => negb (f =? 0)%float
  | PStr s => negb (is_empty s)
  | PList l => match l with [] => false | _ => true end
  | PDict d => match d with [] => false | _ => true end
  end.

Definition type_name (v : pyval) : string :=
  match v with
  | PNone => "NoneType"
  | PBool _ => "bool"
  | PInt _ => "int"
  | PFloat _ => "float"
  | PStr _ => "str"
  | PList _ => "list"
  | PDict _ => "dict"
  end.

Fixpoint dict_lookup (k : string) (d : list (string * pyval)) : option pyval :=
  match d with
  | [] => None
  | (k', v) :: d' => if String.eqb k k' then Some v else dict_lookup k d'
  end.

(** [v.get(key, default)]: only a [dict] has the method. *)
Definition py_get (v : pyval) (key : string) (default : pyval) : result pyval :=
  match v with
  | PDict d => Ok (match dict_lookup key d with Some x => x | None => default end)
  | _ => Raise (AttributeError
                  ("'" +++ type_name v +++ "' object has no attribute 'get'"))
  end.

Fixpoint chars (s : string) : list pyval :=
  match s with
  | EmptyString => []
  | String c s' => PStr (String c EmptyString) :: chars s'
  end.

(** What a [for] loop over [v] visits. *)
Definition py_iter (v : pyval) : result (list pyval) :=
  match v with
  | PList l => Ok l
  | PStr s => Ok (chars s)
  | PDict d => Ok (map (fun kv => PStr (fst kv)) d)
  | _ => Raise (TypeError ("'" +++ type_name v +++ "' object is not iterable"))
  end.

(** ** The world outside the process

    The worksheet is the list of its rows, header first.  Every call of the
    spreadsheet client consults [sheets_faults] (a message means the call
    raises) and every [messages.create] consults [twilio_outcomes] (an error
    message, or the sid of the message created); both are consumed call by
    call.  [stdout] lists the argument lists of the [print] calls, oldest
    first, and [sent] the payloads handed to the messaging client. *)

Record world : Type := mkWorld {
  sheet : list (list string);
  sheets_faults : nat -> option string;
  twilio_outcomes : nat -> string + string;
  sent : list pyval;
  stdout : list (list pyval)
}.

Definition set_sheet (rows : list (list string)) (w : world) : world :=
  mkWorld rows (sheets_faults w) (twilio_outcomes w) (sent w) (stdout w).

Definition M (A : Type) : Type := world -> result A * world.

Definition ret {A} (a : A) : M A := fun w => (Ok a, w).

Definition bind {A B} (m : M A) (k : A -> M B) : M B :=
  fun w => match m w with
           | (Ok a, w') => k a w'
           | (Raise e, w') => (Raise e, w')
           end.

Definition lift {A} (r : result A) : M A := fun w => (r, w).

(** [try: body except Exception as e: handler] *)
Definition try_except {A} (body : M A) (handler : exn -> M A) : M A :=
  fun w => match body w with
           | (Ok a, w') => (Ok a, w')
           | (Raise e, w') => handler e w'
           end.

Declare Scope py_scope.
Delimit Scope py_scope with py.
Notation "x <- m ;; k" := (bind m (fun x => k))
  (at level 61, m at next level, right associativity) : py_scope.
Notation "m ;; k" := (bind m (fun _ => k))
  (at level 61, right associativity) : py_scope.
Local Open Scope py_scope.

Definition print (args : list pyval) : M unit :=
  fun w => (Ok tt, mkWorld (sheet w) (sheets_faults w) (twilio_outcomes w)
                           (sent w) (stdout w ++ [args])).

(** One call of the spreadsheet client. *)
Definition sheets_call {A} (op : world -> A * world) : M A :=
  fun w =>
    let w1 := mkWorld (sheet w) (fun n => sheets_faults w (S n))
                      (twilio_outcomes w) (sent w) (stdout w) in
    match sheets_faults w 0 with
    | Some msg => (Raise (ServiceError msg), w1)
    | None => let (a, w2) := op w1 in (Ok a, w2)
    end.

(** [twilio_client.messages.create] on the payload, returning the sid. *)
Definition messages_create (payload : pyval) : M string :=
  fun w =>
    let w1 := mkWorld (sheet w) (sheets_faults w)
                      (fun n => twilio_outcomes w (S n))
                      (sent w ++ [payload]) (stdout w) in
    match twilio_outcomes w 0 with
    | inl msg => (Raise (ServiceError msg), w1)
    | inr sid => (Ok sid, w1)
    end.

(** The worksheet methods the application calls. *)
Definition open_sheet1 : M unit := sheets_call (fun w => (tt, w)).

Definition get_all_values : M (list (list string)) :=
  sheets_call (fun w => (sheet w, w)).

Definition append_row (row : list string) : M unit :=
  sheets_call (fun w => (tt, set_sheet (sheet w ++ [row]) w)).

(** [ws.col_values(n)], columns counted from one; a row too short has an
    empty cell there. *)
Definition col_values (n : nat) : M (list string) :=
  sheets_call (fun w => (map (fun r => nth (n - 1) r EmptyString) (sheet w), w)).

(** [ws.batch_clear(["A2:ZZZ"])]: nothing is left below the first row. *)
Definition batch_clear_below_header : M unit :=
  sheets_call (fun w => (tt, set_sheet (firstn 1 (sheet w)) w)).

(** A Flask response: the JSON body and the status code. *)
Record response : Type := mkResponse {
  body : list (string * pyval);
  status : Z
}.

(** [jsonify(d), code]; a bare [jsonify(d)] has status 200. *)
Definition jsonify (d : list (string * pyval)) (code : Z) : response :=
  mkResponse d code.

(** The module-level constants read from the environment, the value of
    [EVENT_TIME_STR] and the formatted clock reading of the request. *)
Record config : Type := mkConfig {
  TWILIO_SID : option string;
  TWILIO_AUTH : option string;
  TWILIO_WHATSAPP_FROM : option string;
  TWILIO_CONTENT_SID_CONCERT : option string;
  CLEAR_TOKEN : option string;
  EVENT_TIME_STR : option string;
  now : string
}.

(** Truth value of the result of [os.getenv]. *)
Definition set_and_nonempty (o : option string) : bool :=
  match o with
  | Some s => negb (is_empty s)
  | None => false
  end.

Definition getenv_or (o : option string) (default : string) : string :=
  match o with
  | Some s => s
  | None => default
  end.

Definition opt_string_eqb (a b : option string) : bool :=
  match a, b with
  | Some x, Some y => String.eqb x y
  | None, None => true
  | _, _ => false
  end.

(** ** The application *)

Section App.

(** The interpreter's [repr] and [json.dumps].  The application needs the
    first for the text of a value that is neither a string nor an [int]
    and inside the message of a failed [int()]; the second renders the
    template variables. *)
Variable py_repr : pyval -> string.
Variable json_dumps : pyval -> string.
Variable cfg : config.

(** [str(v)] *)
Definition py_str (v : pyval) : string :=
  match v with
  | PStr s => s
  | PNone => "None"
  | PBool true => "True"
  | PBool false => "False"
  | PInt z => str_of_Z z
  | _ => py_repr v
  end.

(** The exception of [int] on a malformed literal; its message shows at
    most 200 characters of the [repr]. *)
Definition invalid_literal (s : string) : exn :=
  ValueError ("invalid literal for int() with base 10: "
              +++ substring 0 200 (py_repr (PStr s))).

(** [int(s)] for a string.  The literal is first scanned; a run of more
    than [int_max_str_digits] digits raises before anything is converted
    and before what follows the run is looked at. *)
Definition py_int (s : string) : result Z :=
  let (_, body) := split_sign (strip s) in
  if starts_with_underscore body then Raise (invalid_literal s)
  else
    match scan_digits false 0 body with
    | None => Raise (invalid_literal s)
    | Some digits =>
        if (int_max_str_digits <? digits)%N
        then Raise (ValueError (exceeds_limit_message digits))
        else match parse_int s with
             | Some z => Ok z
             | None => Raise (invalid_literal s)
             end
    end.

(** *** Notification *)

Definition _format_wa_to (number_str : string) : M string :=
  let digits := sub_nondigits EmptyString number_str in
  if prefix "91" digits && (String.length digits =? 12)%nat then
    ret ("whatsapp:+" +++ digits)
  else if (String.length digits =? 10)%nat then
    ret ("whatsapp:+91" +++ digits)
  else
    print [PStr ("[WARN] Unexpected mobile format: " +++ number_str
                 +++ " -> " +++ digits)] ;;
    ret ("whatsapp:+" +++ digits).

Definition send_whatsapp_template_concert
    (to_number name : string) (seat : pyint) (event_time : string)
    : M (option string) :=
  if negb (set_and_nonempty (TWILIO_SID cfg)
           && set_and_nonempty (TWILIO_AUTH cfg)
           && set_and_nonempty (TWILIO_WHATSAPP_FROM cfg)
           && set_and_nonempty (TWILIO_CONTENT_SID_CONCERT cfg)) then
    print [PStr "[ERROR] Missing Twilio credentials or Content SID"] ;;
    ret None
  else
    try_except
      (to_formatted <- _format_wa_to to_number ;;
       let payload :=
         PDict [("from_", PStr (getenv_or (TWILIO_WHATSAPP_FROM cfg) EmptyString));
                ("to", PStr to_formatted);
                ("content_sid",
                 PStr (getenv_or (TWILIO_CONTENT_SID_CONCERT cfg) EmptyString));
                ("content_variables",
                 PStr (json_dumps (PDict [("1", PStr name);
                                          ("2", PStr (pyint_str seat));
                                          ("3", PStr event_time)])))] in
       print [PStr "[INFO] Sending WA Template:"; payload] ;;
       sid <- messages_create payload ;;
       print [PStr "[INFO] Template WhatsApp SENT:"; PStr sid] ;;
       ret (Some sid))
      (fun e =>
         print [PStr "[ERROR] WhatsApp Template Send Failed:"; PStr (exn_str e)] ;;
         ret None).

(** *** Google Sheets *)

Definition HEADER : list string :=
  ["Timestamp"; "User Code"; "Name"; "Mobile"; "Selected Seats"].

(** The worksheet handle is the one worksheet of the world, so [get_sheet]
    returns nothing; opening it and reading its values are client calls. *)
Definition get_sheet : M unit :=
  open_sheet1 ;;
  values <- get_all_values ;;
  match values with
  | [] => append_row HEADER
  | _ => ret tt
  end.

Definition clear_google_sheet_values : M string :=
  get_sheet ;;
  batch_clear_below_header ;;
  ret "Sheet cleared".

(** *** Helpers *)

Definition extract_ints_from_string (s : string) : result (list Z) :=
  mapM py_int (findall_digits s).

Fixpoint normalize_seats_items (items : list pyval) (res : list pyint)
    : result (list pyint) :=
  match items with
  | [] => Ok res
  | item :: rest =>
      match item with
      | PInt z => normalize_seats_items rest (res ++ [IntV z])
      | PBool b => normalize_seats_items rest (res ++ [BoolV b])
      | PStr s =>
          let! xs := extract_ints_from_string s in
          normalize_seats_items rest (res ++ map IntV xs)
      | _ => normalize_seats_items rest res
      end
  end.

Definition normalize_seats (seats : pyval) : result (list pyint) :=
  match seats with
  | PList items => normalize_seats_items items []
  | PStr s => let! xs := extract_ints_from_string s in Ok ([] ++ map IntV xs)
  | _ => Ok []
  end.

(** The inner function of [normalize_mobile_to_list]: [re.findall] wants a
    string, and [s or ""] makes one only of a false value. *)
Definition only_digits (s : pyval) : result string :=
  match (if truthy s then s else PStr EmptyString) with
  | PStr t => Ok (String.concat EmptyString (findall_digits t))
  | v => Raise (TypeError ("expected string or bytes-like object, got '"
                           +++ type_name v +++ "'"))
  end.

Definition comma_parts (s : string) : list string :=
  if existsb_str (Ascii.eqb ",") s then map strip (split "," s) else [strip s].

Definition normalize_mobile_to_list (mobile : pyval) : result (list string) :=
  let! out :=
    match mobile with
    | PList l => mapM only_digits l
    | PStr s => mapM (fun p => only_digits (PStr p)) (comma_parts s)
    | _ => Ok []
    end in
  Ok (filter (fun m => negb (is_empty m)) out).

Definition normalize_names_to_list (name : pyval) : list string :=
  match name with
  | PList l =>
      map (fun n => strip (py_str n))
          (filter (fun n => negb (is_empty (strip (py_str n)))) l)
  | PStr s => filter (fun p => negb (is_empty p)) (comma_parts s)
  | _ => []
  end.

Definition BookingRow : Type := string * string * string * pyint.

Definition InvalidMobile : exn := ValueError "Invalid mobile number".
Definition InvalidPairing : exn := ValueError "Cannot pair names/mobiles/seats".

(** The loop that checks the mobiles before any pairing. *)
Fixpoint check_mobiles (mobiles_list : list string) : result unit :=
  match mobiles_list with
  | [] => Ok tt
  | m :: rest =>
      if (String.length m <? 10)%nat then Raise InvalidMobile else check_mobiles rest
  end.

Definition pair_rows_for_booking
    (user_code : string) (names_list mobiles_list : list string)
    (seats_ordered : list pyint) : result (list BookingRow) :=
  let n_names := List.length names_list in
  let n_mobiles := List.length mobiles_list in
  let n_seats := List.length seats_ordered in
  let! _ := check_mobiles mobiles_list in
  if (n_names =? n_seats)%nat && (n_mobiles =? n_seats)%nat then
    mapM (fun i => let! n := idx names_list i in
                   let! m := idx mobiles_list i in
                   let! s := idx seats_ordered i in
                   Ok (user_code, n, m, s))
         (seq 0 n_seats)
  else if (n_names =? 1)%nat && (n_mobiles =? 1)%nat then
    mapM (fun s => let! n := idx names_list 0 in
                   let! m := idx mobiles_list 0 in
                   Ok (user_code, n, m, s))
         seats_ordered
  else if (n_names =? 1)%nat && (n_mobiles =? n_seats)%nat then
    mapM (fun i => let! n := idx names_list 0 in
                   let! m := idx mobiles_list i in
                   let! s := idx seats_ordered i in
                   Ok (user_code, n, m, s))
         (seq 0 n_seats)
  else if (n_mobiles =? 1)%nat && (n_names =? n_seats)%nat then
    mapM (fun i => let! n := idx names_list i in
                   let! m := idx mobiles_list 0 in
                   let! s := idx seats_ordered i in
                   Ok (user_code, n, m, s))
         (seq 0 n_seats)
  else Raise InvalidPairing.

(** *** Routes *)

(** What one turn of a loop inside a route leaves: the route returns a
    response at once, or the loop goes on with the seats confirmed so far. *)
Inductive flow : Type :=
| Return (r : response)
| Next (all_confirmed : list pyint).

(** The inner loop of [submit] over the rows of one booking. *)
Fixpoint submit_rows (timestamp event_time : string)
    (row_tuples : list BookingRow) (all_confirmed : list pyint)
    : M (list pyint) :=
  match row_tuples with
  | [] => ret all_confirmed
  | (uc, nm, mb, seat) :: rest =>
      append_row [timestamp; uc; nm; mb; pyint_str seat] ;;
      let all_confirmed := all_confirmed ++ [seat] in
      send_whatsapp_template_concert mb nm seat event_time ;;
      submit_rows timestamp event_time rest all_confirmed
  end.

Definition seat_out_of_range (s : pyint) : bool :=
  ((int_val s <? 1) || (int_val s >? 105))%Z.

(** The body of the loop of [submit] over the bookings. *)
Definition submit_booking (timestamp : string) (booking : pyval)
    (all_confirmed : list pyint) : M flow :=
  uc <- lift (py_get booking "user_code" (PStr EmptyString)) ;;
  let user_code := strip (py_str uc) in
  nm <- lift (py_get booking "name" (PStr EmptyString)) ;;
  let names := normalize_names_to_list nm in
  mb <- lift (py_get booking "mobile" (PStr EmptyString)) ;;
  mobiles <- lift (normalize_mobile_to_list mb) ;;
  st <- lift (py_get booking "seats" (PList [])) ;;
  seats <- lift (normalize_seats st) ;;
  match names, mobiles, seats with
  | _ :: _, _ :: _, _ :: _ =>
      let invalid := filter seat_out_of_range seats in
      match invalid with
      | _ :: _ =>
          ret (Return (jsonify [("ok", PBool false);
                                ("message", PStr ("Invalid seats: "
                                                  +++ pyint_list_repr invalid))]
                               400))
      | [] =>
          row_tuples <- lift (pair_rows_for_booking user_code names mobiles seats) ;;
          let event_time :=
            getenv_or (EVENT_TIME_STR cfg) "January 31st, 2026 at 7:00 PM" in
          all_confirmed <- submit_rows timestamp event_time row_tuples all_confirmed ;;
          ret (Next all_confirmed)
      end
  | _, _, _ =>
      ret (Return (jsonify [("ok", PBool false);
                            ("message", PStr "Name, Mobile, Seat required")]
                           400))
  end.

Fixpoint submit_bookings (timestamp : string) (bookings : list pyval)
    (all_confirmed : list pyint) : M flow :=
  match bookings with
  | [] => ret (Next all_confirmed)
  | booking :: rest =>
      f <- submit_booking timestamp booking all_confirmed ;;
      match f with
      | Return r => ret (Return r)
      | Next all_confirmed => submit_bookings timestamp rest all_confirmed
      end
  end.

(** The bookings of a request body [data] (after [or {}]). *)
Definition bookings_of (data : pyval) : pyval :=
  match data with
  | PDict d =>
      match dict_lookup "users" d with
      | Some users => users
      | None => PList [data]
      end
  | PList _ => data
  | _ => PList [data]
  end.

(** [POST /submit]; [json] is what [request.get_json(force=True)] returned.
    An exception that leaves the route is Flask's to report. *)
Definition submit (json : pyval) : M response :=
  let data := if truthy json then json else PDict [] in
  let bookings := bookings_of data in
  get_sheet ;;
  let timestamp := now cfg in
  try_except
    (items <- lift (py_iter bookings) ;;
     f <- submit_bookings timestamp items [] ;;
     match f with
     | Return r => ret r
     | Next all_confirmed =>
         let final := String.concat ", " (map pyint_str all_confirmed) in
         ret (jsonify [("ok", PBool true);
                       ("message", PStr ("Thank you for registering! Seat(s) "
                                         +++ final +++ " confirmed."))]
                      200)
     end)
    (fun e =>
       ret (jsonify [("ok", PBool false);
                     ("message", PStr ("Failed: " +++ exn_str e))]
                    500)).

(** [GET /booked-seats] *)
Definition booked_seats : M response :=
  try_except
    (get_sheet ;;
     column <- col_values 5 ;;
     let col_values := tl column in
     booked <- lift (mapM (fun s => py_int (strip s))
                          (filter (fun s => isdigit (strip s))
                                  (flat_map (split ",") col_values))) ;;
     ret (jsonify [("booked", PList (map PInt booked))] 200))
    (fun e =>
       ret (jsonify [("booked", PList []); ("error", PStr (exn_str e))] 200)).

(** [POST /clear-sheet]; [x_clear_token] is the [X-CLEAR-TOKEN] header. *)
Definition clear_sheet_route (x_clear_token : option string) : M response :=
  if set_and_nonempty (CLEAR_TOKEN cfg)
     && negb (opt_string_eqb x_clear_token (CLEAR_TOKEN cfg)) then
    ret (jsonify [("ok", PBool false); ("message", PStr "Unauthorized")] 401)
  else
    try_except
      (msg <- clear_google_sheet_values ;;
       ret (jsonify [("ok", PBool true); ("message", PStr msg)] 200))
      (fun e =>
         ret (jsonify [("ok", PBool false); ("message", PStr (exn_str e))] 200)).

End App.

(** ** The QR route *)



Section QR.

(** The value of [APP_BASE_URL] in the environment, and the PNG bytes that
    the [qrcode] library draws for a text. *)
Variable APP_BASE_URL_env : option string.
Variable qrcode_png : string -> string.



End QR.

(** ** Vocabulary of the properties *)

(** A string of decimal digits. *)
Definition digits_only (s : string) : Prop := forallb_str is_digit s = true.

(** The resolution rules of the pairing contract, as the ordered rule list of
    the documentation: index-wise pairing, then full broadcast, then the two
    partial broadcasts, then failure. *)
Definition pairing_rules (user_code : string) (names mobiles : list string)
    (seats : list pyint) : result (list BookingRow) :=
  let n1 := List.length names in
  let n2 := List.length mobiles in
  let n3 := List.length seats in
  if (n1 =? n3)%nat && (n2 =? n3)%nat then
    Ok (map (fun nms => (user_code, fst (fst nms), snd (fst nms), snd nms))
            (combine (combine names mobiles) seats))
  else if (n1 =? 1)%nat && (n2 =? 1)%nat then
    Ok (map (fun s => (user_code, hd EmptyString names, hd EmptyString mobiles, s))
            seats)
  else if (n1 =? 1)%nat && (n2 =? n3)%nat then
    Ok (map (fun ms => (user_code, hd EmptyString names, fst ms, snd ms))
            (combine mobiles seats))
  else if (n2 =? 1)%nat && (n1 =? n3)%nat then
    Ok (map (fun ns => (user_code, fst ns, hd EmptyString mobiles, snd ns))
            (combine names seats))
  else Raise InvalidPairing.

(** The destination rule as the documentation words it, over the digits
    that are left when everything else is stripped. *)
Definition wa_destination (number : string) : string :=
  let digits := filter_str is_digit number in
  if prefix "91" digits && (String.length digits =? 12)%nat then
    "whatsapp:+" +++ digits
  else if (String.length digits =? 10)%nat then "whatsapp:+91" +++ digits
  else "whatsapp:+" +++ digits.

(** Whether the rule falls through to its last case. *)
Definition wa_unexpected (number : string) : bool :=
  let digits := filter_str is_digit number in
  negb (prefix "91" digits && (String.length digits =? 12)%nat)
  && negb (String.length digits =? 10)%nat.

(** The rows of the worksheet once [get_sheet] has seen it: an empty
    worksheet gets the header row. *)
Definition ledger_rows (w : world) : list (list string) :=
  match sheet w with
  | [] => [HEADER]
  | rows => rows
  end.

(** The spreadsheet client does not fail from now on. *)
Definition no_faults (w : world) : Prop :=
  forall n, sheets_faults w n = None.

(** Two worlds with the same ledger: the same rows, and a spreadsheet client
    that fails at the same calls.  They may differ in everything about the
    messaging client and the output. *)
Definition ledger_eq (w1 w2 : world) : Prop :=
  sheet w1 = sheet w2 /\ forall n, sheets_faults w1 n = sheets_faults w2 n.

(** Two computations that return the same and keep the ledgers the same. *)
Definition same_on_ledger {A} (m1 m2 : M A) : Prop :=
  forall w1 w2,
    ledger_eq w1 w2 ->
    fst (m1 w1) = fst (m2 w2) /\ ledger_eq (snd (m1 w1)) (snd (m2 w2)).

(** A computation that never raises and leaves the ledger alone. *)
Definition ledger_silent {A} (m : M A) : Prop :=
  forall w, exists a w',
      m w = (Ok a, w') /\ sheet w' = sheet w
      /\ sheets_faults w' = sheets_faults w.

(** The ledger row written for one tuple. *)
Definition ledger_row (timestamp : string) (row : BookingRow) : list string :=
  let '(uc, nm, mb, seat) := row in [timestamp; uc; nm; mb; pyint_str seat].

(** The seat of a tuple, as it enters [all_confirmed]. *)
Definition row_seat (row : BookingRow) : pyint := snd row.

(** The body of a request after [or {}]. *)
Definition request_data (json : pyval) : pyval :=
  if truthy json then json else PDict [].

(** The value of a field of a booking object, or the default. *)
Definition field (d : list (string * pyval)) (key : string) (default : pyval)
    : pyval :=
  match dict_lookup key d with
  | Some x => x
  | None => default
  end.

(** The responses of the route. *)
Definition confirmation (all_confirmed : list pyint) : response :=
  jsonify [("ok", PBool true);
           ("message",
            PStr ("Thank you for registering! Seat(s) "
                  +++ String.concat ", " (map pyint_str all_confirmed)
                  +++ " confirmed."))]
          200.

Definition failure (e : exn) : response :=
  jsonify [("ok", PBool false); ("message", PStr ("Failed: " +++ exn_str e))]
          500.

Definition invalid_seats_response (invalid : list pyint) : response :=
  jsonify [("ok", PBool false);
           ("message", PStr ("Invalid seats: " +++ pyint_list_repr invalid))]
          400.

Definition fields_required_response : response :=
  jsonify [("ok", PBool false);
           ("message", PStr "Name, Mobile, Seat required")]
          400.

(** What a fragment of a seat cell contributes, as the documentation words
    it: the number a non-empty group of decimal digits writes, and nothing
    for any other fragment. *)
Definition digit_group_value (fragment : string) : list Z :=
  let t := strip fragment in
  if negb (is_empty t) && forallb_str is_digit t then
    match NilEmpty.uint_of_string t with
    | Some d => [Z.of_N (N.of_uint d)]
    | None => []
    end
  else [].

(** The seats of one cell: its comma-separated fragments, left to right. *)
Definition cell_seats (cell : string) : list Z :=
  flat_map digit_group_value (split "," cell).

(** The seat column below the header. *)
Definition seat_cells (w : world) : list string :=
  tl (map (fun r => nth 4 r EmptyString) (ledger_rows w)).

(** A run of digits that [int] converts: no longer than the cap. *)
Definition within_int_limit (s : string) : Prop :=
  (N.of_nat (String.length s) <= int_max_str_digits)%N.

(** A fragment that [int] reads whenever [isdigit] accepts it: it has no
    superscript digit ([isdigit] accepts those and [int] does not) and it is
    within the cap. *)
Definition readable_fragment (s : string) : Prop :=
  isdigit (strip s) = true ->
  digits_only (strip s) /\ within_int_limit (strip s).

(** The number that a string of decimal digits writes. *)
Definition run_value (r : string) : Z :=
  match NilEmpty.uint_of_string r with
  | Some d => Z.of_N (N.of_uint d)
  | None => 0
  end.

Definition digit_free (s : string) : Prop := existsb_str is_digit s = false.

(** A text laid out as digit runs, each followed by its separator. *)
Fixpoint weave (pieces : list (string * string)) : string :=
  match pieces with
  | [] => EmptyString
  | (run, sep) :: rest => run +++ sep +++ weave rest
  end.

(** The runs are non-empty strings of digits, the separators have no digit,
    and only the last separator may be empty: the runs are then the maximal
    digit runs of the text. *)
Fixpoint separated (pieces : list (string * string)) : Prop :=
  match pieces with
  | [] => True
  | (run, sep) :: rest =>
      digits_only run /\ run <> EmptyString /\ digit_free sep
      /\ (rest = [] \/ sep <> EmptyString) /\ separated rest
  end.

(** The route past its authorisation check. *)
Definition clear_attempt : M response :=
  try_except
    (msg <- clear_google_sheet_values ;;
     ret (jsonify [("ok", PBool true); ("message", PStr msg)] 200))
    (fun e =>
       ret (jsonify [("ok", PBool false); ("message", PStr (exn_str e))] 200)).

Section Vocabulary.

Variable py_repr : pyval -> string.
Variable cfg : config.

(** All four messaging settings are set and non-empty. *)
Definition credentials_present : bool :=
  set_and_nonempty (TWILIO_SID cfg) && set_and_nonempty (TWILIO_AUTH cfg)
  && set_and_nonempty (TWILIO_WHATSAPP_FROM cfg)
  && set_and_nonempty (TWILIO_CONTENT_SID_CONCERT cfg).

(** What one turn of the booking loop decides before its first append:
    an exception, an immediate 400 response, or the rows to write. *)
Definition validate_booking (booking : pyval)
    : result (response + list BookingRow) :=
  let! uc := py_get booking "user_code" (PStr EmptyString) in
  let user_code := strip (py_str py_repr uc) in
  let! nm := py_get booking "name" (PStr EmptyString) in
  let names := normalize_names_to_list py_repr nm in
  let! mb := py_get booking "mobile" (PStr EmptyString) in
  let! mobiles := normalize_mobile_to_list mb in
  let! st := py_get booking "seats" (PList []) in
  let! seats := normalize_seats py_repr st in
  match names, mobiles, seats with
  | _ :: _, _ :: _, _ :: _ =>
      match filter seat_out_of_range seats with
      | i :: invalid => Ok (inl (invalid_seats_response (i :: invalid)))
      | [] =>
          let! rows := pair_rows_for_booking user_code names mobiles seats in
          Ok (inr rows)
      end
  | _, _, _ => Ok (inl fields_required_response)
  end.

(** The event time handed to the notification. *)
Definition event_time : string :=
  getenv_or (EVENT_TIME_STR cfg) "January 31st, 2026 at 7:00 PM".

(** The response to a booking that is turned down before its first append:
    the 400 of the validation, or the 500 that wraps the exception. *)
Definition rejection (booking : pyval) : option response :=
  match validate_booking booking with
  | Ok (inl r) => Some r
  | Raise e => Some (failure e)
  | Ok (inr _) => None
  end.

End Vocabulary.


(** A string without a comma. *)
Definition comma_free (s : string) : Prop :=
  existsb_str (Ascii.eqb ",") s = false.

(** What a seat written by [submit] gives back when the seat column is read:
    the decimal cell of an [int] reads as that number, the cell of a
    [bool] ([True] or [False]) reads as nothing. *)
Definition booked_value (seat : pyint) : list Z :=
  match seat with
  | IntV z => [z]
  | BoolV _ => []
  end.

(** A normalised seat as the JSON value it came from. *)
Definition pyint_value (i : pyint) : pyval :=
  match i with
  | IntV z => PInt z
  | BoolV b => PBool b
  end.

(** A tuple fit for the ledger: a seat in the venue, a name, and a mobile
    of at least ten digits. *)
Definition well_formed_row (row : BookingRow) : Prop :=
  let '(uc, nm, mb, seat) := row in
  (1 <= int_val seat <= 105)%Z
  /\ nm <> EmptyString
  /\ digits_only mb /\ 10 <= String.length mb.

Section VocabularyFurther.

Variable json_dumps : pyval -> string.
Variable cfg : config.

(** The payload that the notification of one tuple hands to the messaging
    client. *)
Definition notification_payload (et : string) (row : BookingRow) : pyval :=
  let '(uc, nm, mb, seat) := row in
  PDict [("from_", PStr (getenv_or (TWILIO_WHATSAPP_FROM cfg) EmptyString));
         ("to", PStr (wa_destination mb));
         ("content_sid",
          PStr (getenv_or (TWILIO_CONTENT_SID_CONCERT cfg) EmptyString));
         ("content_variables",
          PStr (json_dumps (PDict [("1", PStr nm);
                                   ("2", PStr (pyint_str seat));
                                   ("3", PStr et)])))].

End VocabularyFurther.

(** ** Inputs for the instances *)

(** An interpreter whose [repr] and [json.dumps] print nothing; the
    instances below never look at what they print. *)
Definition no_repr (v : pyval) : string := EmptyString.

(** A world in which no client call fails. *)
Definition quiet_world (rows : list (list string)) : world :=
  mkWorld rows (fun _ => None) (fun _ => inr "SM1") [] [].

(** All messaging settings present, no clear token, default event time. *)
Definition test_config : config :=
  mkConfig (Some "AC1") (Some "tok") (Some "whatsapp:+919901760422")
           (Some "HX1") None None "2026-01-01 10:00:00".

(** The end-to-end scenario of the documentation. *)
Definition e2e_booking : pyval :=
  PDict [("user_code", PStr "A1"); ("name", PStr "Asha,Ravi");
         ("mobile", PStr "9876543210,9988776655");
         ("seats", PList [PInt 10; PInt 11])].

(** A world in which every call of the messaging client raises. *)
Definition twilio_down (rows : list (list string)) : world :=
  mkWorld rows (fun _ => None) (fun _ => inl "Unable to create record") [] [].

(** A booking with seat 106, and one whose mobile is a JSON number. *)
Definition seat_106_booking : pyval :=
  PDict [("user_code", PStr "B2"); ("name", PStr "Asha");
         ("mobile", PStr "9876543210");
         ("seats", PList [PInt 5; PInt 106])].

Definition numeric_mobile_booking : pyval :=
  PDict [("user_code", PStr "C3"); ("name", PStr "Asha");
         ("mobile", PList [PInt 9876543210]); ("seats", PList [PInt 5])].

(** A request of two bookings: the first is fine, the second has two names
    for three mobiles and three seats. *)
Definition two_bookings : pyval :=
  PList [PDict [("user_code", PStr "A1"); ("name", PStr "Asha");
                ("mobile", PStr "9876543210"); ("seats", PList [PInt 10])];
         PDict [("user_code", PStr "A2"); ("name", PStr "Ravi,Mina");
                ("mobile", PStr "9988776655,9988776656,9988776657");
                ("seats", PList [PInt 11; PInt 12; PInt 13])]].

(** A configuration with a clear token. *)
Definition guarded_config : config :=
  mkConfig (Some "AC1") (Some "tok") (Some "whatsapp:+919901760422")
           (Some "HX1") (Some "s3cret") None "2026-01-01 10:00:00".

(** A ledger row with the given seat cell. *)
Definition seat_row (cell : string) : list string :=
  ["2026-01-01 10:00:00"; "A1"; "Asha"; "9876543210"; cell].

(** ** Generic facts about comprehensions and indexing *)

Lemma mapM_map {A B C} (f : B -> result C) (g : A -> B) (l : list A) :
  mapM f (map g l) = mapM (fun x => f (g x)) l.
Proof.
  induction l as [|x xs IH]; simpl; [reflexivity|]. now rewrite IH.
Qed.

Lemma mapM_pure {A B} (g : A -> B) (l : list A) :
  mapM (fun x => Ok (g x)) l = Ok (map g l).
Proof.
  induction l as [|x xs IH]; simpl; [reflexivity|]. now rewrite IH.
Qed.

(** Reading two lists of one length by the indices [0 .. n-1] is zipping. *)
Lemma mapM_index2 {A B C} (g : A -> B -> C) :
  forall (l2 : list B) (l1 : list A),
    List.length l1 = List.length l2 ->
    mapM (fun i => let! a := idx l1 i in let! b := idx l2 i in Ok (g a b))
         (seq 0 (List.length l2))
    = Ok (map (fun ab => g (fst ab) (snd ab)) (combine l1 l2)).
Proof.
  induction l2 as [|b l2 IH]; intros [|a l1] Hlen; simpl in Hlen;
    try discriminate; [reflexivity|].
  cbn [List.length seq mapM]. rewrite <- seq_shift, mapM_map.
  cbn [idx nth_error rbind].
  change (mapM _ (seq 0 (List.length l2)))
    with (mapM (fun i => let! a := idx l1 i in let! b := idx l2 i in Ok (g a b))
               (seq 0 (List.length l2))).
  rewrite IH by lia. reflexivity.
Qed.

Lemma mapM_index3 {A B C D} (g : A -> B -> C -> D) :
  forall (l3 : list C) (l1 : list A) (l2 : list B),
    List.length l1 = List.length l3 ->
    List.length l2 = List.length l3 ->
    mapM (fun i => let! a := idx l1 i in let! b := idx l2 i in
                   let! c := idx l3 i in Ok (g a b c))
         (seq 0 (List.length l3))
    = Ok (map (fun abc => g (fst (fst abc)) (snd (fst abc)) (snd abc))
              (combine (combine l1 l2) l3)).
Proof.
  induction l3 as [|c l3 IH]; intros [|a l1] [|b l2] H1 H2; simpl in H1, H2;
    try discriminate; [reflexivity|].
  cbn [List.length seq mapM]. rewrite <- seq_shift, mapM_map.
  cbn [idx nth_error rbind].
  change (mapM _ (seq 0 (List.length l3)))
    with (mapM (fun i => let! a := idx l1 i in let! b := idx l2 i in
                         let! c := idx l3 i in Ok (g a b c))
               (seq 0 (List.length l3))).
  rewrite IH by lia. reflexivity.
Qed.

(** ** The pairing engine *)

Lemma check_mobiles_cases (mobiles : list string) :
  (check_mobiles mobiles = Ok tt
   /\ Forall (fun m => 10 <= String.length m) mobiles)
  \/ (check_mobiles mobiles = Raise InvalidMobile
      /\ Exists (fun m => String.length m < 10) mobiles).
Proof.
  induction mobiles as [|m rest IH]; simpl.
  - left. split; [reflexivity | constructor].
  - destruct (String.length m <? 10)%nat eqn:E.
    + right. split; [reflexivity|]. apply Exists_cons_hd.
      now apply Nat.ltb_lt.
    + apply Nat.ltb_ge in E. destruct IH as [[H1 H2] | [H1 H2]].
      * left. split; [assumption | now constructor].
      * right. split; [assumption | now apply Exists_cons_tl].
Qed.

Lemma check_mobiles_ok (mobiles : list string) :
  Forall (fun m => 10 <= String.length m) mobiles ->
  check_mobiles mobiles = Ok tt.
Proof.
  intros H. destruct (check_mobiles_cases mobiles) as [[E _] | [_ Hex]];
    [assumption|].
  exfalso. apply Exists_exists in Hex. destruct Hex as [m [Hin Hlt]].
  rewrite Forall_forall in H. specialize (H m Hin). lia.
Qed.

(** Once the mobiles pass the length check the code computes the rule list;
    no index it reads is out of range. *)
Lemma pair_rows_checked (uc : string) (names mobiles : list string)
    (seats : list pyint) :
  check_mobiles mobiles = Ok tt ->
  pair_rows_for_booking uc names mobiles seats
  = pairing_rules uc names mobiles seats.
Proof.
  intros Hchk. unfold pair_rows_for_booking, pairing_rules.
  rewrite Hchk. cbn [rbind].
  destruct ((List.length names =? List.length seats)%nat
            && (List.length mobiles =? List.length seats)%nat) eqn:R1.
  { apply andb_true_iff in R1. destruct R1 as [E1 E2].
    apply Nat.eqb_eq in E1, E2.
    apply (mapM_index3 (fun n m s => (uc, n, m, s))); assumption. }
  destruct ((List.length names =? 1)%nat && (List.length mobiles =? 1)%nat)
    eqn:R2.
  { apply andb_true_iff in R2. destruct R2 as [E1 E2].
    apply Nat.eqb_eq in E1, E2.
    destruct names as [|n [|? ?]]; try discriminate.
    destruct mobiles as [|m [|? ?]]; try discriminate.
    cbn [idx nth_error rbind hd].
    apply (mapM_pure (fun s => (uc, n, m, s))). }
  destruct ((List.length names =? 1)%nat
            && (List.length mobiles =? List.length seats)%nat) eqn:R3.
  { apply andb_true_iff in R3. destruct R3 as [E1 E2].
    apply Nat.eqb_eq in E1, E2.
    destruct names as [|n [|? ?]]; try discriminate.
    cbn [idx nth_error rbind hd].
    apply (mapM_index2 (fun m s => (uc, n, m, s))); assumption. }
  destruct ((List.length mobiles =? 1)%nat
            && (List.length names =? List.length seats)%nat) eqn:R4.
  { apply andb_true_iff in R4. destruct R4 as [E1 E2].
    apply Nat.eqb_eq in E1, E2.
    destruct mobiles as [|m [|? ?]]; try discriminate.
    cbn [idx nth_error rbind hd].
    apply (mapM_index2 (fun n s => (uc, n, m, s))); assumption. }
  reflexivity.
Qed.

Lemma pairing_rules_length (uc : string) (names mobiles : list string)
    (seats : list pyint) (rows : list BookingRow) :
  pairing_rules uc names mobiles seats = Ok rows ->
  List.length rows = List.length seats.
Proof.
  unfold pairing_rules.
  destruct (Nat.eqb_spec (List.length names) (List.length seats)),
    (Nat.eqb_spec (List.length mobiles) (List.length seats)),
    (Nat.eqb_spec (List.length names) 1),
    (Nat.eqb_spec (List.length mobiles) 1); cbn [andb];
    intros H; inversion H; subst; clear H;
    rewrite ?length_map, ?length_combine; lia.
Qed.

(** C1.  When every mobile has at least ten characters,
    [pair_rows_for_booking] returns what the first applicable rule of the
    fixed priority list gives: index-wise pairing when all three counts agree,
    else the single name and single mobile for every seat, else the single
    name with the mobiles paired to the seats, else the single mobile with the
    names paired to the seats; a result has exactly one tuple per seat, and
    the call fails with [InvalidPairing] exactly when no rule applies.  (The
    non-emptiness of the names and of the seat list is not needed.) *)
Theorem pair_rows_first_applicable_rule :
  forall (uc : string) (names mobiles : list string) (seats : list pyint),
    Forall (fun m => 10 <= String.length m) mobiles ->
    let n1 := List.length names in
    let n2 := List.length mobiles in
    let n3 := List.length seats in
    pair_rows_for_booking uc names mobiles seats
    = pairing_rules uc names mobiles seats
    /\ (forall rows,
          pair_rows_for_booking uc names mobiles seats = Ok rows ->
          List.length rows = n3)
    /\ (pair_rows_for_booking uc names mobiles seats = Raise InvalidPairing
        <-> ~ (n1 = n3 /\ n2 = n3) /\ ~ (n1 = 1 /\ n2 = 1)
            /\ ~ (n1 = 1 /\ n2 = n3) /\ ~ (n2 = 1 /\ n1 = n3)).
Proof.
  intros uc names mobiles seats Hm n1 n2 n3.
  pose proof (pair_rows_checked uc names mobiles seats
                (check_mobiles_ok mobiles Hm)) as Heq.
  split; [exact Heq|]. rewrite Heq. split.
  - intros rows. apply pairing_rules_length.
  - unfold pairing_rules. fold n1 n2 n3.
    destruct (Nat.eqb_spec n1 n3), (Nat.eqb_spec n2 n3),
      (Nat.eqb_spec n1 1), (Nat.eqb_spec n2 1); cbn [andb];
      (split; [intros H; try discriminate H; repeat split; intros [? ?]; lia
              | intros (H1 & H2 & H3 & H4); try reflexivity; exfalso;
                first [apply H1; split; lia | apply H2; split; lia
                      | apply H3; split; lia | apply H4; split; lia]]).
Qed.

Lemma pair_rows_first_applicable_rule_witness :
  Forall (fun m => 10 <= String.length m) ["9876543210"; "9988776655"]
  /\ pair_rows_for_booking "A1" ["Asha"] ["9876543210"; "9988776655"]
       [IntV 10; IntV 11]
     = Ok [("A1", "Asha", "9876543210", IntV 10);
           ("A1", "Asha", "9988776655", IntV 11)].
Proof.
  assert (H : Forall (fun m => 10 <= String.length m)
                     ["9876543210"; "9988776655"]).
  { repeat constructor. }
  split; [exact H|].
  exact (proj1 (pair_rows_first_applicable_rule
                  "A1" ["Asha"] ["9876543210"; "9988776655"]
                  [IntV 10; IntV 11] H)).
Defined.

(** C2.  [pair_rows_for_booking] fails with [InvalidMobile] exactly when some
    mobile has fewer than ten characters, whatever the three counts are; a
    failure carries no tuple, so nothing is paired in that case. *)
Theorem pair_rows_invalid_mobile_iff :
  forall (uc : string) (names mobiles : list string) (seats : list pyint),
    pair_rows_for_booking uc names mobiles seats = Raise InvalidMobile
    <-> Exists (fun m => String.length m < 10) mobiles.
Proof.
  intros uc names mobiles seats.
  destruct (check_mobiles_cases mobiles) as [[Hok Hall] | [Hbad Hex]].
  - rewrite (pair_rows_checked _ _ _ _ Hok). split.
    + unfold pairing_rules.
      repeat match goal with
             | |- context [if ?b then _ else _] => destruct b
             end; discriminate.
    + intros Hex. exfalso. apply Exists_exists in Hex.
      destruct Hex as [m [Hin Hlt]].
      rewrite Forall_forall in Hall. specialize (Hall m Hin). lia.
  - split; [intros _; exact Hex|]. intros _.
    unfold pair_rows_for_booking. rewrite Hbad. reflexivity.
Qed.

(** ** Facts about strings and digit runs *)

Lemma append_empty_r (s : string) : s +++ EmptyString = s.
Proof. induction s as [|c s IH]; simpl; [reflexivity | now rewrite IH]. Qed.

Lemma append_assoc (a b c : string) : (a +++ b) +++ c = a +++ (b +++ c).
Proof. induction a as [|x a IH]; simpl; [reflexivity | now rewrite IH]. Qed.

Lemma forallb_str_append (p : ascii -> bool) (a b : string) :
  forallb_str p (a +++ b) = forallb_str p a && forallb_str p b.
Proof.
  induction a as [|c a IH]; simpl; [reflexivity|].
  now rewrite IH, andb_assoc.
Qed.

(** Case analysis over the 256 characters. *)
Ltac by_char c :=
  destruct c as [[|] [|] [|] [|] [|] [|] [|] [|]];
  try reflexivity; try discriminate.

Lemma digit_not_space (c : ascii) : is_digit c = true -> is_space c = false.
Proof. by_char c. Qed.

Lemma digit_isdigit_char (c : ascii) : is_digit c = true -> isdigit_char c = true.
Proof. by_char c. Qed.

Lemma uint_of_char_digit (c : ascii) (d : uint) :
  is_digit c = true -> exists d', uint_of_char c (Some d) = Some d'.
Proof. by_char c; intros _; eexists; reflexivity. Qed.

Lemma string_of_uint_digits (d : uint) :
  digits_only (NilEmpty.string_of_uint d).
Proof.
  unfold digits_only. induction d; simpl; auto.
Qed.

(** [re.sub] with the empty replacement keeps exactly the digits. *)
Lemma sub_nondigits_filter (s : string) :
  sub_nondigits EmptyString s = filter_str is_digit s.
Proof.
  unfold sub_nondigits. generalize false.
  induction s as [|c s IH]; intros b; simpl; [reflexivity|].
  destruct (is_digit c).
  - now rewrite IH.
  - rewrite IH. now destruct b.
Qed.

Lemma filter_str_digits (s : string) : digits_only (filter_str is_digit s).
Proof.
  unfold digits_only. induction s as [|c s IH]; simpl; [reflexivity|].
  destruct (is_digit c) eqn:E; simpl; [now rewrite E|assumption].
Qed.

Lemma filter_str_id (s : string) :
  digits_only s -> filter_str is_digit s = s.
Proof.
  unfold digits_only. induction s as [|c s IH]; simpl; [reflexivity|].
  intros H. apply andb_true_iff in H. destruct H as [Hc Hs].
  rewrite Hc. now rewrite IH.
Qed.

(** *** Stripping *)

Lemma rstrip_no_space (s : string) :
  forallb_str (fun c => negb (is_space c)) s = true -> rstrip s = s.
Proof.
  induction s as [|c s IH]; simpl; [reflexivity|].
  intros H. apply andb_true_iff in H. destruct H as [Hc Hs].
  rewrite (IH Hs). apply negb_true_iff in Hc. rewrite Hc.
  now destruct s.
Qed.

Lemma strip_digits (s : string) : digits_only s -> strip s = s.
Proof.
  unfold digits_only. intros H. unfold strip.
  assert (Hns : forallb_str (fun c => negb (is_space c)) s = true).
  { induction s as [|c s IH]; simpl; [reflexivity|].
    simpl in H. apply andb_true_iff in H. destruct H as [Hc Hs].
    rewrite (digit_not_space c Hc). simpl. now apply IH. }
  assert (Hl : lstrip s = s).
  { destruct s as [|c s]; [reflexivity|]. simpl in *.
    apply andb_true_iff in H. destruct H as [Hc _].
    now rewrite (digit_not_space c Hc). }
  rewrite Hl. now apply rstrip_no_space.
Qed.

(** *** Digit runs *)

Lemma findall_digits_from_run (d : string) :
  digits_only d ->
  forall run s,
    findall_digits_from run (d +++ s) = findall_digits_from (run +++ d) s.
Proof.
  unfold digits_only. induction d as [|c d IH]; simpl; intros H run s.
  - now rewrite append_empty_r.
  - apply andb_true_iff in H. destruct H as [Hc Hd]. rewrite Hc.
    rewrite (IH Hd). now rewrite append_assoc.
Qed.

(** Every run that [findall] reports is a non-empty string of digits. *)
Lemma findall_digits_from_runs (s : string) :
  forall run,
    digits_only run ->
    Forall (fun r => digits_only r /\ r <> EmptyString)
           (findall_digits_from run s).
Proof.
  induction s as [|c s IH]; simpl; intros run Hrun.
  - destruct run; simpl; [constructor|].
    constructor; [|constructor]. split; [assumption | discriminate].
  - destruct (is_digit c) eqn:E.
    + apply IH. unfold digits_only in *. rewrite forallb_str_append, Hrun.
      simpl. now rewrite E.
    + apply Forall_app. split; [|apply IH; reflexivity].
      destruct run; simpl; [constructor|].
      constructor; [|constructor]. split; [assumption | discriminate].
Qed.

Lemma findall_digits_runs (s : string) :
  Forall (fun r => digits_only r /\ r <> EmptyString) (findall_digits s).
Proof. apply findall_digits_from_runs. reflexivity. Qed.

(** Joining the runs that [findall] found gives back the digits. *)
Lemma concat_findall_from (s : string) :
  forall run,
    String.concat EmptyString (findall_digits_from run s)
    = run +++ filter_str is_digit s.
Proof.
  induction s as [|c s IH]; simpl; intros run.
  - destruct run; simpl; [reflexivity | now rewrite append_empty_r].
  - destruct (is_digit c).
    + rewrite IH, append_assoc. reflexivity.
    + specialize (IH EmptyString). simpl in IH.
      destruct run as [|x run]; simpl; [exact IH|].
      destruct (findall_digits_from EmptyString s) eqn:F.
      * simpl in IH. rewrite <- IH, append_empty_r. reflexivity.
      * simpl. f_equal. f_equal. exact IH.
Qed.

Lemma concat_findall (s : string) :
  String.concat EmptyString (findall_digits s) = filter_str is_digit s.
Proof. apply (concat_findall_from s EmptyString). Qed.

(** A comma-joined list of digit strings is found again run by run. *)
Lemma findall_digits_join (ds : list string) :
  Forall (fun d => digits_only d /\ d <> EmptyString) ds ->
  findall_digits (String.concat "," ds) = ds.
Proof.
  unfold findall_digits.
  induction ds as [|d ds IH]; intros H; [reflexivity|].
  inversion H as [|? ? [Hd Hne] Hds]; subst.
  destruct ds as [|d' ds].
  - simpl. rewrite <- (append_empty_r d) at 1.
    rewrite (findall_digits_from_run d Hd). simpl.
    destruct d; [congruence | reflexivity].
  - change (String.concat "," (d :: d' :: ds))
      with (d +++ "," +++ String.concat "," (d' :: ds)).
    rewrite (findall_digits_from_run d Hd).
    cbn [String.append findall_digits_from].
    change (is_digit ",") with false. cbv iota.
    rewrite (IH Hds). cbn [String.append].
    destruct d; [congruence | reflexivity].
Qed.

(** A stretch without digits ends the run being read. *)
Lemma findall_digits_from_free (sep : string) :
  digit_free sep ->
  forall run s,
    findall_digits_from run (sep +++ s)
    = if is_empty sep then findall_digits_from run s
      else (if is_empty run then [] else [run]) ++ findall_digits s.
Proof.
  unfold digit_free. induction sep as [|c sep IH]; intros H run s.
  - reflexivity.
  - simpl in H. apply orb_false_iff in H. destruct H as [Hc Hs].
    cbn [String.append findall_digits_from is_empty]. rewrite Hc.
    f_equal. rewrite (IH Hs).
    destruct (is_empty sep); reflexivity.
Qed.

(** The runs of a separated text are found again, one by one. *)
Lemma findall_digits_weave (pieces : list (string * string)) :
  separated pieces -> findall_digits (weave pieces) = map fst pieces.
Proof.
  unfold findall_digits.
  induction pieces as [|[run sep] rest IH]; intros H; [reflexivity|].
  destruct H as (Hd & Hne & Hf & Hlast & Hrest).
  cbn [weave map fst]. rewrite (findall_digits_from_run run Hd).
  rewrite (findall_digits_from_free sep Hf).
  cbn [String.append].
  assert (Hrun : is_empty run = false)
    by (destruct run; [congruence | reflexivity]).
  destruct sep as [|c sep]; cbn [is_empty].
  - destruct Hlast as [-> | Hc]; [|congruence].
    cbn [weave findall_digits_from]. now rewrite Hrun.
  - rewrite Hrun. unfold findall_digits. now rewrite (IH Hrest).
Qed.

(** Every string is laid out this way. *)
Lemma string_layout (s : string) :
  exists first pieces,
    s = first +++ weave pieces /\ digit_free first /\ separated pieces.
Proof.
  induction s as [|c s (first & pieces & -> & Hf & Hp)].
  - exists EmptyString, []. now repeat split.
  - destruct (is_digit c) eqn:Hc.
    + destruct first as [|x first].
      * destruct pieces as [|[run sep] rest].
        -- exists EmptyString, [(String c EmptyString, EmptyString)].
           cbn. unfold digits_only. cbn. rewrite Hc.
           repeat split; try discriminate. now left.
        -- exists EmptyString, ((String c run, sep) :: rest).
           destruct Hp as (Hd & Hne & Hs & Hl & Hr).
           cbn. unfold digits_only in *. cbn. rewrite Hc, Hd.
           repeat split; try discriminate; assumption.
      * exists EmptyString, ((String c EmptyString, String x first) :: pieces).
        cbn. unfold digits_only. cbn. rewrite Hc.
        repeat split; try discriminate; try assumption. now right.
    + exists (String c first), pieces. unfold digit_free in *. cbn.
      rewrite Hc, Hf. now repeat split.
Qed.

Lemma findall_digits_layout (first : string)
      (pieces : list (string * string)) :
  digit_free first -> separated pieces ->
  findall_digits (first +++ weave pieces) = map fst pieces.
Proof.
  intros Hf Hp. unfold findall_digits.
  rewrite (findall_digits_from_free first Hf).
  destruct (is_empty first); apply (findall_digits_weave pieces Hp).
Qed.

(** *** Reading integers *)

Lemma split_sign_digit (c : ascii) (s : string) :
  is_digit c = true -> split_sign (String c s) = (false, String c s).
Proof. unfold split_sign. by_char c. Qed.

Lemma int_literal_digits (s : string) :
  digits_only s ->
  forall b, s <> EmptyString \/ b = true ->
            int_literal b s = NilEmpty.uint_of_string s.
Proof.
  unfold digits_only. induction s as [|c s IH]; simpl; intros H b Hb.
  - destruct Hb as [Hb | Hb]; [congruence | now rewrite Hb].
  - apply andb_true_iff in H. destruct H as [Hc Hs]. rewrite Hc.
    now rewrite (IH Hs true (or_intror eq_refl)).
Qed.

Lemma uint_of_string_digits (s : string) :
  digits_only s -> exists d, NilEmpty.uint_of_string s = Some d.
Proof.
  unfold digits_only. induction s as [|c s IH]; simpl; intros H.
  - now exists Nil.
  - apply andb_true_iff in H. destruct H as [Hc Hs].
    destruct (IH Hs) as [d Hd]. rewrite Hd.
    now apply uint_of_char_digit.
Qed.

(** A non-empty string of digits reads as the number it writes. *)
Lemma parse_int_digits (s : string) (d : uint) :
  digits_only s -> s <> EmptyString ->
  NilEmpty.uint_of_string s = Some d ->
  parse_int s = Some (Z.of_N (N.of_uint d)).
Proof.
  intros Hs Hne Hd. unfold parse_int. rewrite (strip_digits s Hs).
  destruct s as [|c s']; [congruence|].
  assert (Hc : is_digit c = true).
  { unfold digits_only in Hs. simpl in Hs.
    now apply andb_true_iff in Hs. }
  rewrite (split_sign_digit c s' Hc).
  rewrite (int_literal_digits _ Hs false (or_introl Hne)), Hd.
  reflexivity.
Qed.

Lemma str_of_Z_pos (p : positive) :
  str_of_Z (Z.pos p) = NilEmpty.string_of_uint (Pos.to_uint p).
Proof.
  unfold str_of_Z. simpl. unfold NilZero.string_of_uint.
  pose proof (DecimalPos.Unsigned.to_uint_nonnil p) as Hn.
  destruct (Pos.to_uint p); [congruence | reflexivity ..].
Qed.

Lemma str_of_Z_pos_digits (z : Z) :
  (0 < z)%Z -> digits_only (str_of_Z z) /\ str_of_Z z <> EmptyString.
Proof.
  intros Hz. destruct z as [|p|p]; try lia. rewrite str_of_Z_pos. split.
  - apply string_of_uint_digits.
  - pose proof (DecimalPos.Unsigned.to_uint_nonnil p) as Hn.
    destruct (Pos.to_uint p); [congruence | discriminate ..].
Qed.

Lemma parse_int_str_of_Z (z : Z) :
  (0 < z)%Z -> parse_int (str_of_Z z) = Some z.
Proof.
  intros Hz. destruct (str_of_Z_pos_digits z Hz) as [Hd Hne].
  destruct z as [|p|p]; try lia. rewrite str_of_Z_pos in *.
  rewrite (parse_int_digits _ (Pos.to_uint p) Hd Hne (NilEmpty.usu _)).
  change (Pos.to_uint p) with (N.to_uint (N.pos p)).
  now rewrite DecimalN.Unsigned.of_to.
Qed.

(** The first pass of [int] over a string of digits counts them all. *)
Lemma scan_digits_run (s : string) :
  digits_only s ->
  forall n, scan_digits false n s = Some (n + N.of_nat (String.length s))%N.
Proof.
  unfold digits_only. induction s as [|c s IH]; intros H n.
  - simpl. f_equal. lia.
  - simpl in H. apply andb_true_iff in H. destruct H as [Hc Hs].
    cbn [scan_digits]. rewrite Hc, (IH Hs). f_equal.
    cbn [String.length]. lia.
Qed.

Lemma mapM_total {A B} (f : A -> result B) (l : list A) :
  Forall (fun x => exists y, f x = Ok y) l -> exists ys, mapM f l = Ok ys.
Proof.
  induction 1 as [|x xs [y Hy] _ [ys Hys]]; simpl.
  - now exists [].
  - rewrite Hy, Hys. simpl. now eexists.
Qed.

(** ** The input normaliser *)

Section Normalizer.

Variable py_repr : pyval -> string.

(** [int] on a non-empty string of digits: the cap, then the number. *)
Lemma py_int_digits (r : string) (d : uint) :
  digits_only r -> r <> EmptyString ->
  NilEmpty.uint_of_string r = Some d ->
  py_int py_repr r
  = if (int_max_str_digits <? N.of_nat (String.length r))%N
    then Raise (ValueError (exceeds_limit_message
                              (N.of_nat (String.length r))))
    else Ok (Z.of_N (N.of_uint d)).
Proof.
  intros Hd Hne Hu. unfold py_int.
  rewrite (parse_int_digits r d Hd Hne Hu), (strip_digits r Hd).
  destruct r as [|c r']; [congruence|].
  assert (Hc : is_digit c = true).
  { unfold digits_only in Hd. simpl in Hd.
    now apply andb_true_iff in Hd. }
  rewrite (split_sign_digit c r' Hc).
  replace (starts_with_underscore (String c r')) with false
    by (revert Hc; by_char c; simpl; congruence).
  rewrite (scan_digits_run _ Hd 0%N). reflexivity.
Qed.

Lemma py_int_run (r : string) :
  digits_only r /\ r <> EmptyString -> within_int_limit r ->
  py_int py_repr r = Ok (run_value r).
Proof.
  intros [Hd Hne] Hl. destruct (uint_of_string_digits r Hd) as [d Hu].
  rewrite (py_int_digits r d Hd Hne Hu). unfold run_value. rewrite Hu.
  unfold within_int_limit in Hl.
  destruct (N.ltb_spec int_max_str_digits (N.of_nat (String.length r)));
    [lia | reflexivity].
Qed.

Lemma py_int_run_long (r : string) :
  digits_only r /\ r <> EmptyString -> ~ within_int_limit r ->
  exists msg, py_int py_repr r = Raise (ValueError msg).
Proof.
  intros [Hd Hne] Hl. destruct (uint_of_string_digits r Hd) as [d Hu].
  rewrite (py_int_digits r d Hd Hne Hu).
  unfold within_int_limit in Hl.
  destruct (N.ltb_spec int_max_str_digits (N.of_nat (String.length r)));
    [now eexists | lia].
Qed.

Lemma py_int_run_ok (r : string) (z : Z) :
  digits_only r /\ r <> EmptyString -> py_int py_repr r = Ok z ->
  within_int_limit r /\ z = run_value r.
Proof.
  intros Hr Hz.
  assert (Hl : within_int_limit r).
  { unfold within_int_limit.
    destruct (N.leb_spec (N.of_nat (String.length r)) int_max_str_digits)
      as [Hle|Hgt]; [exact Hle|].
    destruct (py_int_run_long r Hr) as [msg Hm];
      [unfold within_int_limit; lia | congruence]. }
  split; [exact Hl|]. rewrite (py_int_run r Hr Hl) in Hz. congruence.
Qed.

(** [extract_ints_from_string] returns the numbers of the digit runs when
    every run is within the cap of [int], and only then. *)
Lemma extract_ints_runs (s : string) :
  Forall within_int_limit (findall_digits s) ->
  extract_ints_from_string py_repr s
  = Ok (map run_value (findall_digits s)).
Proof.
  unfold extract_ints_from_string. intros H.
  pose proof (findall_digits_runs s) as Hr.
  induction (findall_digits s) as [|r rs IH]; [reflexivity|].
  inversion H as [|? ? Hl Hls]; inversion Hr as [|? ? Hd Hds]; subst.
  simpl. rewrite (py_int_run r Hd Hl), (IH Hls Hds). reflexivity.
Qed.

Lemma extract_ints_ok (s : string) (zs : list Z) :
  extract_ints_from_string py_repr s = Ok zs ->
  Forall within_int_limit (findall_digits s).
Proof.
  unfold extract_ints_from_string.
  pose proof (findall_digits_runs s) as Hr. revert zs.
  induction (findall_digits s) as [|r rs IH]; intros zs H; [constructor|].
  inversion Hr as [|? ? Hd Hds]; subst. simpl in H.
  destruct (py_int py_repr r) as [z|] eqn:E; [|discriminate].
  destruct (mapM (py_int py_repr) rs) as [zs'|] eqn:E'; [|discriminate].
  constructor; [now apply (py_int_run_ok r z) | now apply (IH Hds zs')].
Qed.


Lemma only_digits_ok_iff (v : pyval) :
  (exists t, only_digits v = Ok t)
  <-> truthy v = false \/ exists s, v = PStr s.
Proof.
  unfold only_digits. split.
  - intros [t Ht]. destruct (truthy v) eqn:E; [right | now left].
    destruct v; try discriminate. now eexists.
  - intros [E | [s ->]].
    + rewrite E. now eexists.
    + destruct (truthy (PStr s)); now eexists.
Qed.

(** [normalize_mobile_to_list] returns a list for a string and for a value
    that is neither a string nor a list; for a list it returns one exactly
    when every element is a string or counts as false. *)
Lemma normalize_mobile_string_total (s : string) :
  exists l, normalize_mobile_to_list (PStr s) = Ok l.
Proof.
  unfold normalize_mobile_to_list.
  destruct (mapM_total (fun p => only_digits (PStr p)) (comma_parts s))
    as [out Hout].
  - apply Forall_forall. intros p _. apply only_digits_ok_iff. right.
    now eexists.
  - rewrite Hout. simpl. now eexists.
Qed.

Lemma normalize_mobile_list_ok_iff (l : list pyval) :
  (exists out, normalize_mobile_to_list (PList l) = Ok out)
  <-> Forall (fun v => truthy v = false \/ exists s, v = PStr s) l.
Proof.
  unfold normalize_mobile_to_list. split.
  - intros [out H]. destruct (mapM only_digits l) as [ys|e] eqn:E;
      [clear H | discriminate].
    revert ys E. induction l as [|v l IH]; intros ys E; [constructor|].
    simpl in E. destruct (only_digits v) as [t|] eqn:Ev; [|discriminate].
    destruct (mapM only_digits l) as [ts|] eqn:El; [|discriminate].
    constructor; [|now apply (IH ts)].
    apply only_digits_ok_iff. now exists t.
  - intros H. destruct (mapM_total only_digits l) as [ys Hys].
    + eapply Forall_impl; [|exact H]. intros v Hv.
      now apply only_digits_ok_iff.
    + rewrite Hys. simpl. now eexists.
Qed.

(** On a string [only_digits] keeps the digits, so it changes nothing in a
    string of digits. *)
Lemma only_digits_string (s : string) :
  only_digits (PStr s) = Ok (filter_str is_digit s).
Proof.
  unfold only_digits. destruct s as [|c s]; [reflexivity|].
  cbn [truthy is_empty negb]. now rewrite concat_findall.
Qed.

Lemma only_digits_idempotent (s : string) :
  only_digits (PStr s) = Ok (filter_str is_digit s)
  /\ only_digits (PStr (filter_str is_digit s)) = Ok (filter_str is_digit s).
Proof.
  split; [apply only_digits_string|].
  rewrite only_digits_string. f_equal. apply filter_str_id, filter_str_digits.
Qed.

Lemma run_value_str_of_Z (z : Z) :
  (0 < z)%Z -> run_value (str_of_Z z) = z.
Proof.
  intros Hz. destruct z as [|p|p]; try lia. rewrite str_of_Z_pos.
  unfold run_value. rewrite NilEmpty.usu.
  change (Pos.to_uint p) with (N.to_uint (N.pos p)).
  now rewrite DecimalN.Unsigned.of_to.
Qed.

Lemma py_int_str_of_Z (z : Z) :
  (0 < z)%Z -> within_int_limit (str_of_Z z) ->
  py_int py_repr (str_of_Z z) = Ok z.
Proof.
  intros Hz Hl.
  rewrite (py_int_run _ (str_of_Z_pos_digits z Hz) Hl).
  now rewrite run_value_str_of_Z.
Qed.

Lemma mapM_py_int_str_of_Z (zs : list Z) :
  Forall (fun z => (0 < z)%Z /\ within_int_limit (str_of_Z z)) zs ->
  mapM (py_int py_repr) (map str_of_Z zs) = Ok zs.
Proof.
  induction 1 as [|z zs [Hz Hl] _ IH]; simpl; [reflexivity|].
  rewrite (py_int_str_of_Z z Hz Hl). simpl. now rewrite IH.
Qed.

Lemma extract_ints_join (zs : list Z) :
  Forall (fun z => (0 < z)%Z /\ within_int_limit (str_of_Z z)) zs ->
  extract_ints_from_string py_repr (String.concat "," (map str_of_Z zs))
  = Ok zs.
Proof.
  intros H. unfold extract_ints_from_string.
  rewrite findall_digits_join; [now apply mapM_py_int_str_of_Z|].
  apply Forall_map. eapply Forall_impl; [|exact H].
  intros z [Hz _]. now apply str_of_Z_pos_digits.
Qed.

Lemma extract_ints_single (z : Z) :
  (0 < z)%Z -> within_int_limit (str_of_Z z) ->
  extract_ints_from_string py_repr (str_of_Z z) = Ok [z].
Proof.
  intros Hz Hl. apply (extract_ints_join [z]). now repeat constructor.
Qed.

Lemma normalize_seats_items_ints (zs : list Z) :
  forall res,
    normalize_seats_items py_repr (map PInt zs) res = Ok (res ++ map IntV zs).
Proof.
  induction zs as [|z zs IH]; intros res; simpl.
  - now rewrite app_nil_r.
  - rewrite IH, <- app_assoc. reflexivity.
Qed.

Lemma normalize_seats_items_strs (zs : list Z) :
  Forall (fun z => (0 < z)%Z /\ within_int_limit (str_of_Z z)) zs ->
  forall res,
    normalize_seats_items py_repr (map (fun z => PStr (str_of_Z z)) zs) res
    = Ok (res ++ map IntV zs).
Proof.
  induction 1 as [|z zs [Hz Hl] _ IH]; intros res; simpl.
  - now rewrite app_nil_r.
  - rewrite (extract_ints_single z Hz Hl). simpl.
    rewrite IH, <- app_assoc. reflexivity.
Qed.

(** C4, as amended.  For every sequence of positive integers of at most
    4300 decimal digits each, [normalize_seats] returns that same sequence,
    in order and with its repetitions, whether the field is the comma-joined
    string of the integers, the list of the integers or the list of their
    decimal strings.  And for every string laid out as digit runs of at most
    4300 digits with digit-free text before, between and after them,
    [normalize_seats] returns the number of every run, in the order of the
    runs and with its repetitions; every string has such a layout. *)
Theorem normalize_seats_same_for_all_shapes :
  forall zs : list Z,
    Forall (fun z => (0 < z)%Z /\ within_int_limit (str_of_Z z)) zs ->
    (normalize_seats py_repr (PStr (String.concat "," (map str_of_Z zs)))
     = Ok (map IntV zs)
     /\ normalize_seats py_repr (PList (map PInt zs)) = Ok (map IntV zs)
     /\ normalize_seats py_repr (PList (map (fun z => PStr (str_of_Z z)) zs))
        = Ok (map IntV zs))
    /\ (forall (first : string) (pieces : list (string * string)),
          digit_free first -> separated pieces ->
          Forall (fun p => within_int_limit (fst p)) pieces ->
          normalize_seats py_repr (PStr (first +++ weave pieces))
          = Ok (map (fun p => IntV (run_value (fst p))) pieces))
    /\ (forall s : string,
          exists first pieces,
            s = first +++ weave pieces
            /\ digit_free first /\ separated pieces).
Proof.
  intros zs H. unfold normalize_seats.
  split; [repeat split | split; [|exact string_layout]].
  - now rewrite (extract_ints_join zs H).
  - apply (normalize_seats_items_ints zs []).
  - apply (normalize_seats_items_strs zs H []).
  - intros first pieces Hf Hp Hl.
    rewrite extract_ints_runs;
      rewrite (findall_digits_layout first pieces Hf Hp).
    + cbn [rbind app]. now rewrite !map_map.
    + now apply Forall_map.
Qed.

End Normalizer.

Lemma normalize_seats_same_for_all_shapes_witness :
  Forall (fun z => (0 < z)%Z /\ within_int_limit (str_of_Z z)) [12; 45; 12]%Z
  /\ normalize_seats no_repr (PStr "12,45,12") = Ok [IntV 12; IntV 45; IntV 12]
  /\ normalize_seats no_repr (PList [PInt 12; PInt 45; PInt 12])
     = Ok [IntV 12; IntV 45; IntV 12]
  /\ normalize_seats no_repr (PList [PStr "12"; PStr "45"; PStr "12"])
     = Ok [IntV 12; IntV 45; IntV 12]
  /\ normalize_seats no_repr (PStr "seats: 7 and 007; 12/7")
     = Ok [IntV 7; IntV 7; IntV 12; IntV 7].
Proof.
  assert (H : Forall (fun z => (0 < z)%Z /\ within_int_limit (str_of_Z z))
                     [12; 45; 12]%Z).
  { repeat constructor; discriminate. }
  split; [exact H|].
  destruct (normalize_seats_same_for_all_shapes no_repr [12; 45; 12]%Z H)
    as [(Hs & Hi & Hd) [Hruns _]].
  split; [exact Hs|]. split; [exact Hi|]. split; [exact Hd|].
  apply (Hruns "seats: " [("7", " and "); ("007", "; "); ("12", "/");
                          ("7", "")]).
  - reflexivity.
  - cbn. repeat split; try discriminate; try (now left); now right.
  - repeat constructor; discriminate.
Defined.

(** An integer of 4301 digits is kept when it comes as an [int] of a list
    and makes [int] raise when it comes written in a string. *)
Lemma normalize_seats_long_integer :
  let z := (10 ^ 4300)%Z in
  (0 < z)%Z
  /\ normalize_seats no_repr (PList (map PInt [z])) = Ok (map IntV [z])
  /\ (exists msg,
        normalize_seats no_repr (PStr (String.concat "," (map str_of_Z [z])))
        = Raise (ValueError msg))
  /\ (exists msg,
        normalize_seats no_repr
                        (PList (map (fun z => PStr (str_of_Z z)) [z]))
        = Raise (ValueError msg)).
Proof.
  cbv zeta. split; [reflexivity|]. split; [reflexivity|].
  split; eexists; vm_compute; reflexivity.
Qed.

(** C3.  A JSON number inside the list of mobiles makes
    [normalize_mobile_to_list] raise [TypeError]: [only_digits] hands every
    element that counts as true to [re.findall], which wants a string.  The
    same list with the number as a string normalises, and the route answers
    the booking with the number with a 500. *)
Theorem normalize_mobile_raises_on_number_in_list :
  normalize_mobile_to_list (PList [PInt 9876543210])
  = Raise (TypeError "expected string or bytes-like object, got 'int'")
  /\ normalize_mobile_to_list (PList [PStr "9876543210"]) = Ok ["9876543210"]
  /\ fst (submit no_repr no_repr test_config numeric_mobile_booking
                 (quiet_world [HEADER]))
     = Ok (failure (TypeError
                      "expected string or bytes-like object, got 'int'")).
Proof. repeat split. Qed.

(** ** Destination formatting *)

(** C5.  [_format_wa_to] always returns; its result is the documented rule
    applied to the digits of the input, a warning is printed exactly in the
    pass-through case, and the three documented examples come out as
    stated. *)
Theorem format_wa_to_rule :
  (forall (number : string) (w : world),
      fst (_format_wa_to number w) = Ok (wa_destination number)
      /\ stdout (snd (_format_wa_to number w))
         = stdout w
           ++ (if wa_unexpected number then
                 [[PStr ("[WARN] Unexpected mobile format: " +++ number
                         +++ " -> " +++ filter_str is_digit number)]]
               else []))
  /\ (forall w, fst (_format_wa_to "9876543210" w) = Ok "whatsapp:+919876543210")
  /\ (forall w, fst (_format_wa_to "919876543210" w) = Ok "whatsapp:+919876543210")
  /\ (forall w, fst (_format_wa_to "+1234567890123" w)
                = Ok "whatsapp:+1234567890123").
Proof.
  split; [|repeat split; intros w; reflexivity].
  intros number w. unfold _format_wa_to, wa_destination, wa_unexpected.
  rewrite sub_nondigits_filter.
  destruct (prefix "91" (filter_str is_digit number)
            && (String.length (filter_str is_digit number) =? 12)%nat);
    cbn [negb andb].
  - cbn. now rewrite app_nil_r.
  - destruct (String.length (filter_str is_digit number) =? 10)%nat;
      cbn [negb].
    + cbn. now rewrite app_nil_r.
    + cbn. split; reflexivity.
Qed.

(** ** The ledger gateway *)

Lemma bind_ok {A B} (m : M A) (k : A -> M B) (w w' : world) (a : A) :
  m w = (Ok a, w') -> bind m k w = k a w'.
Proof. intros H. unfold bind. now rewrite H. Qed.

Lemma bind_raise {A B} (m : M A) (k : A -> M B) (w w' : world) (e : exn) :
  m w = (Raise e, w') -> bind m k w = (Raise e, w').
Proof. intros H. unfold bind. now rewrite H. Qed.

Lemma append_row_cases (row : list string) (w : world) :
  exists w',
    (exists msg, append_row row w = (Raise (ServiceError msg), w')
                 /\ sheet w' = sheet w)
    \/ (append_row row w = (Ok tt, w') /\ sheet w' = sheet w ++ [row]).
Proof.
  unfold append_row, sheets_call.
  destruct (sheets_faults w 0) as [msg|]; eexists.
  - left. exists msg. split; reflexivity.
  - right. split; reflexivity.
Qed.

Lemma append_row_ok (row : list string) (w : world) :
  no_faults w ->
  exists w', append_row row w = (Ok tt, w')
             /\ sheet w' = sheet w ++ [row] /\ no_faults w'
             /\ twilio_outcomes w' = twilio_outcomes w.
Proof.
  intros H. unfold append_row, sheets_call. rewrite (H 0).
  eexists. split; [reflexivity|]. repeat split.
  intros n. apply (H (S n)).
Qed.

Lemma get_sheet_ok (w : world) :
  no_faults w ->
  exists w', get_sheet w = (Ok tt, w')
             /\ sheet w' = ledger_rows w /\ no_faults w'
             /\ twilio_outcomes w' = twilio_outcomes w.
Proof.
  intros H. unfold get_sheet, bind, open_sheet1, get_all_values, sheets_call.
  rewrite (H 0). cbn. rewrite (H 1). cbn. unfold ledger_rows.
  destruct (sheet w) as [|r rows] eqn:E.
  - unfold append_row, sheets_call. cbn. rewrite (H 2).
    eexists. split; [reflexivity|]. cbn. repeat split.
    intros n. apply (H (S (S (S n)))).
  - unfold ret. eexists. split; [reflexivity|]. cbn. repeat split.
    intros n. apply (H (S (S n))).
Qed.

(** Whenever [get_sheet] returns, the worksheet has its header. *)
Lemma get_sheet_rows (w w1 : world) :
  get_sheet w = (Ok tt, w1) -> sheet w1 = ledger_rows w.
Proof.
  unfold get_sheet, bind, open_sheet1, get_all_values, sheets_call,
    ledger_rows.
  destruct (sheets_faults w 0); cbn; [discriminate|].
  destruct (sheets_faults w 1); cbn; [discriminate|].
  destruct (sheet w) as [|r rows] eqn:E.
  - unfold append_row, sheets_call. cbn.
    destruct (sheets_faults w 2); cbn; [discriminate|].
    intros H. inversion H. reflexivity.
  - unfold ret. intros H. inversion H. reflexivity.
Qed.

Lemma col_values_ok (n : nat) (w w' : world) (column : list string) :
  col_values n w = (Ok column, w') ->
  column = map (fun r => nth (n - 1) r EmptyString) (sheet w).
Proof.
  unfold col_values, sheets_call.
  destruct (sheets_faults w 0); cbn; [discriminate|].
  intros H. now inversion H.
Qed.

(** ** Notification *)

Section Notification.

Variable json_dumps : pyval -> string.
Variable cfg : config.

Lemma format_wa_to_world (number : string) (w : world) :
  exists s w', _format_wa_to number w = (Ok s, w')
               /\ sheet w' = sheet w /\ sheets_faults w' = sheets_faults w
               /\ twilio_outcomes w' = twilio_outcomes w.
Proof.
  unfold _format_wa_to.
  destruct (prefix "91" (sub_nondigits EmptyString number)
            && (String.length (sub_nondigits EmptyString number) =? 12)%nat);
    [|destruct (String.length (sub_nondigits EmptyString number) =? 10)%nat];
    do 2 eexists; (split; [reflexivity|]); repeat split.
Qed.

(** The notification never raises, never touches the ledger, and returns
    [None] when a credential is missing or the client raises. *)
Lemma send_whatsapp_safe (to_number name : string) (seat : pyint)
    (event_time : string) (w : world) :
  exists r w',
    send_whatsapp_template_concert json_dumps cfg to_number name seat
                                   event_time w = (Ok r, w')
    /\ sheet w' = sheet w
    /\ sheets_faults w' = sheets_faults w
    /\ (credentials_present cfg = false -> r = None)
    /\ ((exists msg, twilio_outcomes w 0 = inl msg) -> r = None).
Proof.
  unfold send_whatsapp_template_concert. fold (credentials_present cfg).
  destruct (credentials_present cfg) eqn:C; cbn [negb].
  - unfold try_except, bind at 1.
    destruct (format_wa_to_world to_number w) as (s & w1 & E & Hs & Hf & Ht).
    rewrite E. unfold bind, print, messages_create, ret. cbn.
    rewrite Ht. destruct (twilio_outcomes w 0) as [msg | sid] eqn:T.
    + do 2 eexists. split; [reflexivity|]. cbn. repeat split; auto.
    + do 2 eexists. split; [reflexivity|]. cbn. repeat split; auto.
      * discriminate.
      * intros [msg Hm]. discriminate.
  - do 2 eexists. split; [reflexivity|]. cbn. repeat split; auto.
Qed.

End Notification.

(** ** The submission route *)

Section Submit.

Variable py_repr : pyval -> string.
Variable json_dumps : pyval -> string.
Variable cfg : config.

Lemma submit_booking_validate (ts : string) (booking : pyval)
    (acc : list pyint) (w : world) :
  submit_booking py_repr json_dumps cfg ts booking acc w
  = match validate_booking py_repr booking with
    | Raise e => (Raise e, w)
    | Ok (inl r) => (Ok (Return r), w)
    | Ok (inr rows) =>
        match submit_rows json_dumps cfg ts (event_time cfg) rows acc w with
        | (Ok acc', w') => (Ok (Next acc'), w')
        | (Raise e, w') => (Raise e, w')
        end
    end.
Proof.
  unfold submit_booking, validate_booking, bind, lift, ret.
  destruct (py_get booking "user_code" (PStr EmptyString)) as [uc|];
    cbn [rbind]; [|reflexivity].
  destruct (py_get booking "name" (PStr EmptyString)) as [nm|];
    cbn [rbind]; [|reflexivity].
  destruct (py_get booking "mobile" (PStr EmptyString)) as [mb|];
    cbn [rbind]; [|reflexivity].
  destruct (normalize_mobile_to_list mb) as [mobiles|]; cbn [rbind];
    [|reflexivity].
  destruct (py_get booking "seats" (PList [])) as [st|]; cbn [rbind];
    [|reflexivity].
  destruct (normalize_seats py_repr st) as [seats|]; cbn [rbind];
    [|reflexivity].
  destruct (normalize_names_to_list py_repr nm) as [|name names];
    [reflexivity|].
  destruct mobiles as [|mobile mobiles]; [reflexivity|].
  destruct seats as [|seat seats]; [reflexivity|].
  destruct (filter seat_out_of_range (seat :: seats)); [|reflexivity].
  destruct (pair_rows_for_booking _ _ _ _); reflexivity.
Qed.

(** The rows of one booking: every append that succeeds adds one row, a
    notification changes nothing, and the loop stops at the first append
    that fails. *)
Lemma submit_rows_sheet (ts et : string) (rows : list BookingRow) :
  forall acc w,
    exists done,
      sheet (snd (submit_rows json_dumps cfg ts et rows acc w))
      = sheet w ++ map (ledger_row ts) done
      /\ (forall acc',
             fst (submit_rows json_dumps cfg ts et rows acc w) = Ok acc' ->
             done = rows /\ acc' = acc ++ map row_seat rows).
Proof.
  induction rows as [|[[[uc nm] mb] seat] rest IH]; intros acc w.
  - exists []. cbn. rewrite app_nil_r. split; [reflexivity|].
    intros acc' H. inversion H. now rewrite app_nil_r.
  - cbn [submit_rows].
    destruct (append_row_cases [ts; uc; nm; mb; pyint_str seat] w)
      as (w0 & [(msg & E0 & Hs0) | (E0 & Hs0)]).
    + rewrite (bind_raise _ _ _ _ _ E0). exists []. cbn.
      rewrite app_nil_r. split; [assumption | discriminate].
    + rewrite (bind_ok _ _ _ _ _ E0).
      destruct (send_whatsapp_safe json_dumps cfg mb nm seat et w0)
        as (r & w1 & E & Hs & _).
      rewrite (bind_ok _ _ _ _ _ E).
      destruct (IH (acc ++ [seat]) w1) as (done & Hd & Hok).
      exists ((uc, nm, mb, seat) :: done). split.
      * rewrite Hd, Hs, Hs0. cbn. now rewrite <- app_assoc.
      * intros acc' H. destruct (Hok acc' H) as [-> ->].
        split; [reflexivity|]. cbn. now rewrite <- app_assoc.
Qed.

Lemma submit_rows_ok (ts et : string) (rows : list BookingRow) :
  forall acc w,
    no_faults w ->
    exists w',
      submit_rows json_dumps cfg ts et rows acc w
      = (Ok (acc ++ map row_seat rows), w')
      /\ sheet w' = sheet w ++ map (ledger_row ts) rows
      /\ no_faults w'.
Proof.
  induction rows as [|[[[uc nm] mb] seat] rest IH]; intros acc w Hw.
  - exists w. cbn. now rewrite !app_nil_r.
  - cbn [submit_rows].
    destruct (append_row_ok [ts; uc; nm; mb; pyint_str seat] w Hw)
      as (w1 & E1 & Hs1 & Hf1 & _).
    rewrite (bind_ok _ _ _ _ _ E1).
    destruct (send_whatsapp_safe json_dumps cfg mb nm seat et w1)
      as (r & w2 & E2 & Hs2 & Hf2 & _).
    rewrite (bind_ok _ _ _ _ _ E2).
    assert (Hw2 : no_faults w2).
    { intros n. rewrite Hf2. apply Hf1. }
    destruct (IH (acc ++ [seat]) w2 Hw2) as (w3 & E3 & Hs3 & Hf3).
    exists w3. rewrite E3. split; [|split; [|assumption]].
    + cbn. now rewrite <- app_assoc.
    + rewrite Hs3, Hs2, Hs1. cbn. now rewrite <- app_assoc.
Qed.

(** Splitting the loop over the bookings at any point. *)
Lemma submit_bookings_app (ts : string) (pre rest : list pyval) :
  forall acc w,
    submit_bookings py_repr json_dumps cfg ts (pre ++ rest) acc w
    = match submit_bookings py_repr json_dumps cfg ts pre acc w with
      | (Ok (Next acc'), w') =>
          submit_bookings py_repr json_dumps cfg ts rest acc' w'
      | other => other
      end.
Proof.
  induction pre as [|b pre IH]; intros acc w.
  - cbn. now destruct (submit_bookings _ _ _ _ rest acc w) as [[[r|a]|e] w1].
  - change ((b :: pre) ++ rest) with (b :: (pre ++ rest)).
    cbn [submit_bookings]. unfold bind.
    destruct (submit_booking py_repr json_dumps cfg ts b acc w) as [[f|e] w1];
      [|reflexivity].
    destruct f as [r|acc1]; [reflexivity|]. apply IH.
Qed.

(** A booking that stops before its first append ends the loop there, with
    the world as the earlier bookings left it. *)
Lemma submit_bookings_stop (ts : string) (pre post : list pyval)
    (b : pyval) (acc acc' : list pyint) (w w' : world) :
  submit_bookings py_repr json_dumps cfg ts pre acc w = (Ok (Next acc'), w') ->
  submit_bookings py_repr json_dumps cfg ts (pre ++ b :: post) acc w
  = match validate_booking py_repr b with
    | Raise e => (Raise e, w')
    | Ok (inl r) => (Ok (Return r), w')
    | Ok (inr rows) =>
        submit_bookings py_repr json_dumps cfg ts (b :: post) acc' w'
    end.
Proof.
  intros Hpre. rewrite submit_bookings_app, Hpre.
  destruct (validate_booking py_repr b) as [[r|rows]|e] eqn:V; [| reflexivity |];
    cbn [submit_bookings]; unfold bind;
    rewrite submit_booking_validate, V; reflexivity.
Qed.

(** The rows written by the bookings that went through. *)
Lemma submit_bookings_sheet (ts : string) (bs : list pyval) :
  forall acc w acc' w',
    submit_bookings py_repr json_dumps cfg ts bs acc w = (Ok (Next acc'), w') ->
    exists rows,
      sheet w' = sheet w ++ map (ledger_row ts) rows
      /\ acc' = acc ++ map row_seat rows.
Proof.
  induction bs as [|b bs IH]; intros acc w acc' w' H.
  - inversion H; subst. exists []. cbn. now rewrite !app_nil_r.
  - cbn [submit_bookings] in H. unfold bind in H.
    rewrite submit_booking_validate in H.
    destruct (validate_booking py_repr b) as [[r|rows]|e]; try discriminate.
    destruct (submit_rows_sheet ts (event_time cfg) rows acc w) as (done & Hd & Hok).
    destruct (submit_rows json_dumps cfg ts (event_time cfg) rows acc w)
      as [[acc1|e] w1]; [|discriminate].
    destruct (Hok acc1 eq_refl) as [-> ->]. cbn [snd] in Hd.
    destruct (IH _ _ _ _ H) as (rows' & Hs & Ha).
    exists (rows ++ rows'). rewrite Hs, Hd, Ha, !map_app, !app_assoc.
    split; reflexivity.
Qed.

(** The route, once the worksheet is open and the bookings are listed. *)
Lemma submit_opened (json : pyval) (items : list pyval) (w w1 : world) :
  get_sheet w = (Ok tt, w1) ->
  py_iter (bookings_of (request_data json)) = Ok items ->
  submit py_repr json_dumps cfg json w
  = match submit_bookings py_repr json_dumps cfg (now cfg) items [] w1 with
    | (Ok (Return r), w2) => (Ok r, w2)
    | (Ok (Next all_confirmed), w2) => (Ok (confirmation all_confirmed), w2)
    | (Raise e, w2) => (Ok (failure e), w2)
    end.
Proof.
  intros Hs Hi. unfold submit. fold (request_data json).
  rewrite (bind_ok _ _ _ _ _ Hs). unfold try_except.
  rewrite (bind_ok _ _ w1 w1 items); [|unfold lift; now rewrite Hi].
  unfold bind.
  destruct (submit_bookings py_repr json_dumps cfg (now cfg) items [] w1)
    as [[[r|acc]|e] w2]; reflexivity.
Qed.

Lemma validate_booking_400 (booking : pyval) (r : response) :
  validate_booking py_repr booking = Ok (inl r) -> status r = 400%Z.
Proof.
  unfold validate_booking.
  destruct (py_get booking "user_code" (PStr EmptyString)) as [uc|];
    cbn [rbind]; [|discriminate].
  destruct (py_get booking "name" (PStr EmptyString)) as [nm|];
    cbn [rbind]; [|discriminate].
  destruct (py_get booking "mobile" (PStr EmptyString)) as [mb|];
    cbn [rbind]; [|discriminate].
  destruct (normalize_mobile_to_list mb) as [mobiles|]; cbn [rbind];
    [|discriminate].
  destruct (py_get booking "seats" (PList [])) as [st|]; cbn [rbind];
    [|discriminate].
  destruct (normalize_seats py_repr st) as [seats|]; cbn [rbind];
    [|discriminate].
  destruct (normalize_names_to_list py_repr nm) as [|name names];
    [intros H; inversion H; reflexivity|].
  destruct mobiles as [|mobile mobiles]; [intros H; inversion H; reflexivity|].
  destruct seats as [|seat seats]; [intros H; inversion H; reflexivity|].
  destruct (filter seat_out_of_range (seat :: seats));
    [|intros H; inversion H; reflexivity].
  destruct (pair_rows_for_booking _ _ _ _); discriminate.
Qed.

(** A booking object whose seats are not all in range is turned down
    before the pairing: by the exception of the mobiles, by the check of the
    required fields, or with the list of the seats out of range. *)
Lemma validate_out_of_range (d : list (string * pyval)) (seats : list pyint) :
  normalize_seats py_repr (field d "seats" (PList [])) = Ok seats ->
  filter seat_out_of_range seats <> [] ->
  match normalize_mobile_to_list (field d "mobile" (PStr EmptyString)) with
  | Raise e => validate_booking py_repr (PDict d) = Raise e
  | Ok mobiles =>
      validate_booking py_repr (PDict d)
      = Ok (inl match normalize_names_to_list
                        py_repr (field d "name" (PStr EmptyString)),
                      mobiles with
                | _ :: _, _ :: _ =>
                    invalid_seats_response (filter seat_out_of_range seats)
                | _, _ => fields_required_response
                end)
  end.
Proof.
  intros Hs Hinv. unfold validate_booking, py_get. cbn [rbind].
  fold (field d "name" (PStr EmptyString)).
  fold (field d "mobile" (PStr EmptyString)).
  fold (field d "seats" (PList [])).
  destruct (normalize_mobile_to_list (field d "mobile" (PStr EmptyString)))
    as [mobiles|e]; cbn [rbind]; [|reflexivity].
  rewrite Hs. cbn [rbind].
  destruct (normalize_names_to_list py_repr (field d "name" (PStr EmptyString)))
    as [|name names]; [reflexivity|].
  destruct mobiles as [|mobile mobiles]; [reflexivity|].
  destruct seats as [|seat seats']; [cbn in Hinv; congruence|].
  destruct (filter seat_out_of_range (seat :: seats')); [congruence|].
  reflexivity.
Qed.

(** When the spreadsheet client does not fail, bookings that pass the
    validation are all written and all confirmed. *)
Lemma submit_bookings_ok (ts : string) (items : list pyval)
    (rowss : list (list BookingRow)) :
  Forall2 (fun b rows => validate_booking py_repr b = Ok (inr rows)) items rowss ->
  forall acc w,
    no_faults w ->
    exists w',
      submit_bookings py_repr json_dumps cfg ts items acc w
      = (Ok (Next (acc ++ map row_seat (List.concat rowss))), w')
      /\ sheet w' = sheet w ++ map (ledger_row ts) (List.concat rowss)
      /\ no_faults w'.
Proof.
  induction 1 as [|b rows items rowss Hb _ IH]; intros acc w Hw.
  - exists w. cbn. now rewrite !app_nil_r.
  - cbn [submit_bookings List.concat]. unfold bind.
    rewrite submit_booking_validate, Hb.
    destruct (submit_rows_ok ts (event_time cfg) rows acc w Hw) as (w1 & E1 & Hs1 & Hf1).
    rewrite E1. destruct (IH (acc ++ map row_seat rows) w1 Hf1)
      as (w2 & E2 & Hs2 & Hf2).
    exists w2. rewrite E2, Hs2, Hs1, !map_app, !app_assoc. now repeat split.
Qed.

(** C7, as amended.  When the worksheet opened, the earlier bookings of the
    request went through, and this booking is an object one of whose
    normalised seats is outside 1..105: the route answers at once and the
    ledger is left as the earlier bookings left it; neither pairing nor any
    append of this booking takes place.  When the mobiles normalise, the
    answer is a 400: with the message that lists exactly the seats out of
    range, in order, when names and mobiles are not empty, and with the
    message about the required fields when the names or the mobiles are
    empty. *)
Theorem submit_rejects_out_of_range_seats :
  forall (json : pyval) (w w1 w2 : world) (pre post : list pyval)
         (d : list (string * pyval)) (acc : list pyint)
         (seats : list pyint),
    get_sheet w = (Ok tt, w1) ->
    py_iter (bookings_of (request_data json)) = Ok (pre ++ PDict d :: post) ->
    submit_bookings py_repr json_dumps cfg (now cfg) pre [] w1
    = (Ok (Next acc), w2) ->
    normalize_seats py_repr (field d "seats" (PList [])) = Ok seats ->
    Exists (fun s => (int_val s < 1 \/ 105 < int_val s)%Z) seats ->
    let names :=
      normalize_names_to_list py_repr (field d "name" (PStr EmptyString)) in
    let invalid := filter seat_out_of_range seats in
    exists resp,
      submit py_repr json_dumps cfg json w = (Ok resp, w2)
      /\ rejection py_repr (PDict d) = Some resp
      /\ (forall mobiles,
            normalize_mobile_to_list (field d "mobile" (PStr EmptyString))
            = Ok mobiles ->
            status resp = 400%Z
            /\ (names <> [] -> mobiles <> [] ->
                resp = invalid_seats_response invalid)
            /\ (names = [] \/ mobiles = [] ->
                resp = fields_required_response))
      /\ (forall s, In s invalid
                    <-> In s seats /\ (int_val s < 1 \/ 105 < int_val s)%Z).
Proof.
  intros json w w1 w2 pre post d acc seats Hg Hi Hpre Hs Hex names invalid.
  assert (Hrange : forall s, seat_out_of_range s = true
                             <-> (int_val s < 1 \/ 105 < int_val s)%Z).
  { intros s. unfold seat_out_of_range.
    rewrite orb_true_iff, Z.ltb_lt, Z.gtb_ltb, Z.ltb_lt. reflexivity. }
  assert (Hinv : invalid <> []).
  { apply Exists_exists in Hex. destruct Hex as (s & Hin & Hout).
    intros E. assert (Hs' : In s invalid).
    { apply filter_In. split; [assumption | now apply Hrange]. }
    rewrite E in Hs'. contradiction. }
  assert (Hlist : forall s, In s invalid
                    <-> In s seats /\ (int_val s < 1 \/ 105 < int_val s)%Z).
  { intros s. unfold invalid. rewrite filter_In, Hrange. reflexivity. }
  rewrite (submit_opened json _ w w1 Hg Hi).
  rewrite (submit_bookings_stop (now cfg) pre post (PDict d) [] acc w1 w2 Hpre).
  unfold rejection.
  pose proof (validate_out_of_range d seats Hs Hinv) as V. fold names in V.
  fold invalid in V.
  destruct (normalize_mobile_to_list (field d "mobile" (PStr EmptyString)))
    as [mobiles|e]; rewrite V.
  - eexists. split; [reflexivity|]. split; [reflexivity|].
    split; [|exact Hlist].
    intros mobiles' H. inversion H; subst mobiles'.
    destruct names as [|name names']; destruct mobiles as [|mobile mobiles'];
      (split; [reflexivity|]); split; intros; try reflexivity; try congruence;
      destruct H0; congruence.
  - exists (failure e). split; [reflexivity|]. split; [reflexivity|].
    split; [|exact Hlist]. intros mobiles H. discriminate H.
Qed.

(** C8.  When the worksheet opened and the earlier bookings of a request
    went through, a booking that is turned down by the validation or by the
    pairing ends the request with a 400 or a 500; the response is the one
    that booking alone determines, and the ledger keeps every row the
    earlier bookings appended, one per seat they confirmed. *)
Theorem submit_no_rollback :
  forall (json : pyval) (w w1 w2 : world) (pre post : list pyval)
         (b : pyval) (acc : list pyint),
    get_sheet w = (Ok tt, w1) ->
    py_iter (bookings_of (request_data json)) = Ok (pre ++ b :: post) ->
    submit_bookings py_repr json_dumps cfg (now cfg) pre [] w1
    = (Ok (Next acc), w2) ->
    (forall rows, validate_booking py_repr b <> Ok (inr rows)) ->
    exists (resp : response) (rows : list BookingRow),
      submit py_repr json_dumps cfg json w = (Ok resp, w2)
      /\ rejection py_repr b = Some resp
      /\ (status resp = 400%Z \/ status resp = 500%Z)
      /\ sheet w2 = sheet w1 ++ map (ledger_row (now cfg)) rows
      /\ acc = map row_seat rows.
Proof.
  intros json w w1 w2 pre post b acc Hg Hi Hpre Hrej.
  destruct (submit_bookings_sheet (now cfg) pre [] w1 acc w2 Hpre)
    as (rows & Hsheet & Hacc).
  rewrite (submit_opened json _ w w1 Hg Hi).
  rewrite (submit_bookings_stop (now cfg) pre post b [] acc w1 w2 Hpre).
  unfold rejection.
  destruct (validate_booking py_repr b) as [[r|rows']|e] eqn:V.
  - exists r, rows. repeat split; try assumption.
    left. now apply (validate_booking_400 b).
  - exfalso. now apply (Hrej rows').
  - exists (failure e), rows. repeat split; try assumption. now right.
Qed.

End Submit.

(** ** Notifications and the outcome of a request *)

Section NotificationIndependence.

Variable py_repr : pyval -> string.
Variable json_dumps : pyval -> string.
Variable cfg : config.

Lemma same_ret {A} (a : A) : same_on_ledger (ret a) (ret a).
Proof. intros w1 w2 Hw. split; [reflexivity | exact Hw]. Qed.

Lemma same_lift {A} (r : result A) : same_on_ledger (lift r) (lift r).
Proof. intros w1 w2 Hw. split; [reflexivity | exact Hw]. Qed.

Lemma same_bind {A B} (m1 m2 : M A) (k1 k2 : A -> M B) :
  same_on_ledger m1 m2 ->
  (forall a, same_on_ledger (k1 a) (k2 a)) ->
  same_on_ledger (bind m1 k1) (bind m2 k2).
Proof.
  intros Hm Hk w1 w2 Hw. unfold bind.
  destruct (Hm w1 w2 Hw) as [Hf Hl].
  destruct (m1 w1) as [[a|e] w1'], (m2 w2) as [[a'|e'] w2']; cbn in Hf, Hl;
    inversion Hf; subst.
  - now apply Hk.
  - split; [reflexivity | exact Hl].
Qed.

Lemma same_bind_silent {A A' B} (m1 : M A) (m2 : M A') (k1 k2 : M B) :
  ledger_silent m1 -> ledger_silent m2 ->
  same_on_ledger k1 k2 ->
  same_on_ledger (bind m1 (fun _ => k1)) (bind m2 (fun _ => k2)).
Proof.
  intros H1 H2 Hk w1 w2 [Hs Hf].
  destruct (H1 w1) as (a1 & w1' & E1 & Hs1 & Hf1).
  destruct (H2 w2) as (a2 & w2' & E2 & Hs2 & Hf2).
  rewrite (bind_ok _ _ _ _ _ E1), (bind_ok _ _ _ _ _ E2).
  apply Hk. split.
  - now rewrite Hs1, Hs2.
  - intros n. now rewrite Hf1, Hf2.
Qed.

Lemma same_try {A} (b1 b2 : M A) (h1 h2 : exn -> M A) :
  same_on_ledger b1 b2 ->
  (forall e, same_on_ledger (h1 e) (h2 e)) ->
  same_on_ledger (try_except b1 h1) (try_except b2 h2).
Proof.
  intros Hb Hh w1 w2 Hw. unfold try_except.
  destruct (Hb w1 w2 Hw) as [Hf Hl].
  destruct (b1 w1) as [[a|e] w1'], (b2 w2) as [[a'|e'] w2']; cbn in Hf, Hl;
    inversion Hf; subst.
  - split; [reflexivity | exact Hl].
  - now apply Hh.
Qed.

Lemma same_sheets_call {A} (op : world -> A * world) :
  (forall w1 w2, ledger_eq w1 w2 ->
                 fst (op w1) = fst (op w2)
                 /\ ledger_eq (snd (op w1)) (snd (op w2))) ->
  same_on_ledger (sheets_call op) (sheets_call op).
Proof.
  intros Hop w1 w2 [Hs Hf]. unfold sheets_call. rewrite <- (Hf 0).
  set (v1 := mkWorld (sheet w1) (fun n => sheets_faults w1 (S n))
                     (twilio_outcomes w1) (sent w1) (stdout w1)).
  set (v2 := mkWorld (sheet w2) (fun n => sheets_faults w2 (S n))
                     (twilio_outcomes w2) (sent w2) (stdout w2)).
  assert (Ht : ledger_eq v1 v2).
  { split; [exact Hs | intros n; apply (Hf (S n))]. }
  destruct (sheets_faults w1 0); cbn.
  - split; [reflexivity | exact Ht].
  - destruct (Hop v1 v2 Ht) as [Hr Hl].
    destruct (op v1) as [r1 u1], (op v2) as [r2 u2]. cbn in *.
    split; [now rewrite Hr | exact Hl].
Qed.

Lemma same_append_row (row : list string) :
  same_on_ledger (append_row row) (append_row row).
Proof.
  apply same_sheets_call. intros w1 w2 [Hs Hf]. cbn.
  split; [reflexivity|]. split; [cbn; now rewrite Hs | exact Hf].
Qed.

Lemma same_get_sheet : same_on_ledger get_sheet get_sheet.
Proof.
  unfold get_sheet. apply same_bind.
  - apply same_sheets_call. intros w1 w2 Hw. now split.
  - intros _. apply same_bind.
    + apply same_sheets_call. intros w1 w2 [Hs Hf]. cbn.
      split; [exact Hs | now split].
    + intros [|r rows]; [apply same_append_row | apply same_ret].
Qed.

Lemma send_whatsapp_silent (c : config) (to_number name : string)
    (seat : pyint) (et : string) :
  ledger_silent (send_whatsapp_template_concert json_dumps c to_number name
                                                seat et).
Proof.
  intros w.
  destruct (send_whatsapp_safe json_dumps c to_number name seat et w)
    as (r & w' & E & Hs & Hf & _).
  now exists r, w'.
Qed.

Lemma same_submit_rows (cfg' : config) (ts et et' : string)
    (rows : list BookingRow) :
  forall acc,
    same_on_ledger (submit_rows json_dumps cfg ts et rows acc)
                   (submit_rows json_dumps cfg' ts et' rows acc).
Proof.
  induction rows as [|[[[uc nm] mb] seat] rest IH]; intros acc.
  - apply same_ret.
  - cbn [submit_rows]. apply same_bind; [apply same_append_row|].
    intros _. apply same_bind_silent; try apply send_whatsapp_silent.
    apply IH.
Qed.

Lemma same_submit_booking (cfg' : config) (ts : string) (b : pyval)
    (acc : list pyint) :
  same_on_ledger (submit_booking py_repr json_dumps cfg ts b acc)
                 (submit_booking py_repr json_dumps cfg' ts b acc).
Proof.
  intros w1 w2 Hw. rewrite !submit_booking_validate.
  destruct (validate_booking py_repr b) as [[r|rows]|e];
    try (split; [reflexivity | exact Hw]).
  destruct (same_submit_rows cfg' ts (event_time cfg) (event_time cfg')
              rows acc w1 w2 Hw) as [Hf Hl].
  destruct (submit_rows json_dumps cfg ts (event_time cfg) rows acc w1)
    as [[a1|e1] v1],
      (submit_rows json_dumps cfg' ts (event_time cfg') rows acc w2)
        as [[a2|e2] v2];
    cbn in Hf, Hl; inversion Hf; subst; now split.
Qed.

Lemma same_submit_bookings (cfg' : config) (ts : string) (bs : list pyval) :
  forall acc,
    same_on_ledger (submit_bookings py_repr json_dumps cfg ts bs acc)
                   (submit_bookings py_repr json_dumps cfg' ts bs acc).
Proof.
  induction bs as [|b bs IH]; intros acc; [apply same_ret|].
  cbn [submit_bookings]. apply same_bind; [apply same_submit_booking|].
  intros [r|acc']; [apply same_ret | apply IH].
Qed.

Lemma same_submit (cfg' : config) (json : pyval) :
  now cfg' = now cfg ->
  same_on_ledger (submit py_repr json_dumps cfg json)
                 (submit py_repr json_dumps cfg' json).
Proof.
  intros Hnow. unfold submit. rewrite Hnow.
  apply same_bind; [apply same_get_sheet|]. intros _.
  apply same_try; [|intros e; apply same_ret].
  apply same_bind; [apply same_lift|]. intros items.
  apply same_bind; [apply same_submit_bookings|].
  intros [r|acc]; apply same_ret.
Qed.

(** C6.  The notification never raises and never touches the ledger, and it
    returns [None] when a credential is missing or the messaging client
    raises.  Whatever the credentials and whatever the client does, a
    request whose bookings all pass the validation is answered with the 200
    confirmation of all its seats and leaves one row per seat in the ledger
    (the spreadsheet client not failing).  And for every request, the
    response and the ledger are the same under any other credentials and
    any other behaviour of the messaging client. *)
Theorem notification_failure_never_fails_booking :
  (forall (to_number name : string) (seat : pyint) (et : string) (w : world),
      exists r w',
        send_whatsapp_template_concert json_dumps cfg to_number name seat et w
        = (Ok r, w')
        /\ sheet w' = sheet w
        /\ (credentials_present cfg = false
            \/ (exists msg, twilio_outcomes w 0 = inl msg) -> r = None))
  /\ (forall (json : pyval) (w : world) (items : list pyval)
             (rowss : list (list BookingRow)),
         no_faults w ->
         py_iter (bookings_of (request_data json)) = Ok items ->
         Forall2 (fun b rows => validate_booking py_repr b = Ok (inr rows))
                 items rowss ->
         exists w',
           submit py_repr json_dumps cfg json w
           = (Ok (confirmation (map row_seat (List.concat rowss))), w')
           /\ status (confirmation (map row_seat (List.concat rowss))) = 200%Z
           /\ sheet w'
              = ledger_rows w ++ map (ledger_row (now cfg)) (List.concat rowss))
  /\ (forall (cfg' : config) (json : pyval) (w w' : world),
         now cfg' = now cfg ->
         ledger_eq w w' ->
         fst (submit py_repr json_dumps cfg json w)
         = fst (submit py_repr json_dumps cfg' json w')
         /\ sheet (snd (submit py_repr json_dumps cfg json w))
            = sheet (snd (submit py_repr json_dumps cfg' json w'))).
Proof.
  split; [|split].
  - intros to_number name seat et w.
    destruct (send_whatsapp_safe json_dumps cfg to_number name seat et w)
      as (r & w' & E & Hs & _ & Hc & Ht).
    exists r, w'. repeat split; try assumption.
    intros [H | H]; auto.
  - intros json w items rowss Hw Hi Hv.
    destruct (get_sheet_ok w Hw) as (w1 & E1 & Hs1 & Hf1 & _).
    destruct (submit_bookings_ok py_repr json_dumps cfg (now cfg) items rowss
                Hv [] w1 Hf1) as (w2 & E2 & Hs2 & _).
    exists w2.
    rewrite (submit_opened py_repr json_dumps cfg json items w w1 E1 Hi), E2.
    cbn [app]. rewrite Hs2, Hs1. repeat split.
  - intros cfg' json w w' Hnow Hw.
    destruct (same_submit cfg' json Hnow w w' Hw) as [Hf [Hs _]].
    now split.
Qed.

End NotificationIndependence.

(** ** Occupied seats *)

Section BookedSeats.

Variable py_repr : pyval -> string.

Lemma flat_map_nested {A B C} (f : A -> list B) (g : B -> list C)
    (l : list A) :
  flat_map g (flat_map f l) = flat_map (fun x => flat_map g (f x)) l.
Proof.
  induction l as [|x l IH]; [reflexivity|].
  cbn [flat_map]. now rewrite flat_map_app, IH.
Qed.

Lemma isdigit_of_digits (t : string) :
  negb (is_empty t) && forallb_str is_digit t = true -> isdigit t = true.
Proof.
  unfold isdigit. intros H. apply andb_true_iff in H. destruct H as [Hne Hd].
  rewrite Hne. cbn [andb]. clear Hne.
  induction t as [|c t IH]; [reflexivity|]. simpl in *.
  apply andb_true_iff in Hd. destruct Hd as [Hc Ht].
  now rewrite (digit_isdigit_char c Hc), IH.
Qed.

Lemma isdigit_char_not_underscore (c : ascii) :
  isdigit_char c = true -> is_digit c = false -> Ascii.eqb c "_" = false.
Proof. by_char c. Qed.

Lemma isdigit_char_not_space (c : ascii) :
  isdigit_char c = true -> is_space c = false.
Proof. by_char c. Qed.

Lemma isdigit_char_not_sign (c : ascii) (s : string) :
  isdigit_char c = true -> split_sign (String c s) = (false, String c s).
Proof. unfold split_sign. by_char c. Qed.

(** Of the strings [isdigit] accepts, [int] reads those made of decimal
    digits only. *)
Lemma int_literal_isdigit (t : string) :
  forallb_str isdigit_char t = true ->
  forall b d, int_literal b t = Some d -> digits_only t.
Proof.
  unfold digits_only. induction t as [|c t IH]; cbn; intros H b d Hd;
    [reflexivity|].
  apply andb_true_iff in H. destruct H as [Hc Ht].
  destruct (is_digit c) eqn:E.
  - cbn. destruct (int_literal true t) as [d'|] eqn:L; [|discriminate].
    now apply (IH Ht true d').
  - rewrite (isdigit_char_not_underscore c Hc E) in Hd. discriminate.
Qed.

Lemma strip_isdigit (t : string) :
  forallb_str isdigit_char t = true -> strip t = t.
Proof.
  intros H. unfold strip.
  assert (Hns : forallb_str (fun c => negb (is_space c)) t = true).
  { induction t as [|c t IH]; [reflexivity|]. cbn in *.
    apply andb_true_iff in H. destruct H as [Hc Ht].
    rewrite (isdigit_char_not_space c Hc). cbn. now apply IH. }
  assert (Hl : lstrip t = t).
  { destruct t as [|c t]; [reflexivity|]. cbn in *.
    apply andb_true_iff in H. destruct H as [Hc _].
    now rewrite (isdigit_char_not_space c Hc). }
  rewrite Hl. now apply rstrip_no_space.
Qed.

Lemma py_int_ok_parse (s : string) (z : Z) :
  py_int py_repr s = Ok z -> parse_int s = Some z.
Proof.
  unfold py_int. destruct (split_sign (strip s)) as [neg body].
  destruct (starts_with_underscore body); [discriminate|].
  destruct (scan_digits false 0 body) as [n|]; [|discriminate].
  destruct (int_max_str_digits <? n)%N; [discriminate|].
  destruct (parse_int s); [congruence | discriminate].
Qed.

Lemma py_int_isdigit (t : string) (z : Z) :
  isdigit t = true -> py_int py_repr t = Ok z ->
  digits_only t /\ within_int_limit t.
Proof.
  intros H Hz.
  assert (Hd : digits_only t /\ t <> EmptyString).
  { pose proof (py_int_ok_parse t z Hz) as Hp. revert H Hp.
    unfold isdigit, parse_int. intros H Hp.
    apply andb_true_iff in H. destruct H as [Hne Hd].
    rewrite (strip_isdigit t Hd) in Hp.
    destruct t as [|c t]; [discriminate|].
    assert (Hc : isdigit_char c = true).
    { cbn in Hd. now apply andb_true_iff in Hd. }
    rewrite (isdigit_char_not_sign c t Hc) in Hp.
    destruct (int_literal false (String c t)) as [d|] eqn:L; [|discriminate].
    split; [now apply (int_literal_isdigit _ Hd false d) | discriminate]. }
  split; [apply Hd | now apply (py_int_run_ok py_repr t z Hd)].
Qed.

(** The comprehension of [booked_seats] over fragments that [int] reads. *)
Lemma booked_comprehension (fragments : list string) :
  Forall readable_fragment fragments ->
  mapM (fun s => py_int py_repr (strip s))
       (filter (fun s => isdigit (strip s)) fragments)
  = Ok (flat_map digit_group_value fragments).
Proof.
  induction 1 as [|s l Hs _ IH]; [reflexivity|].
  cbn [filter flat_map]. unfold digit_group_value at 1.
  destruct (isdigit (strip s)) eqn:E.
  - destruct (Hs E) as [Hd Hl]. cbn [mapM]. rewrite IH.
    assert (Hne : strip s <> EmptyString).
    { unfold isdigit in E. destruct (strip s); [discriminate | discriminate]. }
    rewrite (py_int_run py_repr _ (conj Hd Hne) Hl). unfold run_value.
    destruct (uint_of_string_digits _ Hd) as [d Hu]. rewrite Hu.
    unfold digits_only in Hd. rewrite Hd.
    destruct (strip s); [congruence | reflexivity].
  - rewrite IH.
    destruct (negb (is_empty (strip s)) && forallb_str is_digit (strip s))
      eqn:D; [|reflexivity].
    rewrite (isdigit_of_digits _ D) in E. discriminate.
Qed.

(** When the comprehension returns, [int] has read every fragment. *)
Lemma booked_comprehension_readable (fragments : list string) (booked : list Z) :
  mapM (fun s => py_int py_repr (strip s))
       (filter (fun s => isdigit (strip s)) fragments)
  = Ok booked ->
  Forall readable_fragment fragments.
Proof.
  revert booked. induction fragments as [|s l IH]; intros booked H;
    [constructor|].
  cbn [filter] in H. destruct (isdigit (strip s)) eqn:E.
  - cbn [mapM] in H.
    destruct (py_int py_repr (strip s)) as [z|] eqn:Z; [|discriminate].
    destruct (mapM _ (filter _ l)) as [zs|] eqn:R; [|discriminate].
    constructor; [|now apply (IH zs)].
    intros _. now apply (py_int_isdigit _ z).
  - constructor; [|now apply (IH booked)].
    unfold readable_fragment. rewrite E. discriminate.
Qed.

(** C9, as amended.  [GET /booked-seats] never raises and always answers
    200.  Its body is either the list of booked seats, which then holds,
    cell by cell and in order, the number of every comma-separated group of
    digits of the seat column below the header and nothing for any other
    fragment, or an empty list with an error message.  When reading the
    ledger raises, the answer is the empty list with the message of the
    exception; when the ledger is read and every fragment that [isdigit]
    accepts is made of at most 4300 decimal digits, the answer is the
    list. *)
Theorem booked_seats_always_200 :
  forall w : world,
    (exists resp,
        fst (booked_seats py_repr w) = Ok resp
        /\ status resp = 200%Z
        /\ (body resp
            = [("booked",
                PList (map PInt (flat_map cell_seats (seat_cells w))))]
            \/ (exists msg, body resp = [("booked", PList []);
                                         ("error", PStr msg)])))
    /\ (forall e,
           fst ((get_sheet ;; col_values 5) w) = Raise e ->
           fst (booked_seats py_repr w)
           = Ok (jsonify [("booked", PList []); ("error", PStr (exn_str e))]
                         200))
    /\ (forall column,
           fst ((get_sheet ;; col_values 5) w) = Ok column ->
           Forall readable_fragment (flat_map (split ",") (seat_cells w)) ->
           fst (booked_seats py_repr w)
           = Ok (jsonify [("booked",
                           PList (map PInt
                                      (flat_map cell_seats (seat_cells w))))]
                         200)).
Proof.
  intros w. unfold booked_seats, try_except, bind.
  destruct (get_sheet w) as [[[]|e1] w1] eqn:G.
  2:{ cbn. repeat split.
      - eexists. repeat split. right. now eexists.
      - intros e H. inversion H. reflexivity.
      - intros column H _. discriminate H. }
  pose proof (get_sheet_rows w w1 G) as Hs.
  destruct (col_values 5 w1) as [[column|e2] w2] eqn:C.
  2:{ cbn. repeat split.
      - eexists. repeat split. right. now eexists.
      - intros e H. inversion H. reflexivity.
      - intros column H _. discriminate H. }
  pose proof (col_values_ok 5 w1 w2 column C) as Hc. cbn in Hc.
  rewrite Hs in Hc. subst column. fold (seat_cells w).
  unfold lift.
  destruct (mapM _ (filter _ (flat_map (split ",") (seat_cells w))))
    as [booked|e3] eqn:B; cbn.
  - pose proof (booked_comprehension_readable _ _ B) as Hplain.
    rewrite (booked_comprehension _ Hplain) in B. inversion B.
    unfold cell_seats. rewrite flat_map_nested. repeat split.
    + eexists. repeat split. now left.
    + intros e H. discriminate.
  - repeat split.
    + eexists. repeat split. right. now eexists.
    + intros e H. discriminate.
    + intros column' _ Hplain. rewrite (booked_comprehension _ Hplain) in B.
      discriminate.
Qed.

End BookedSeats.

(** ** Clearing the sheet *)

Section ClearSheet.

Variable cfg : config.

Lemma clear_attempt_status (w : world) :
  exists resp, fst (clear_attempt w) = Ok resp /\ status resp = 200%Z.
Proof.
  unfold clear_attempt, try_except, bind.
  destruct (clear_google_sheet_values w) as [[msg|e] w']; cbn;
    eexists; split; reflexivity.
Qed.

Lemma clear_attempt_ok (w : world) :
  no_faults w ->
  fst (clear_attempt w)
  = Ok (jsonify [("ok", PBool true); ("message", PStr "Sheet cleared")] 200)
  /\ sheet (snd (clear_attempt w)) = firstn 1 (ledger_rows w).
Proof.
  intros Hw.
  destruct (get_sheet_ok w Hw) as (w1 & E & Hs & Hf & _).
  assert (Hb : exists w2, batch_clear_below_header w1 = (Ok tt, w2)
                          /\ sheet w2 = firstn 1 (sheet w1)).
  { unfold batch_clear_below_header, sheets_call. rewrite (Hf 0).
    eexists. split; reflexivity. }
  destruct Hb as (w2 & Eb & Hs2).
  assert (Hc : clear_google_sheet_values w = (Ok "Sheet cleared", w2)).
  { unfold clear_google_sheet_values.
    rewrite (bind_ok _ _ _ _ _ E), (bind_ok _ _ _ _ _ Eb). reflexivity. }
  unfold clear_attempt, try_except. rewrite (bind_ok _ _ _ _ _ Hc).
  cbn. now rewrite Hs2, Hs.
Qed.

(** C10.  Without a configured token (unset or empty) the route is the
    clearing itself, whatever the header: it never answers 401, and when
    the spreadsheet client does not fail nothing is left below the first
    row.  A 401 is answered exactly when a non-empty token is configured and
    the header is absent or differs from it. *)
Theorem clear_sheet_unguarded_without_token :
  forall (header : option string) (w : world),
    (CLEAR_TOKEN cfg = None \/ CLEAR_TOKEN cfg = Some EmptyString ->
     clear_sheet_route cfg header w = clear_attempt w
     /\ (exists resp, fst (clear_sheet_route cfg header w) = Ok resp
                      /\ status resp = 200%Z)
     /\ (no_faults w ->
         fst (clear_sheet_route cfg header w)
         = Ok (jsonify [("ok", PBool true); ("message", PStr "Sheet cleared")]
                       200)
         /\ sheet (snd (clear_sheet_route cfg header w))
            = firstn 1 (ledger_rows w)))
    /\ (forall resp,
           fst (clear_sheet_route cfg header w) = Ok resp ->
           (status resp = 401%Z
            <-> exists token, CLEAR_TOKEN cfg = Some token
                              /\ token <> EmptyString
                              /\ header <> Some token)).
Proof.
  intros header w. split.
  - intros Hunset.
    assert (E : clear_sheet_route cfg header w = clear_attempt w).
    { unfold clear_sheet_route. now destruct Hunset as [-> | ->]. }
    rewrite E. split; [reflexivity|]. split.
    + apply clear_attempt_status.
    + apply clear_attempt_ok.
  - intros resp Hresp. unfold clear_sheet_route in Hresp.
    destruct (set_and_nonempty (CLEAR_TOKEN cfg)
              && negb (opt_string_eqb header (CLEAR_TOKEN cfg))) eqn:G.
    + cbn in Hresp. inversion Hresp; subst resp. cbn.
      split; [intros _ | reflexivity].
      apply andb_true_iff in G. destruct G as [Hset Hne].
      unfold set_and_nonempty in Hset.
      destruct (CLEAR_TOKEN cfg) as [token|]; [|discriminate].
      exists token. split; [reflexivity|]. split.
      * intros ->. discriminate.
      * intros ->. cbn in Hne. now rewrite String.eqb_refl in Hne.
    + fold clear_attempt in Hresp.
      destruct (clear_attempt_status w) as (resp' & Hr & Hst).
      rewrite Hr in Hresp. inversion Hresp; subst resp'.
      split; [intros H; rewrite Hst in H; discriminate|].
      intros (token & Ht & Hne & Hh). exfalso.
      rewrite Ht in G. cbn in G.
      destruct token as [|c token]; [congruence|]. cbn in G.
      apply negb_false_iff in G. destruct header as [h|]; [|discriminate].
      cbn in G. apply String.eqb_eq in G. congruence.
Qed.

End ClearSheet.

(** ** Instances of the theorems *)

Lemma notification_failure_never_fails_booking_witness :
  exists w',
    submit no_repr no_repr test_config e2e_booking (twilio_down [])
    = (Ok (confirmation [IntV 10; IntV 11]), w')
    /\ status (confirmation [IntV 10; IntV 11]) = 200%Z
    /\ sheet w'
       = [HEADER;
          ["2026-01-01 10:00:00"; "A1"; "Asha"; "9876543210"; "10"];
          ["2026-01-01 10:00:00"; "A1"; "Ravi"; "9988776655"; "11"]].
Proof.
  refine (proj1 (proj2 (notification_failure_never_fails_booking
                          no_repr no_repr test_config))
                e2e_booking (twilio_down []) [e2e_booking]
                [[("A1", "Asha", "9876543210", IntV 10);
                  ("A1", "Ravi", "9988776655", IntV 11)]] _ _ _).
  - intros n. reflexivity.
  - reflexivity.
  - repeat constructor.
Defined.

Lemma submit_rejects_out_of_range_seats_witness :
  submit no_repr no_repr test_config seat_106_booking (quiet_world [HEADER])
  = (Ok (jsonify [("ok", PBool false);
                  ("message", PStr "Invalid seats: [106]")] 400),
     snd (get_sheet (quiet_world [HEADER])))
  /\ sheet (snd (get_sheet (quiet_world [HEADER]))) = [HEADER].
Proof.
  split; [|reflexivity].
  assert (Hex : Exists (fun s => (int_val s < 1 \/ 105 < int_val s)%Z)
                       [IntV 5; IntV 106]).
  { apply Exists_cons_tl, Exists_cons_hd. right. cbn. lia. }
  destruct (submit_rejects_out_of_range_seats
              no_repr no_repr test_config seat_106_booking
              (quiet_world [HEADER])
              (snd (get_sheet (quiet_world [HEADER])))
              (snd (get_sheet (quiet_world [HEADER])))
              [] []
              [("user_code", PStr "B2"); ("name", PStr "Asha");
               ("mobile", PStr "9876543210");
               ("seats", PList [PInt 5; PInt 106])]
              [] [IntV 5; IntV 106]
              eq_refl eq_refl eq_refl eq_refl Hex)
    as (resp & E & _ & Hmsg & _).
  destruct (Hmsg ["9876543210"] eq_refl) as (_ & Hlist & _).
  rewrite E, Hlist; [reflexivity | discriminate | discriminate].
Defined.

(** C7 as stated fails: a booking without a name whose only seat is 106 is
    answered 400, but with the message about the required fields, which
    lists no seat. *)
Lemma submit_out_of_range_seat_without_name :
  let booking := PDict [("name", PStr EmptyString);
                        ("mobile", PStr "9876543210");
                        ("seats", PList [PInt 106])] in
  normalize_seats no_repr (PList [PInt 106]) = Ok [IntV 106]
  /\ seat_out_of_range (IntV 106) = true
  /\ fst (submit no_repr no_repr test_config booking (quiet_world [HEADER]))
     = Ok (jsonify [("ok", PBool false);
                    ("message", PStr "Name, Mobile, Seat required")] 400).
Proof. repeat split. Qed.

Lemma submit_no_rollback_witness :
  exists (resp : response) (rows : list BookingRow),
    submit no_repr no_repr test_config two_bookings (quiet_world [HEADER])
    = (Ok resp,
       snd (submit no_repr no_repr test_config
                   (PDict [("user_code", PStr "A1"); ("name", PStr "Asha");
                           ("mobile", PStr "9876543210");
                           ("seats", PList [PInt 10])])
                   (quiet_world [HEADER])))
    /\ rejection no_repr
         (PDict [("user_code", PStr "A2"); ("name", PStr "Ravi,Mina");
                 ("mobile", PStr "9988776655,9988776656,9988776657");
                 ("seats", PList [PInt 11; PInt 12; PInt 13])])
       = Some resp
    /\ (status resp = 400%Z \/ status resp = 500%Z)
    /\ sheet (snd (submit no_repr no_repr test_config
                          (PDict [("user_code", PStr "A1"); ("name", PStr "Asha");
                                  ("mobile", PStr "9876543210");
                                  ("seats", PList [PInt 10])])
                          (quiet_world [HEADER])))
       = sheet (snd (get_sheet (quiet_world [HEADER])))
         ++ map (ledger_row (now test_config)) rows
    /\ [IntV 10] = map row_seat rows.
Proof.
  refine (submit_no_rollback
            no_repr no_repr test_config two_bookings (quiet_world [HEADER])
            (snd (get_sheet (quiet_world [HEADER]))) _
            [PDict [("user_code", PStr "A1"); ("name", PStr "Asha");
                    ("mobile", PStr "9876543210"); ("seats", PList [PInt 10])]]
            []
            (PDict [("user_code", PStr "A2"); ("name", PStr "Ravi,Mina");
                    ("mobile", PStr "9988776655,9988776656,9988776657");
                    ("seats", PList [PInt 11; PInt 12; PInt 13])])
            [IntV 10] _ _ _ _).
  - reflexivity.
  - reflexivity.
  - reflexivity.
  - intros rows H. vm_compute in H. discriminate.
Defined.

Lemma booked_seats_always_200_witness :
  fst (booked_seats no_repr
         (quiet_world [HEADER; seat_row "5"; seat_row "7,8";
                       seat_row EmptyString]))
  = Ok (jsonify [("booked", PList [PInt 5; PInt 7; PInt 8])] 200).
Proof.
  refine (proj2 (proj2 (booked_seats_always_200 no_repr
                          (quiet_world [HEADER; seat_row "5"; seat_row "7,8";
                                        seat_row EmptyString]))) _ eq_refl _).
  cbn. repeat (apply Forall_cons || apply Forall_nil); intros H;
    first [discriminate H | split; [reflexivity | discriminate]].
Defined.

(** A superscript two in a seat cell passes [isdigit] and makes [int] raise:
    the ledger is read without a failure, and the route answers with the
    error and an empty list, seat 5 left out.  A group of 4301 digits does
    the same. *)
Lemma booked_seats_error_without_read_failure :
  let w := quiet_world [HEADER; seat_row "5";
                        seat_row (String (ascii_of_nat 178) EmptyString)] in
  let w' := quiet_world [HEADER; seat_row "5";
                         seat_row (str_of_Z (10 ^ 4300))] in
  (exists column, fst ((get_sheet ;; col_values 5) w) = Ok column)
  /\ flat_map cell_seats (seat_cells w) = [5%Z]
  /\ (exists msg,
        fst (booked_seats no_repr w)
        = Ok (jsonify [("booked", PList []); ("error", PStr msg)] 200))
  /\ (exists column, fst ((get_sheet ;; col_values 5) w') = Ok column)
  /\ (exists msg,
        fst (booked_seats no_repr w')
        = Ok (jsonify [("booked", PList []); ("error", PStr msg)] 200)).
Proof.
  cbv zeta. split; [eexists; vm_compute; reflexivity|].
  split; [vm_compute; reflexivity|].
  repeat split; eexists; vm_compute; reflexivity.
Qed.

Lemma clear_sheet_unguarded_without_token_witness :
  fst (clear_sheet_route test_config (Some "not-the-token")
         (quiet_world [HEADER; seat_row "5"; seat_row "7,8"]))
  = Ok (jsonify [("ok", PBool true); ("message", PStr "Sheet cleared")] 200)
  /\ sheet (snd (clear_sheet_route test_config (Some "not-the-token")
                   (quiet_world [HEADER; seat_row "5"; seat_row "7,8"])))
     = [HEADER].
Proof.
  refine (proj2 (proj2 (proj1 (clear_sheet_unguarded_without_token
                                 test_config (Some "not-the-token")
                                 (quiet_world [HEADER; seat_row "5";
                                               seat_row "7,8"]))
                              (or_introl eq_refl))) _).
  intros n. reflexivity.
Defined.

(** * Further properties of the code *)

(** ** More about strings *)

Lemma rstrip_idempotent (s : string) : rstrip (rstrip s) = rstrip s.
Proof.
  induction s as [|c s IH]; [reflexivity|]. cbn [rstrip].
  destruct (rstrip s) as [|x r] eqn:E.
  - destruct (is_space c) eqn:Sp; [reflexivity|]. cbn. now rewrite Sp.
  - change (rstrip (String c (String x r)))
      with (match rstrip (String x r) with
            | EmptyString =>
                if is_space c then EmptyString else String c EmptyString
            | String y r0 => String c (String y r0)
            end).
    now rewrite IH.
Qed.

Lemma lstrip_head (s : string) :
  match lstrip s with
  | EmptyString => True
  | String c _ => is_space c = false
  end.
Proof.
  induction s as [|c s IH]; [exact I|]. cbn.
  destruct (is_space c) eqn:Sp; [exact IH | exact Sp].
Qed.

Lemma lstrip_rstrip (t : string) :
  match t with
  | EmptyString => True
  | String c _ => is_space c = false
  end ->
  lstrip (rstrip t) = rstrip t.
Proof.
  destruct t as [|c t]; [reflexivity|]. intros Hc. cbn [rstrip].
  destruct (rstrip t); [rewrite Hc|]; cbn; now rewrite Hc.
Qed.

(** Stripping twice is stripping once. *)
Lemma strip_idempotent (s : string) : strip (strip s) = strip s.
Proof.
  unfold strip. rewrite (lstrip_rstrip (lstrip s) (lstrip_head s)).
  apply rstrip_idempotent.
Qed.

Lemma forallb_str_lstrip (p : ascii -> bool) (s : string) :
  forallb_str p s = true -> forallb_str p (lstrip s) = true.
Proof.
  induction s as [|c s IH]; [reflexivity|]. cbn. intros H.
  destruct (is_space c); [|exact H].
  apply andb_true_iff in H. now apply IH.
Qed.

Lemma forallb_str_rstrip (p : ascii -> bool) (s : string) :
  forallb_str p s = true -> forallb_str p (rstrip s) = true.
Proof.
  induction s as [|c s IH]; [reflexivity|]. cbn. intros H.
  apply andb_true_iff in H. destruct H as [Hc Hs]. specialize (IH Hs).
  destruct (rstrip s) as [|x r].
  - destruct (is_space c); [reflexivity|]. cbn. now rewrite Hc.
  - cbn in *. now rewrite Hc, IH.
Qed.

Lemma comma_free_forallb (s : string) :
  comma_free s <-> forallb_str (fun c => negb (Ascii.eqb "," c)) s = true.
Proof.
  unfold comma_free. induction s as [|c s IH]; cbn -[Ascii.eqb]; [tauto|].
  rewrite orb_false_iff, andb_true_iff, negb_true_iff, IH. reflexivity.
Qed.

Lemma comma_free_strip (s : string) : comma_free s -> comma_free (strip s).
Proof.
  rewrite !comma_free_forallb. intros H. unfold strip.
  now apply forallb_str_rstrip, forallb_str_lstrip.
Qed.

Lemma digits_comma_free (d : string) : digits_only d -> comma_free d.
Proof.
  unfold digits_only, comma_free. induction d as [|c d IH]; [reflexivity|].
  cbn. intros H. apply andb_true_iff in H. destruct H as [Hc Hd].
  rewrite (IH Hd), orb_false_r. revert Hc. by_char c.
Qed.

(** *** Splitting and joining *)

Lemma split_comma_free (s : string) : comma_free s -> split "," s = [s].
Proof.
  unfold comma_free. induction s as [|c s IH]; [reflexivity|].
  cbn -[Ascii.eqb]. intros H. apply orb_false_iff in H. destruct H as [Hc Hs].
  rewrite Ascii.eqb_sym, Hc, (IH Hs). reflexivity.
Qed.

Lemma split_append (d rest : string) :
  comma_free d ->
  split "," (d +++ String "," rest) = d :: split "," rest.
Proof.
  unfold comma_free. induction d as [|c d IH]; [reflexivity|].
  cbn -[Ascii.eqb]. intros H. apply orb_false_iff in H. destruct H as [Hc Hd].
  rewrite Ascii.eqb_sym, Hc, (IH Hd). reflexivity.
Qed.

(** Splitting what was joined gives the pieces back. *)
Lemma split_join (ds : list string) :
  Forall comma_free ds -> ds <> [] ->
  split "," (String.concat "," ds) = ds.
Proof.
  induction 1 as [|d ds Hd Hds IH]; intros Hne; [congruence|].
  destruct ds as [|d' ds].
  - cbn. now apply split_comma_free.
  - change (String.concat "," (d :: d' :: ds))
      with (d +++ String "," (String.concat "," (d' :: ds))).
    rewrite (split_append _ _ Hd), IH; [reflexivity | discriminate].
Qed.

Lemma split_pieces_comma_free (s : string) : Forall comma_free (split "," s).
Proof.
  induction s as [|c s IH]; [repeat constructor|]. cbn -[Ascii.eqb].
  destruct (Ascii.eqb c ",") eqn:E.
  - constructor; [reflexivity | exact IH].
  - destruct (split "," s) as [|p ps]; [repeat constructor|].
    + unfold comma_free. cbn -[Ascii.eqb]. now rewrite Ascii.eqb_sym, E.
    + inversion IH; subst. constructor; [|assumption].
      unfold comma_free in *. cbn -[Ascii.eqb].
      rewrite Ascii.eqb_sym, E. assumption.
Qed.

(** The test for a comma in [comma_parts] changes nothing: the parts are
    always the stripped pieces between the commas. *)
Lemma comma_parts_split (s : string) :
  comma_parts s = map strip (split "," s).
Proof.
  unfold comma_parts. destruct (existsb_str (Ascii.eqb ",") s) eqn:E;
    [reflexivity|].
  now rewrite (split_comma_free s E).
Qed.

(** ** The destination formatter, further *)


(** X2.  A number written with ten digits and the same number written with
    the country prefix 91 in front go to the same destination, whatever
    else (spaces, dashes, a plus sign) the two inputs contain, and neither
    prints a warning. *)
Theorem format_wa_to_country_prefix :
  forall (a b : string) (w w' : world),
    String.length (filter_str is_digit b) = 10 ->
    filter_str is_digit a = "91" +++ filter_str is_digit b ->
    fst (_format_wa_to a w) = Ok ("whatsapp:+91" +++ filter_str is_digit b)
    /\ fst (_format_wa_to b w') = Ok ("whatsapp:+91" +++ filter_str is_digit b)
    /\ stdout (snd (_format_wa_to a w)) = stdout w
    /\ stdout (snd (_format_wa_to b w')) = stdout w'.
Proof.
  intros a b w w' Hlen Ha. unfold _format_wa_to.
  rewrite !sub_nondigits_filter, Ha.
  assert (H12 : String.length ("91" +++ filter_str is_digit b) = 12).
  { cbn. now rewrite Hlen. }
  assert (Hp : prefix "91" ("91" +++ filter_str is_digit b) = true).
  { apply prefix_correct. cbn. now destruct (filter_str is_digit b). }
  rewrite Hp, H12, Hlen.
  destruct (prefix "91" (filter_str is_digit b)); cbn; repeat split.
Qed.

Lemma format_wa_to_country_prefix_witness :
  fst (_format_wa_to "+91 98765 43210" (quiet_world []))
  = Ok "whatsapp:+919876543210"
  /\ fst (_format_wa_to "98765-43210" (quiet_world []))
     = Ok "whatsapp:+919876543210".
Proof.
  pose proof (format_wa_to_country_prefix
                "+91 98765 43210" "98765-43210" (quiet_world [])
                (quiet_world []) eq_refl eq_refl) as H.
  split; [exact (proj1 H) | exact (proj1 (proj2 H))].
Defined.

(** ** The QR route *)





(** ** The input normaliser, further *)

Lemma mapM_Forall_out {A B} (f : A -> result B) (P : B -> Prop) (l : list A) :
  (forall x y, f x = Ok y -> P y) ->
  forall ys, mapM f l = Ok ys -> Forall P ys.
Proof.
  intros Hf. induction l as [|x xs IH]; intros ys H; cbn in H.
  - inversion H. constructor.
  - destruct (f x) as [y|] eqn:E; [|discriminate].
    destruct (mapM f xs) as [ys'|]; [|discriminate].
    inversion H; subst. constructor; [now apply (Hf x) | now apply IH].
Qed.

Lemma mapM_app {A B} (f : A -> result B) (l1 l2 : list A) :
  mapM f (l1 ++ l2) =
  let! ys1 := mapM f l1 in let! ys2 := mapM f l2 in Ok (ys1 ++ ys2).
Proof.
  induction l1 as [|x xs IH]; cbn.
  - destruct (mapM f l2); reflexivity.
  - destruct (f x); cbn; [|reflexivity]. rewrite IH.
    destruct (mapM f xs); cbn; [|reflexivity].
    destruct (mapM f l2); reflexivity.
Qed.

Lemma mapM_id_on {A} (f : A -> result A) (l : list A) :
  Forall (fun x => f x = Ok x) l -> mapM f l = Ok l.
Proof.
  induction 1 as [|x xs Hx _ IH]; [reflexivity|]. cbn.
  now rewrite Hx, IH.
Qed.

Lemma filter_id_on {A} (p : A -> bool) (l : list A) :
  Forall (fun x => p x = true) l -> filter p l = l.
Proof.
  induction 1 as [|x xs Hx _ IH]; [reflexivity|]. cbn.
  now rewrite Hx, IH.
Qed.

Lemma map_id_on {A} (f : A -> A) (l : list A) :
  Forall (fun x => f x = x) l -> map f l = l.
Proof.
  induction 1 as [|x xs Hx _ IH]; [reflexivity|]. cbn.
  now rewrite Hx, IH.
Qed.

Lemma nonempty_is_empty (s : string) :
  s <> EmptyString <-> negb (is_empty s) = true.
Proof. destruct s; cbn; split; congruence. Qed.

Lemma only_digits_out (v : pyval) (t : string) :
  only_digits v = Ok t -> digits_only t.
Proof.
  unfold only_digits.
  destruct (if truthy v then v else PStr EmptyString); try discriminate.
  intros H. inversion H. rewrite concat_findall. apply filter_str_digits.
Qed.

Lemma normalize_mobile_digits (mobile : pyval) (l : list string) :
  normalize_mobile_to_list mobile = Ok l ->
  Forall (fun m => digits_only m /\ m <> EmptyString) l.
Proof.
  revert mobile l. intros mobile l. unfold normalize_mobile_to_list.
  assert (Hout : forall out,
             Forall digits_only out ->
             Forall (fun m => digits_only m /\ m <> EmptyString)
                    (filter (fun m => negb (is_empty m)) out)).
  { intros out Hd. apply Forall_forall. intros m Hin.
    apply filter_In in Hin. destruct Hin as [Hin Hne].
    rewrite Forall_forall in Hd. split; [now apply Hd|].
    now apply nonempty_is_empty. }
  destruct mobile; cbn [rbind]; intros H; inversion H; subst;
    try constructor.
  - destruct (mapM _ (comma_parts s)) as [out|] eqn:E; [|discriminate].
    inversion H; subst. apply Hout.
    apply (mapM_Forall_out _ _ _ (fun p => only_digits_out (PStr p)) _ E).
  - destruct (mapM only_digits l0) as [out|] eqn:E; [|discriminate].
    inversion H; subst. apply Hout.
    apply (mapM_Forall_out _ _ _ only_digits_out _ E).
Qed.

(** X4.  Whenever [normalize_mobile_to_list] returns, every mobile in the
    list is a non-empty string of decimal digits, whatever the shape of the
    input and whatever it held besides digits. *)
Theorem normalize_mobile_gives_digit_strings :
  forall (mobile : pyval) (l : list string),
    normalize_mobile_to_list mobile = Ok l ->
    Forall (fun m => digits_only m /\ m <> EmptyString) l.
Proof. exact normalize_mobile_digits. Qed.

Lemma normalize_mobile_gives_digit_strings_witness :
  Forall (fun m => digits_only m /\ m <> EmptyString)
         ["9876543210"; "919988776655"].
Proof.
  exact (normalize_mobile_gives_digit_strings
           (PStr " 98765-43210 , +91 99887 76655,,")
           ["9876543210"; "919988776655"] eq_refl).
Defined.

(** X5.  For every list of non-empty digit strings, the comma-joined string
    of the mobiles and the list of the mobiles both normalise to that list,
    in order: the two shapes a client may send give the same mobiles. *)
Theorem normalize_mobile_same_for_both_shapes :
  forall ds : list string,
    Forall (fun d => digits_only d /\ d <> EmptyString) ds ->
    normalize_mobile_to_list (PStr (String.concat "," ds)) = Ok ds
    /\ normalize_mobile_to_list (PList (map PStr ds)) = Ok ds.
Proof.
  intros ds H.
  assert (Hod : Forall (fun d => only_digits (PStr d) = Ok d) ds).
  { eapply Forall_impl; [|exact H]. intros d [Hd _].
    rewrite only_digits_string. f_equal. now apply filter_str_id. }
  assert (Hne : Forall (fun d => negb (is_empty d) = true) ds).
  { eapply Forall_impl; [|exact H]. intros d [_ Hn].
    now apply nonempty_is_empty. }
  unfold normalize_mobile_to_list. split.
  - destruct ds as [|d ds]; [reflexivity|].
    rewrite comma_parts_split, split_join; [| |discriminate].
    + rewrite map_id_on.
      * rewrite (mapM_id_on _ _ Hod). cbn [rbind].
        now rewrite (filter_id_on _ _ Hne).
      * eapply Forall_impl; [|exact H]. intros x [Hx _].
        now apply strip_digits.
    + eapply Forall_impl; [|exact H]. intros x [Hx _].
      now apply digits_comma_free.
  - rewrite mapM_map, (mapM_id_on _ _ Hod). cbn [rbind].
    now rewrite (filter_id_on _ _ Hne).
Qed.

Lemma normalize_mobile_same_for_both_shapes_witness :
  normalize_mobile_to_list (PStr "9876543210,9988776655")
  = Ok ["9876543210"; "9988776655"]
  /\ normalize_mobile_to_list (PList [PStr "9876543210"; PStr "9988776655"])
     = Ok ["9876543210"; "9988776655"].
Proof.
  apply (normalize_mobile_same_for_both_shapes ["9876543210"; "9988776655"]).
  repeat constructor; discriminate.
Defined.

Section NormalizerFurther.

Variable py_repr : pyval -> string.

(** X6.  Every name that [normalize_names_to_list] returns is non-empty and
    has no white space at either end, whatever the input; and a name taken
    from a string holds no comma. *)
Theorem normalize_names_gives_clean_names :
  forall (name : pyval) (s : string),
    Forall (fun n => n <> EmptyString /\ strip n = n)
           (normalize_names_to_list py_repr name)
    /\ Forall comma_free (normalize_names_to_list py_repr (PStr s)).
Proof.
  intros name s. split.
  - destruct name; cbn; try constructor.
    + rewrite comma_parts_split. apply Forall_forall. intros n Hin.
      apply filter_In in Hin. destruct Hin as [Hin Hne].
      apply in_map_iff in Hin. destruct Hin as (p & <- & _).
      split; [now apply nonempty_is_empty | apply strip_idempotent].
    + apply Forall_forall. intros n Hin.
      apply in_map_iff in Hin. destruct Hin as (v & <- & Hv).
      apply filter_In in Hv. destruct Hv as [_ Hne].
      split; [now apply nonempty_is_empty | apply strip_idempotent].
  - cbn. rewrite comma_parts_split.
    apply Forall_forall. intros n Hin.
    apply filter_In in Hin. destruct Hin as [Hin _].
    apply in_map_iff in Hin. destruct Hin as (p & <- & Hp).
    apply comma_free_strip.
    pose proof (split_pieces_comma_free s) as Hall.
    rewrite Forall_forall in Hall. now apply Hall.
Qed.

(** X7.  For every list of names that are non-empty, without white space at
    either end and without a comma, the comma-joined string of the names and
    the list of the names both normalise to that list, in order. *)
Theorem normalize_names_same_for_both_shapes :
  forall names : list string,
    Forall (fun n => n <> EmptyString /\ strip n = n /\ comma_free n) names ->
    normalize_names_to_list py_repr (PStr (String.concat "," names)) = names
    /\ normalize_names_to_list py_repr (PList (map PStr names)) = names.
Proof.
  intros names H.
  assert (Hne : Forall (fun n => negb (is_empty n) = true) names).
  { eapply Forall_impl; [|exact H]. intros n (Hn & _).
    now apply nonempty_is_empty. }
  assert (Hst : Forall (fun n => strip n = n) names).
  { eapply Forall_impl; [|exact H]. now intros n (_ & Hs & _). }
  split; cbn [normalize_names_to_list].
  - destruct names as [|n names]; [reflexivity|].
    rewrite comma_parts_split, split_join; [| |discriminate].
    + now rewrite (map_id_on _ _ Hst), (filter_id_on _ _ Hne).
    + eapply Forall_impl; [|exact H]. now intros x (_ & _ & Hc).
  - assert (Hf : filter (fun n => negb (is_empty (strip (py_str py_repr n))))
                        (map PStr names) = map PStr names).
    { apply filter_id_on. apply Forall_map.
      apply Forall_forall. intros n Hin. cbn [py_str].
      rewrite Forall_forall in Hst, Hne. rewrite (Hst n Hin).
      now apply Hne. }
    rewrite Hf, map_map. cbn [py_str]. now apply map_id_on.
Qed.

(** Every number that [int] reads off a run of digits is at least zero. *)
Lemma py_int_run_nonneg (r : string) (z : Z) :
  digits_only r /\ r <> EmptyString ->
  py_int py_repr r = Ok z -> (0 <= z)%Z.
Proof.
  intros Hr H. destruct (py_int_run_ok py_repr r z Hr H) as [_ ->].
  unfold run_value. destruct (NilEmpty.uint_of_string r); [|lia].
  apply N2Z.is_nonneg.
Qed.

Lemma extract_ints_nonneg (s : string) (zs : list Z) :
  extract_ints_from_string py_repr s = Ok zs -> Forall (fun z => (0 <= z)%Z) zs.
Proof.
  unfold extract_ints_from_string. intros H.
  pose proof (findall_digits_runs s) as Hruns.
  revert zs H. induction Hruns as [|r rs Hr _ IH]; intros zs H; cbn in H.
  - inversion H. constructor.
  - destruct (py_int py_repr r) as [z|] eqn:E; [|discriminate].
    destruct (mapM (py_int py_repr) rs) as [zs'|]; [|discriminate].
    inversion H; subst. constructor; [|now apply IH].
    now apply (py_int_run_nonneg r).
Qed.

(** The only exception of [extract_ints_from_string] is the [ValueError] of
    [int] on a run that is too long. *)
Lemma extract_ints_raises (s : string) (e : exn) :
  extract_ints_from_string py_repr s = Raise e -> exists msg, e = ValueError msg.
Proof.
  unfold extract_ints_from_string.
  pose proof (findall_digits_runs s) as Hruns.
  induction Hruns as [|r rs Hr _ IH]; intros H; cbn in H; [discriminate|].
  destruct (py_int py_repr r) as [z|e0] eqn:E.
  - destruct (mapM (py_int py_repr) rs) as [zs'|e1]; [discriminate|].
    cbn in H. inversion H; subst. now apply IH.
  - cbn in H. inversion H; subst.
    destruct (N.leb_spec (N.of_nat (String.length r)) int_max_str_digits)
      as [Hle|Hgt].
    + rewrite (py_int_run py_repr r Hr Hle) in E. discriminate.
    + destruct (py_int_run_long py_repr r Hr) as [msg Hm];
        [unfold within_int_limit; lia|].
      exists msg. congruence.
Qed.

(** X8.  A seats field given as a string normalises when none of its digit
    runs is longer than the cap of [int], and only then; it normalises to
    integers that are at least zero, a minus sign in front of a number being
    skipped like any other separator; and the only exception it raises is
    the [ValueError] of [int]. *)
Theorem normalize_seats_string_nonnegative :
  forall s : string,
    (Forall within_int_limit (findall_digits s) ->
     exists zs,
       normalize_seats py_repr (PStr s) = Ok (map IntV zs)
       /\ Forall (fun z => (0 <= z)%Z) zs)
    /\ (forall l,
          normalize_seats py_repr (PStr s) = Ok l ->
          Forall within_int_limit (findall_digits s))
    /\ (forall e,
          normalize_seats py_repr (PStr s) = Raise e ->
          exists msg, e = ValueError msg).
Proof.
  intros s. cbn [normalize_seats]. repeat split.
  - intros H. rewrite (extract_ints_runs py_repr s H).
    exists (map run_value (findall_digits s)). split; [reflexivity|].
    now apply (extract_ints_nonneg s), extract_ints_runs.
  - intros l H.
    destruct (extract_ints_from_string py_repr s) as [zs|] eqn:E;
      [|discriminate].
    now apply (extract_ints_ok py_repr s zs).
  - intros e H.
    destruct (extract_ints_from_string py_repr s) as [zs|e0] eqn:E;
      [discriminate|].
    cbn in H. inversion H; subst. now apply (extract_ints_raises s).
Qed.

Lemma findall_digits_from_sep (a b : string) (c : ascii) :
  is_digit c = false ->
  forall run,
    findall_digits_from run (a +++ String c b)
    = findall_digits_from run a ++ findall_digits b.
Proof.
  intros Hc. induction a as [|x a IH]; intros run; cbn.
  - now rewrite Hc.
  - destruct (is_digit x); [apply IH|].
    now rewrite IH, app_assoc.
Qed.

Lemma extract_ints_sep (a b : string) (c : ascii) :
  is_digit c = false ->
  extract_ints_from_string py_repr (a +++ String c b)
  = let! xs := extract_ints_from_string py_repr a in
    let! ys := extract_ints_from_string py_repr b in
    Ok (xs ++ ys).
Proof.
  intros Hc. unfold extract_ints_from_string, findall_digits.
  rewrite (findall_digits_from_sep a b c Hc). apply mapM_app.
Qed.

Lemma normalize_seats_items_acc (items : list pyval) :
  forall res,
    normalize_seats_items py_repr items res
    = let! r := normalize_seats_items py_repr items [] in Ok (res ++ r).
Proof.
  induction items as [|item rest IH]; intros res; cbn.
  - now rewrite app_nil_r.
  - destruct item; try apply IH.
    + rewrite (IH (res ++ [BoolV b])), (IH [BoolV b]).
      destruct (normalize_seats_items py_repr rest []); cbn;
        [now rewrite <- app_assoc | reflexivity].
    + rewrite (IH (res ++ [IntV z])), (IH [IntV z]).
      destruct (normalize_seats_items py_repr rest []); cbn;
        [now rewrite <- app_assoc | reflexivity].
    + destruct (extract_ints_from_string py_repr s) as [xs|]; cbn;
        [|reflexivity].
      rewrite (IH (res ++ map IntV xs)), (IH (map IntV xs)).
      destruct (normalize_seats_items py_repr rest []); cbn;
        [now rewrite <- app_assoc | reflexivity].
Qed.

Lemma normalize_seats_items_app (l1 l2 : list pyval) :
  forall res,
    normalize_seats_items py_repr (l1 ++ l2) res
    = let! r1 := normalize_seats_items py_repr l1 res in
      normalize_seats_items py_repr l2 r1.
Proof.
  induction l1 as [|item rest IH]; intros res; [reflexivity|].
  cbn. destruct item; try apply IH.
  destruct (extract_ints_from_string py_repr s); cbn; [apply IH | reflexivity].
Qed.

(** X9.  [normalize_seats] works piece by piece: the seats of a list are
    the seats of its first part followed by those of the rest, the seats of
    a string cut at a character that is no digit are those of the two
    halves, and a string inside a list gives what the string alone gives. *)
Theorem normalize_seats_piecewise :
  forall (l1 l2 : list pyval) (a b : string) (c : ascii),
    is_digit c = false ->
    normalize_seats py_repr (PList (l1 ++ l2))
    = (let! r1 := normalize_seats py_repr (PList l1) in
       let! r2 := normalize_seats py_repr (PList l2) in
       Ok (r1 ++ r2))
    /\ normalize_seats py_repr (PStr (a +++ String c b))
       = (let! r1 := normalize_seats py_repr (PStr a) in
          let! r2 := normalize_seats py_repr (PStr b) in
          Ok (r1 ++ r2))
    /\ normalize_seats py_repr (PList [PStr a]) = normalize_seats py_repr (PStr a).
Proof.
  intros l1 l2 a b c Hc. cbn [normalize_seats]. repeat split.
  - rewrite normalize_seats_items_app.
    destruct (normalize_seats_items py_repr l1 []) as [r1|]; cbn;
      [|reflexivity].
    apply normalize_seats_items_acc.
  - rewrite (extract_ints_sep a b c Hc).
    destruct (extract_ints_from_string py_repr a) as [xs|]; cbn;
      [|reflexivity].
    destruct (extract_ints_from_string py_repr b) as [ys|]; cbn;
      [|reflexivity].
    now rewrite map_app.
Qed.

End NormalizerFurther.

Lemma normalize_names_same_for_both_shapes_witness :
  normalize_names_to_list no_repr (PStr "Asha,Ravi K") = ["Asha"; "Ravi K"]
  /\ normalize_names_to_list no_repr (PList [PStr "Asha"; PStr "Ravi K"])
     = ["Asha"; "Ravi K"].
Proof.
  apply (normalize_names_same_for_both_shapes no_repr ["Asha"; "Ravi K"]).
  repeat constructor; discriminate.
Defined.

Lemma normalize_seats_piecewise_witness :
  normalize_seats no_repr (PStr "12-7")
  = (let! r1 := normalize_seats no_repr (PStr "12") in
     let! r2 := normalize_seats no_repr (PStr "7") in
     Ok (r1 ++ r2)).
Proof.
  exact (proj1 (proj2 (normalize_seats_piecewise
                         no_repr [] [] "12" "7" "-" eq_refl))).
Defined.

(** ** The pairing engine, further *)

Lemma map_snd_combine {A B} (l1 : list A) (l2 : list B) :
  List.length l1 = List.length l2 -> map snd (combine l1 l2) = l2.
Proof.
  revert l2. induction l1 as [|a l1 IH]; intros [|b l2] H; cbn in *;
    try discriminate; [reflexivity|].
  f_equal. apply IH. lia.
Qed.

(** What the rule list does with its inputs: the seats come out as they
    went in, and every tuple has the user code, one of the names and one of
    the mobiles. *)
Lemma pairing_rules_projections (uc : string) (names mobiles : list string)
    (seats : list pyint) (rows : list BookingRow) :
  pairing_rules uc names mobiles seats = Ok rows ->
  map row_seat rows = seats
  /\ Forall (fun row => fst (fst (fst row)) = uc
                        /\ In (snd (fst (fst row))) names
                        /\ In (snd (fst row)) mobiles) rows.
Proof.
  unfold pairing_rules.
  destruct ((List.length names =? List.length seats)%nat
            && (List.length mobiles =? List.length seats)%nat) eqn:R1.
  { apply andb_true_iff in R1. destruct R1 as [E1 E2].
    apply Nat.eqb_eq in E1, E2.
    intros H. inversion H; subst; clear H. split.
    - rewrite map_map. cbn. apply map_snd_combine.
      rewrite length_combine. lia.
    - apply Forall_forall. intros row Hin.
      apply in_map_iff in Hin. destruct Hin as ([[n m] s] & <- & Hin).
      cbn. pose proof (in_combine_l _ _ _ _ Hin) as Hnm.
      split; [reflexivity|].
      split; [exact (in_combine_l _ _ _ _ Hnm)
             | exact (in_combine_r _ _ _ _ Hnm)]. }
  destruct ((List.length names =? 1)%nat && (List.length mobiles =? 1)%nat)
    eqn:R2.
  { apply andb_true_iff in R2. destruct R2 as [E1 E2].
    apply Nat.eqb_eq in E1, E2.
    destruct names as [|n [|? ?]]; try discriminate.
    destruct mobiles as [|m [|? ?]]; try discriminate.
    intros H. inversion H; subst; clear H. cbn [hd]. split.
    - rewrite map_map. cbn. apply map_id.
    - apply Forall_forall. intros row Hin.
      apply in_map_iff in Hin. destruct Hin as (x & <- & Hin). cbn.
      repeat split; now left. }
  destruct ((List.length names =? 1)%nat
            && (List.length mobiles =? List.length seats)%nat) eqn:R3.
  { apply andb_true_iff in R3. destruct R3 as [E1 E2].
    apply Nat.eqb_eq in E1, E2.
    destruct names as [|n [|? ?]]; try discriminate.
    intros H. inversion H; subst; clear H. cbn [hd]. split.
    - rewrite map_map. cbn. now apply map_snd_combine.
    - apply Forall_forall. intros row Hin.
      apply in_map_iff in Hin. destruct Hin as ([m x] & <- & Hin). cbn.
      split; [reflexivity|]. split; [now left|].
      exact (in_combine_l _ _ _ _ Hin). }
  destruct ((List.length mobiles =? 1)%nat
            && (List.length names =? List.length seats)%nat) eqn:R4.
  { apply andb_true_iff in R4. destruct R4 as [E1 E2].
    apply Nat.eqb_eq in E1, E2.
    destruct mobiles as [|m [|? ?]]; try discriminate.
    intros H. inversion H; subst; clear H. cbn [hd]. split.
    - rewrite map_map. cbn. now apply map_snd_combine.
    - apply Forall_forall. intros row Hin.
      apply in_map_iff in Hin. destruct Hin as ([n x] & <- & Hin). cbn.
      split; [reflexivity|]. split; [|now left].
      exact (in_combine_l _ _ _ _ Hin). }
  discriminate.
Qed.

Lemma pair_rows_sources :
  forall (uc : string) (names mobiles : list string) (seats : list pyint)
         (rows : list BookingRow),
    pair_rows_for_booking uc names mobiles seats = Ok rows ->
    map row_seat rows = seats
    /\ Forall (fun row => fst (fst (fst row)) = uc
                          /\ In (snd (fst (fst row))) names
                          /\ In (snd (fst row)) mobiles
                          /\ 10 <= String.length (snd (fst row))) rows.
Proof.
  intros uc names mobiles seats rows H.
  destruct (check_mobiles_cases mobiles) as [[Hok Hall] | [Hbad _]].
  - rewrite (pair_rows_checked _ _ _ _ Hok) in H.
    destruct (pairing_rules_projections _ _ _ _ _ H) as [Hs Hr].
    split; [exact Hs|]. eapply Forall_impl; [|exact Hr].
    intros row (Hu & Hn & Hm). repeat split; try assumption.
    rewrite Forall_forall in Hall. now apply Hall.
  - unfold pair_rows_for_booking in H. rewrite Hbad in H. discriminate.
Qed.

(** X10.  Whenever [pair_rows_for_booking] returns, the seats of its tuples
    are the seats given, in order; every tuple carries the given user code,
    a name of the names list and a mobile of the mobiles list, and that
    mobile has at least ten characters. *)
Theorem pair_rows_keeps_seats_and_sources :
  forall (uc : string) (names mobiles : list string) (seats : list pyint)
         (rows : list BookingRow),
    pair_rows_for_booking uc names mobiles seats = Ok rows ->
    map row_seat rows = seats
    /\ Forall (fun row => fst (fst (fst row)) = uc
                          /\ In (snd (fst (fst row))) names
                          /\ In (snd (fst row)) mobiles
                          /\ 10 <= String.length (snd (fst row))) rows.
Proof. exact pair_rows_sources. Qed.

Lemma pair_rows_keeps_seats_and_sources_witness :
  map row_seat [("A1", "Asha", "9876543210", IntV 10);
                ("A1", "Asha", "9988776655", IntV 11)]
  = [IntV 10; IntV 11].
Proof.
  exact (proj1 (pair_rows_keeps_seats_and_sources
                  "A1" ["Asha"] ["9876543210"; "9988776655"]
                  [IntV 10; IntV 11] _ eq_refl)).
Defined.

(** ** The submission route, further *)

Section SubmitFurther.

Variable py_repr : pyval -> string.
Variable json_dumps : pyval -> string.
Variable cfg : config.

Lemma normalize_names_nonempty (name : pyval) :
  Forall (fun n => n <> EmptyString) (normalize_names_to_list py_repr name).
Proof.
  destruct name; cbn; try constructor.
  - apply Forall_forall. intros n Hin. apply filter_In in Hin.
    now apply nonempty_is_empty.
  - apply Forall_forall. intros n Hin.
    apply in_map_iff in Hin. destruct Hin as (v & <- & Hv).
    apply filter_In in Hv. now apply nonempty_is_empty.
Qed.

Lemma filter_nil_all {A} (p : A -> bool) (l : list A) :
  filter p l = [] -> Forall (fun x => p x = false) l.
Proof.
  induction l as [|x l IH]; [constructor|]. cbn.
  destruct (p x) eqn:E; [discriminate|].
  intros H. constructor; [exact E | now apply IH].
Qed.

Lemma seat_in_range (s : pyint) :
  seat_out_of_range s = false -> (1 <= int_val s <= 105)%Z.
Proof.
  unfold seat_out_of_range. intros H. apply orb_false_iff in H.
  destruct H as [H1 H2]. apply Z.ltb_ge in H1.
  rewrite Z.gtb_ltb in H2. apply Z.ltb_ge in H2. lia.
Qed.

(** The tuples that pass the validation are fit for the ledger, and their
    seats are the normalised seats of the booking. *)
Lemma validate_rows_well_formed (b : pyval) (rows : list BookingRow) :
  validate_booking py_repr b = Ok (inr rows) ->
  rows <> []
  /\ Forall well_formed_row rows
  /\ exists d seats,
      b = PDict d
      /\ normalize_seats py_repr (field d "seats" (PList [])) = Ok seats
      /\ map row_seat rows = seats.
Proof.
  unfold validate_booking. destruct b; cbn [py_get rbind]; try discriminate.
  fold (field d "name" (PStr EmptyString)).
  fold (field d "mobile" (PStr EmptyString)).
  fold (field d "seats" (PList [])).
  pose proof (normalize_names_nonempty (field d "name" (PStr EmptyString)))
    as Hnames.
  destruct (normalize_mobile_to_list (field d "mobile" (PStr EmptyString)))
    as [mobiles|] eqn:Em; cbn [rbind]; [|discriminate].
  pose proof (normalize_mobile_digits _ _ Em) as Hmob.
  destruct (normalize_seats py_repr (field d "seats" (PList [])))
    as [seats|] eqn:Es; cbn [rbind]; [|discriminate].
  destruct (normalize_names_to_list py_repr (field d "name" (PStr EmptyString)))
    as [|n names]; [discriminate|].
  destruct mobiles as [|m mobiles]; [discriminate|].
  destruct seats as [|s seats]; [discriminate|].
  destruct (filter seat_out_of_range (s :: seats)) eqn:Ef; [|discriminate].
  destruct (pair_rows_for_booking _ _ _ _) as [rows'|] eqn:Ep; cbn [rbind];
    [|discriminate].
  intros H. inversion H; subst rows'. clear H.
  destruct (pair_rows_sources _ _ _ _ _ Ep) as [Hseats Hsrc].
  split; [|split].
  - intros ->. discriminate.
  - apply Forall_forall. intros [[[uc nm] mb] seat] Hin.
    rewrite Forall_forall in Hsrc.
    destruct (Hsrc _ Hin) as (_ & Hn & Hm & Hlen). cbn in Hn, Hm, Hlen.
    assert (Hseat : In seat (s :: seats)).
    { rewrite <- Hseats. apply in_map_iff.
      now exists (uc, nm, mb, seat). }
    pose proof (filter_nil_all _ _ Ef) as Hr.
    rewrite Forall_forall in Hr, Hnames, Hmob.
    cbn. repeat split.
    + apply (seat_in_range seat (Hr _ Hseat)).
    + apply (seat_in_range seat (Hr _ Hseat)).
    + now apply Hnames.
    + now apply (Hmob mb).
    + exact Hlen.
  - exists d, (s :: seats). now repeat split.
Qed.

(** X11.  A booking passes the validation of [submit] only as an object,
    and then every tuple that is to be written has a seat between 1 and 105,
    a non-empty name and a mobile of at least ten decimal digits; there is
    at least one tuple, and the seats of the tuples are the normalised seats
    of the booking, in order. *)
Theorem validated_rows_are_well_formed :
  forall (b : pyval) (rows : list BookingRow),
    validate_booking py_repr b = Ok (inr rows) ->
    rows <> []
    /\ Forall well_formed_row rows
    /\ exists d seats,
        b = PDict d
        /\ normalize_seats py_repr (field d "seats" (PList [])) = Ok seats
        /\ map row_seat rows = seats.
Proof. exact validate_rows_well_formed. Qed.

(** The inner loop writes the tuples one by one: what it has written at
    any end is a front part of them. *)
Lemma submit_rows_prefix (ts et : string) (rows : list BookingRow) :
  forall acc w,
    exists done rest,
      rows = done ++ rest
      /\ sheet (snd (submit_rows json_dumps cfg ts et rows acc w))
         = sheet w ++ map (ledger_row ts) done.
Proof.
  induction rows as [|[[[uc nm] mb] seat] rows IH]; intros acc w.
  - exists [], []. cbn. now rewrite app_nil_r.
  - cbn [submit_rows].
    destruct (append_row_cases [ts; uc; nm; mb; pyint_str seat] w)
      as (w0 & [(msg & E0 & Hs0) | (E0 & Hs0)]).
    + rewrite (bind_raise _ _ _ _ _ E0).
      exists [], ((uc, nm, mb, seat) :: rows). cbn.
      now rewrite app_nil_r.
    + rewrite (bind_ok _ _ _ _ _ E0).
      destruct (send_whatsapp_safe json_dumps cfg mb nm seat et w0)
        as (r & w1 & E & Hs & _).
      rewrite (bind_ok _ _ _ _ _ E).
      destruct (IH (acc ++ [seat]) w1) as (done & rest & Hrows & Hd).
      exists ((uc, nm, mb, seat) :: done), rest. split.
      * cbn. now rewrite Hrows.
      * rewrite Hd, Hs, Hs0. cbn. now rewrite <- app_assoc.
Qed.

Lemma submit_booking_appends (ts : string) (b : pyval) (acc : list pyint)
    (w : world) :
  exists done,
    sheet (snd (submit_booking py_repr json_dumps cfg ts b acc w))
    = sheet w ++ map (ledger_row ts) done
    /\ Forall well_formed_row done.
Proof.
  rewrite submit_booking_validate.
  destruct (validate_booking py_repr b) as [[r|rows]|e] eqn:V;
    try (exists []; cbn; rewrite app_nil_r; split; [reflexivity|constructor]).
  destruct (validate_rows_well_formed b rows V) as (_ & Hwf & _).
  destruct (submit_rows_prefix ts (event_time cfg) rows acc w)
    as (done & rest & Hrows & Hd).
  exists done. split.
  - destruct (submit_rows json_dumps cfg ts (event_time cfg) rows acc w)
      as [[acc'|e] w']; exact Hd.
  - rewrite Hrows in Hwf. now apply Forall_app in Hwf.
Qed.

Lemma submit_bookings_appends (ts : string) (bs : list pyval) :
  forall acc w,
    exists done,
      sheet (snd (submit_bookings py_repr json_dumps cfg ts bs acc w))
      = sheet w ++ map (ledger_row ts) done
      /\ Forall well_formed_row done.
Proof.
  induction bs as [|b bs IH]; intros acc w.
  - exists []. cbn. rewrite app_nil_r. split; [reflexivity | constructor].
  - cbn [submit_bookings]. unfold bind.
    destruct (submit_booking_appends ts b acc w) as (d1 & Hs1 & Hw1).
    destruct (submit_booking py_repr json_dumps cfg ts b acc w)
      as [[[r|acc']|e] w1]; cbn [snd] in Hs1;
      try (exists d1; split; assumption).
    destruct (IH acc' w1) as (d2 & Hs2 & Hw2).
    exists (d1 ++ d2). split.
    + rewrite Hs2, Hs1, map_app, app_assoc. reflexivity.
    + apply Forall_app. now split.
Qed.

(** Opening the worksheet changes no row; it only gives an empty worksheet
    its header. *)
Lemma get_sheet_keeps_rows (w : world) :
  sheet (snd (get_sheet w)) = sheet w
  \/ (sheet w = [] /\ sheet (snd (get_sheet w)) = [HEADER]).
Proof.
  unfold get_sheet, bind, open_sheet1, get_all_values, sheets_call.
  destruct (sheets_faults w 0); cbn; [now left|].
  destruct (sheets_faults w 1); cbn; [now left|].
  destruct (sheet w) as [|r rows] eqn:E.
  - unfold append_row, sheets_call. cbn.
    destruct (sheets_faults w 2); cbn; [now left | now right].
  - unfold ret. cbn. now left.
Qed.

(** The world that [submit] leaves. *)
Lemma submit_world (json : pyval) (w : world) :
  snd (submit py_repr json_dumps cfg json w)
  = match get_sheet w with
    | (Ok _, w1) =>
        match py_iter (bookings_of (request_data json)) with
        | Ok items =>
            snd (submit_bookings py_repr json_dumps cfg (now cfg) items [] w1)
        | Raise _ => w1
        end
    | (Raise _, w1) => w1
    end.
Proof.
  unfold submit. fold (request_data json). unfold bind at 1.
  destruct (get_sheet w) as [[[]|e] w1]; [|reflexivity].
  unfold try_except, bind, lift.
  destruct (py_iter (bookings_of (request_data json))) as [items|e];
    [|reflexivity].
  destruct (submit_bookings py_repr json_dumps cfg (now cfg) items [] w1)
    as [[[r|acc]|e] w2]; reflexivity.
Qed.

(** X12.  Whatever the request and whatever fails on the way, [POST /submit]
    only adds to the ledger: the rows that were there stay as they were (an
    empty worksheet first gets its header), and every row it adds is the row
    of a tuple with a seat between 1 and 105, a non-empty name and a mobile
    of at least ten digits, stamped with the time of the request. *)
Theorem submit_only_appends_well_formed_rows :
  forall (json : pyval) (w : world),
    exists (before : list (list string)) (rows : list BookingRow),
      sheet (snd (submit py_repr json_dumps cfg json w))
      = before ++ map (ledger_row (now cfg)) rows
      /\ (before = sheet w \/ (sheet w = [] /\ before = [HEADER]))
      /\ Forall well_formed_row rows.
Proof.
  intros json w. rewrite submit_world.
  pose proof (get_sheet_keeps_rows w) as Hg.
  destruct (get_sheet w) as [[[]|e] w1]; cbn [snd] in Hg.
  - destruct (py_iter (bookings_of (request_data json))) as [items|e].
    + destruct (submit_bookings_appends (now cfg) items [] w1)
        as (done & Hs & Hwf).
      exists (sheet w1), done. repeat split; assumption.
    + exists (sheet w1), []. cbn. rewrite app_nil_r.
      repeat split; [assumption | constructor].
  - exists (sheet w1), []. cbn. rewrite app_nil_r.
    repeat split; [assumption | constructor].
Qed.

Lemma submit_bookings_return_400 (ts : string) (bs : list pyval) :
  forall acc w r w',
    submit_bookings py_repr json_dumps cfg ts bs acc w = (Ok (Return r), w') ->
    status r = 400%Z.
Proof.
  induction bs as [|b bs IH]; intros acc w r w' H; [discriminate|].
  cbn [submit_bookings] in H. unfold bind in H.
  rewrite submit_booking_validate in H.
  destruct (validate_booking py_repr b) as [[r0|rows]|e] eqn:V;
    try discriminate.
  - inversion H; subst. now apply (validate_booking_400 py_repr b).
  - destruct (submit_rows json_dumps cfg ts (event_time cfg) rows acc w)
      as [[acc'|e] w1]; [|discriminate].
    now apply (IH acc' w1 r w').
Qed.

(** The route, case by case. *)
Lemma submit_cases (json : pyval) (w : world) :
  submit py_repr json_dumps cfg json w
  = match get_sheet w with
    | (Raise e, w1) => (Raise e, w1)
    | (Ok _, w1) =>
        match py_iter (bookings_of (request_data json)) with
        | Raise e => (Ok (failure e), w1)
        | Ok items =>
            match submit_bookings py_repr json_dumps cfg (now cfg) items [] w1
            with
            | (Ok (Return r), w2) => (Ok r, w2)
            | (Ok (Next acc), w2) => (Ok (confirmation acc), w2)
            | (Raise e, w2) => (Ok (failure e), w2)
            end
        end
    end.
Proof.
  unfold submit. fold (request_data json). unfold bind, try_except, lift.
  destruct (get_sheet w) as [[[]|e] w1]; [|reflexivity].
  destruct (py_iter (bookings_of (request_data json))) as [items|e];
    [|reflexivity].
  destruct (submit_bookings py_repr json_dumps cfg (now cfg) items [] w1)
    as [[[r|acc]|e] w2]; reflexivity.
Qed.

(** X13.  [POST /submit] lets an exception out exactly when opening the
    worksheet raises, and then it is that exception and nothing further is
    done; in every other case it answers with status 200, 400 or 500. *)
Theorem submit_raises_only_when_sheet_fails :
  forall (json : pyval) (w : world),
    (forall e, fst (submit py_repr json_dumps cfg json w) = Raise e
               <-> fst (get_sheet w) = Raise e)
    /\ (forall e, fst (get_sheet w) = Raise e ->
                  snd (submit py_repr json_dumps cfg json w)
                  = snd (get_sheet w))
    /\ (forall resp,
           fst (submit py_repr json_dumps cfg json w) = Ok resp ->
           status resp = 200%Z \/ status resp = 400%Z \/ status resp = 500%Z).
Proof.
  intros json w. rewrite submit_cases.
  destruct (get_sheet w) as [[[]|e0] w1]; cbn [fst snd].
  2:{ split; [intros e; split; intros H; inversion H; reflexivity|].
      split; [auto | intros resp H; discriminate]. }
  destruct (py_iter (bookings_of (request_data json))) as [items|e1].
  2:{ cbn. split; [intros e; split; discriminate|].
      split; [discriminate|]. intros resp H. inversion H. cbn. auto. }
  destruct (submit_bookings py_repr json_dumps cfg (now cfg) items [] w1)
    as [[[r|acc]|e2] w2] eqn:S; cbn;
    (split; [intros e; split; discriminate|]);
    (split; [discriminate|]);
    intros resp H; inversion H; subst; cbn; auto.
  right. left. now apply (submit_bookings_return_400 _ _ _ _ _ _ S).
Qed.

(** *** Notification attempts *)

Lemma format_wa_to_run (number : string) (w : world) :
  exists w',
    _format_wa_to number w = (Ok (wa_destination number), w')
    /\ sheet w' = sheet w /\ sheets_faults w' = sheets_faults w
    /\ twilio_outcomes w' = twilio_outcomes w /\ sent w' = sent w.
Proof.
  unfold _format_wa_to, wa_destination. rewrite sub_nondigits_filter.
  destruct (prefix "91" (filter_str is_digit number)
            && (String.length (filter_str is_digit number) =? 12)%nat);
    [|destruct (String.length (filter_str is_digit number) =? 10)%nat];
    eexists; (split; [reflexivity|]); repeat split.
Qed.

(** With all four settings present the notification hands exactly one
    payload to the messaging client, whether the client then raises or not;
    with a setting missing it hands over nothing. *)
Lemma send_whatsapp_sent (to_number name : string) (seat : pyint)
    (et : string) (w : world) :
  sent (snd (send_whatsapp_template_concert json_dumps cfg to_number name
                                            seat et w))
  = sent w ++ (if credentials_present cfg
               then [notification_payload json_dumps cfg et
                       (EmptyString, name, to_number, seat)]
               else []).
Proof.
  unfold send_whatsapp_template_concert. fold (credentials_present cfg).
  destruct (credentials_present cfg); cbn [negb].
  - unfold try_except.
    destruct (format_wa_to_run to_number w) as (w1 & E & _ & _ & Ht & Hs).
    rewrite (bind_ok _ _ _ _ _ E).
    unfold bind, print, messages_create, ret. cbn.
    rewrite Hs. now destruct (twilio_outcomes w1 0).
  - cbn. now rewrite app_nil_r.
Qed.

Lemma notification_payload_user_code (et uc uc' nm mb : string) (seat : pyint) :
  notification_payload json_dumps cfg et (uc, nm, mb, seat)
  = notification_payload json_dumps cfg et (uc', nm, mb, seat).
Proof. reflexivity. Qed.

Lemma append_row_sent (row : list string) (w : world) :
  sent (snd (append_row row w)) = sent w.
Proof.
  unfold append_row, sheets_call. now destruct (sheets_faults w 0).
Qed.

Lemma get_sheet_sent (w : world) : sent (snd (get_sheet w)) = sent w.
Proof.
  unfold get_sheet, bind, open_sheet1, get_all_values, sheets_call.
  destruct (sheets_faults w 0); cbn; [reflexivity|].
  destruct (sheets_faults w 1); cbn; [reflexivity|].
  destruct (sheet w); [|reflexivity].
  unfold append_row, sheets_call. cbn.
  now destruct (sheets_faults w 2).
Qed.

Lemma submit_rows_run (ts et : string) (rows : list BookingRow) :
  forall acc w,
    no_faults w ->
    exists w',
      submit_rows json_dumps cfg ts et rows acc w
      = (Ok (acc ++ map row_seat rows), w')
      /\ sheet w' = sheet w ++ map (ledger_row ts) rows
      /\ no_faults w'
      /\ sent w'
         = sent w ++ (if credentials_present cfg
                      then map (notification_payload json_dumps cfg et) rows
                      else []).
Proof.
  induction rows as [|[[[uc nm] mb] seat] rest IH]; intros acc w Hw.
  - exists w. split; [cbn; now rewrite app_nil_r|].
    split; [cbn; now rewrite app_nil_r|]. split; [assumption|].
    cbn [map List.concat]. destruct (credentials_present cfg);
      now rewrite app_nil_r.
  - cbn [submit_rows].
    destruct (append_row_ok [ts; uc; nm; mb; pyint_str seat] w Hw)
      as (w1 & E1 & Hs1 & Hf1 & _).
    pose proof (append_row_sent [ts; uc; nm; mb; pyint_str seat] w) as Hn1.
    rewrite E1 in Hn1. cbn [snd] in Hn1.
    rewrite (bind_ok _ _ _ _ _ E1).
    destruct (send_whatsapp_safe json_dumps cfg mb nm seat et w1)
      as (r & w2 & E2 & Hs2 & Hf2 & _).
    pose proof (send_whatsapp_sent mb nm seat et w1) as Hn2.
    rewrite E2 in Hn2. cbn [snd] in Hn2.
    rewrite (bind_ok _ _ _ _ _ E2).
    assert (Hw2 : no_faults w2).
    { intros n. rewrite Hf2. apply Hf1. }
    destruct (IH (acc ++ [seat]) w2 Hw2) as (w3 & E3 & Hs3 & Hf3 & Hn3).
    exists w3. rewrite E3. repeat split; try assumption.
    + cbn. now rewrite <- app_assoc.
    + rewrite Hs3, Hs2, Hs1. cbn. now rewrite <- app_assoc.
    + rewrite Hn3, Hn2, Hn1.
      rewrite (notification_payload_user_code et EmptyString uc).
      destruct (credentials_present cfg); cbn;
        now rewrite <- ?app_assoc, ?app_nil_r.
Qed.

Lemma submit_bookings_run (ts : string) (items : list pyval)
    (rowss : list (list BookingRow)) :
  Forall2 (fun b rows => validate_booking py_repr b = Ok (inr rows))
          items rowss ->
  forall acc w,
    no_faults w ->
    exists w',
      submit_bookings py_repr json_dumps cfg ts items acc w
      = (Ok (Next (acc ++ map row_seat (List.concat rowss))), w')
      /\ sheet w' = sheet w ++ map (ledger_row ts) (List.concat rowss)
      /\ no_faults w'
      /\ sent w'
         = sent w
           ++ (if credentials_present cfg
               then map (notification_payload json_dumps cfg (event_time cfg))
                        (List.concat rowss)
               else []).
Proof.
  induction 1 as [|b rows items rowss Hb _ IH]; intros acc w Hw.
  - exists w. split; [cbn; now rewrite app_nil_r|].
    split; [cbn; now rewrite app_nil_r|]. split; [assumption|].
    cbn [map List.concat]. destruct (credentials_present cfg);
      now rewrite app_nil_r.
  - cbn [submit_bookings List.concat]. unfold bind.
    rewrite submit_booking_validate, Hb.
    destruct (submit_rows_run ts (event_time cfg) rows acc w Hw)
      as (w1 & E1 & Hs1 & Hf1 & Hn1).
    rewrite E1.
    destruct (IH (acc ++ map row_seat rows) w1 Hf1)
      as (w2 & E2 & Hs2 & Hf2 & Hn2).
    exists w2. rewrite E2, Hs2, Hs1, Hn2, Hn1, !map_app, !app_assoc.
    repeat split; try assumption.
    destruct (credentials_present cfg);
      now rewrite ?map_app, ?app_nil_r, ?app_assoc.
Qed.

(** A request whose bookings all pass, with a spreadsheet client that does
    not fail, from its first call to its response. *)
Lemma submit_run (json : pyval) (w : world) (items : list pyval)
    (rowss : list (list BookingRow)) :
  no_faults w ->
  py_iter (bookings_of (request_data json)) = Ok items ->
  Forall2 (fun b rows => validate_booking py_repr b = Ok (inr rows))
          items rowss ->
  exists w',
    submit py_repr json_dumps cfg json w
    = (Ok (confirmation (map row_seat (List.concat rowss))), w')
    /\ sheet w' = ledger_rows w ++ map (ledger_row (now cfg)) (List.concat rowss)
    /\ no_faults w'
    /\ sent w'
       = sent w
         ++ (if credentials_present cfg
             then map (notification_payload json_dumps cfg (event_time cfg))
                      (List.concat rowss)
             else []).
Proof.
  intros Hw Hi Hv.
  destruct (get_sheet_ok w Hw) as (w1 & E1 & Hs1 & Hf1 & _).
  pose proof (get_sheet_sent w) as Hn1. rewrite E1 in Hn1. cbn [snd] in Hn1.
  destruct (submit_bookings_run (now cfg) items rowss Hv [] w1 Hf1)
    as (w2 & E2 & Hs2 & Hf2 & Hn2).
  exists w2. rewrite (submit_opened py_repr json_dumps cfg json items w w1 E1 Hi).
  rewrite E2. cbn [app]. rewrite Hs2, Hs1, Hn2, Hn1. now repeat split.
Qed.

(** X14.  In a request whose bookings all pass (the spreadsheet client not
    failing), the messaging client is handed exactly one payload per ledger
    row, in the order of the rows, each addressed to the formatted mobile of
    its row, when all four messaging settings are present; when one is
    missing the client is not called at all. *)
Theorem submit_notifies_once_per_row :
  forall (json : pyval) (w : world) (items : list pyval)
         (rowss : list (list BookingRow)),
    no_faults w ->
    py_iter (bookings_of (request_data json)) = Ok items ->
    Forall2 (fun b rows => validate_booking py_repr b = Ok (inr rows))
            items rowss ->
    sent (snd (submit py_repr json_dumps cfg json w))
    = sent w
      ++ (if credentials_present cfg
          then map (notification_payload json_dumps cfg (event_time cfg))
                   (List.concat rowss)
          else []).
Proof.
  intros json w items rowss Hw Hi Hv.
  destruct (submit_run json w items rowss Hw Hi Hv) as (w' & E & _ & _ & Hn).
  now rewrite E.
Qed.

(** *** Reading back what was written *)

Lemma ledger_rows_cons (w : world) :
  exists r rows, ledger_rows w = r :: rows.
Proof.
  unfold ledger_rows. destruct (sheet w) as [|r rows]; now eexists; eexists.
Qed.

Lemma ledger_rows_of_sheet (w w' : world) (extra : list (list string)) :
  sheet w' = ledger_rows w ++ extra -> ledger_rows w' = ledger_rows w ++ extra.
Proof.
  intros H. destruct (ledger_rows_cons w) as (r & rows & E).
  unfold ledger_rows at 1. rewrite H, E. reflexivity.
Qed.

Lemma seat_cells_appended (w w' : world) (ts : string) (rows : list BookingRow) :
  sheet w' = ledger_rows w ++ map (ledger_row ts) rows ->
  seat_cells w'
  = seat_cells w ++ map (fun row => pyint_str (row_seat row)) rows.
Proof.
  intros H. unfold seat_cells. rewrite (ledger_rows_of_sheet w w' _ H).
  destruct (ledger_rows_cons w) as (r & rest & E). rewrite E. cbn.
  rewrite map_app, map_map. f_equal.
  apply map_ext. now intros [[[uc nm] mb] seat].
Qed.

(** The cell written for a seat of the venue: read back, an [int] gives
    its number and a [bool] gives nothing. *)
Lemma venue_seat_within_limit (z : Z) :
  (1 <= z <= 105)%Z -> within_int_limit (str_of_Z z).
Proof.
  intros Hz.
  assert (Hall : forallb (fun n => (N.of_nat (String.length
                                               (str_of_Z (Z.of_nat n)))
                                    <=? int_max_str_digits)%N)
                         (seq 1 105) = true) by (vm_compute; reflexivity).
  rewrite forallb_forall in Hall. specialize (Hall (Z.to_nat z)).
  rewrite Z2Nat.id in Hall by lia. apply N.leb_le, Hall, in_seq. lia.
Qed.

Lemma written_seat_cell (seat : pyint) :
  (1 <= int_val seat <= 105)%Z ->
  cell_seats (pyint_str seat) = booked_value seat
  /\ Forall readable_fragment (split "," (pyint_str seat)).
Proof.
  destruct seat as [z | [|]]; cbn [int_val pyint_str booked_value]; intros Hz.
  - destruct (str_of_Z_pos_digits z ltac:(lia)) as [Hd Hne].
    unfold cell_seats. rewrite (split_comma_free _ (digits_comma_free _ Hd)).
    split.
    + cbn [flat_map]. rewrite app_nil_r. unfold digit_group_value.
      rewrite (strip_digits _ Hd).
      apply nonempty_is_empty in Hne. rewrite Hne.
      unfold digits_only in Hd. rewrite Hd. cbn [andb].
      destruct (uint_of_string_digits _ Hd) as [u Hu]. rewrite Hu.
      pose proof (parse_int_str_of_Z z ltac:(lia)) as Hp.
      apply nonempty_is_empty in Hne.
      rewrite (parse_int_digits _ u Hd Hne Hu) in Hp. now inversion Hp.
    + constructor; [|constructor]. intros _. rewrite (strip_digits _ Hd).
      split; [exact Hd | now apply venue_seat_within_limit].
  - split; [reflexivity|].
    constructor; [intros H; discriminate H | constructor].
  - lia.
Qed.

Lemma written_cells (rows : list BookingRow) :
  Forall well_formed_row rows ->
  flat_map cell_seats (map (fun row => pyint_str (row_seat row)) rows)
  = flat_map booked_value (map row_seat rows)
  /\ Forall readable_fragment
            (flat_map (split ",")
                      (map (fun row => pyint_str (row_seat row)) rows)).
Proof.
  induction 1 as [|[[[uc nm] mb] seat] rows Hrow _ [IH1 IH2]];
    [split; [reflexivity | constructor]|].
  destruct Hrow as (Hseat & _). cbn [map flat_map row_seat snd].
  destruct (written_seat_cell seat Hseat) as [Hc Hp].
  split; [now rewrite Hc, IH1 | apply Forall_app; now split].
Qed.

Lemma booked_seats_run (w : world) :
  no_faults w ->
  Forall readable_fragment (flat_map (split ",") (seat_cells w)) ->
  fst (booked_seats py_repr w)
  = Ok (jsonify [("booked",
                  PList (map PInt (flat_map cell_seats (seat_cells w))))]
                200).
Proof.
  intros Hw Hplain. unfold booked_seats, try_except.
  destruct (get_sheet_ok w Hw) as (w1 & E1 & Hs1 & Hf1 & _).
  rewrite (bind_ok _ _ _ _ _ E1).
  assert (Ec : exists w2,
             col_values 5 w1
             = (Ok (map (fun r => nth 4 r EmptyString) (sheet w1)), w2)).
  { unfold col_values, sheets_call. rewrite (Hf1 0). now eexists. }
  destruct Ec as (w2 & Ec). rewrite (bind_ok _ _ _ _ _ Ec).
  rewrite Hs1. fold (seat_cells w).
  unfold bind, lift. rewrite (booked_comprehension py_repr _ Hplain).
  cbn. unfold cell_seats. now rewrite flat_map_nested.
Qed.

(** X15.  What [POST /submit] confirms, [GET /booked-seats] reports: after
    a request whose bookings all pass (the spreadsheet client not failing,
    every fragment of the older seat cells that [isdigit] accepts made of at
    most 4300 decimal digits), the booked seats are those booked before
    followed by the confirmed seats in order, except that a seat that was
    sent as a JSON [true] is written as a word and never reported. *)
Theorem confirmed_seats_are_reported_booked :
  forall (json : pyval) (w : world) (items : list pyval)
         (rowss : list (list BookingRow)),
    no_faults w ->
    py_iter (bookings_of (request_data json)) = Ok items ->
    Forall2 (fun b rows => validate_booking py_repr b = Ok (inr rows))
            items rowss ->
    Forall readable_fragment (flat_map (split ",") (seat_cells w)) ->
    exists w',
      submit py_repr json_dumps cfg json w
      = (Ok (confirmation (map row_seat (List.concat rowss))), w')
      /\ fst (booked_seats py_repr w')
         = Ok (jsonify
                 [("booked",
                   PList (map PInt
                              (flat_map cell_seats (seat_cells w)
                               ++ flat_map booked_value
                                    (map row_seat (List.concat rowss)))))]
                 200).
Proof.
  intros json w items rowss Hw Hi Hv Hplain.
  destruct (submit_run json w items rowss Hw Hi Hv) as (w' & E & Hs & Hf & _).
  exists w'. split; [exact E|].
  assert (Hwf : Forall well_formed_row (List.concat rowss)).
  { clear - Hv. induction Hv as [|b rows items rowss Hb _ IH];
      [constructor|].
    cbn. apply Forall_app. split; [|exact IH].
    now destruct (validate_rows_well_formed b rows Hb) as (_ & Hwf & _). }
  destruct (written_cells _ Hwf) as [Hcells Hp].
  pose proof (seat_cells_appended w w' _ _ Hs) as Hsc.
  rewrite (booked_seats_run w' Hf).
  - now rewrite Hsc, flat_map_app, Hcells.
  - rewrite Hsc, flat_map_app. apply Forall_app. now split.
Qed.

End SubmitFurther.

Lemma validated_rows_are_well_formed_witness :
  Forall well_formed_row
         [("A1", "Asha", "9876543210", IntV 10);
          ("A1", "Ravi", "9988776655", IntV 11)].
Proof.
  exact (proj1 (proj2 (validated_rows_are_well_formed
                         no_repr e2e_booking _ eq_refl))).
Defined.

Lemma submit_notifies_once_per_row_witness :
  sent (snd (submit no_repr no_repr test_config e2e_booking (twilio_down [])))
  = map (notification_payload no_repr test_config (event_time test_config))
        [("A1", "Asha", "9876543210", IntV 10);
         ("A1", "Ravi", "9988776655", IntV 11)].
Proof.
  refine (submit_notifies_once_per_row
            no_repr no_repr test_config e2e_booking (twilio_down [])
            [e2e_booking]
            [[("A1", "Asha", "9876543210", IntV 10);
              ("A1", "Ravi", "9988776655", IntV 11)]] _ _ _).
  - intros n. reflexivity.
  - reflexivity.
  - repeat constructor.
Defined.

Lemma confirmed_seats_are_reported_booked_witness :
  exists w',
    submit no_repr no_repr test_config e2e_booking
           (quiet_world [HEADER; seat_row "5"])
    = (Ok (confirmation [IntV 10; IntV 11]), w')
    /\ fst (booked_seats no_repr w')
       = Ok (jsonify [("booked", PList [PInt 5; PInt 10; PInt 11])] 200).
Proof.
  refine (confirmed_seats_are_reported_booked
            no_repr no_repr test_config e2e_booking
            (quiet_world [HEADER; seat_row "5"]) [e2e_booking]
            [[("A1", "Asha", "9876543210", IntV 10);
              ("A1", "Ravi", "9988776655", IntV 11)]] _ _ _ _).
  - intros n. reflexivity.
  - reflexivity.
  - repeat constructor.
  - cbn. repeat (apply Forall_cons || apply Forall_nil); intros H;
      first [discriminate H | split; [reflexivity | discriminate]].
Defined.

(** ** Clearing and reading the sheet, further *)

Section ClearFurther.

Variable py_repr : pyval -> string.
Variable cfg : config.

Lemma clear_attempt_run (w : world) :
  no_faults w ->
  exists w',
    clear_attempt w
    = (Ok (jsonify [("ok", PBool true); ("message", PStr "Sheet cleared")] 200),
       w')
    /\ sheet w' = firstn 1 (ledger_rows w)
    /\ no_faults w'.
Proof.
  intros Hw.
  destruct (get_sheet_ok w Hw) as (w1 & E & Hs & Hf & _).
  assert (Hb : exists w2, batch_clear_below_header w1 = (Ok tt, w2)
                          /\ sheet w2 = firstn 1 (sheet w1)
                          /\ no_faults w2).
  { unfold batch_clear_below_header, sheets_call. rewrite (Hf 0).
    eexists. split; [reflexivity|]. split; [reflexivity|].
    intros n. apply (Hf (S n)). }
  destruct Hb as (w2 & Eb & Hs2 & Hf2).
  exists w2. split; [|split; [now rewrite Hs2, Hs | exact Hf2]].
  unfold clear_attempt, try_except, clear_google_sheet_values.
  unfold bind at 1. unfold bind at 1.
  now rewrite E, (bind_ok _ _ _ _ _ Eb).
Qed.

(** X16.  After a clear that is let through (no token configured, or the
    header equal to the configured token) and that the spreadsheet client
    carries out, the worksheet is its first row alone and
    [GET /booked-seats] reports no seat at all. *)
Theorem cleared_sheet_has_no_booked_seat :
  forall (header : option string) (w : world),
    no_faults w ->
    CLEAR_TOKEN cfg = None \/ CLEAR_TOKEN cfg = Some EmptyString
    \/ header = CLEAR_TOKEN cfg ->
    exists w',
      clear_sheet_route cfg header w
      = (Ok (jsonify [("ok", PBool true); ("message", PStr "Sheet cleared")]
                     200),
         w')
      /\ sheet w' = firstn 1 (ledger_rows w)
      /\ fst (booked_seats py_repr w') = Ok (jsonify [("booked", PList [])] 200).
Proof.
  intros header w Hw Hallowed.
  assert (E : clear_sheet_route cfg header w = clear_attempt w).
  { unfold clear_sheet_route.
    destruct Hallowed as [-> | [-> | ->]]; try reflexivity.
    destruct (CLEAR_TOKEN cfg) as [t|]; cbn; [|reflexivity].
    now rewrite String.eqb_refl, andb_false_r. }
  destruct (clear_attempt_run w Hw) as (w' & Ec & Hs & Hf).
  exists w'. rewrite E. split; [exact Ec|]. split; [exact Hs|].
  assert (Hcells : seat_cells w' = []).
  { unfold seat_cells, ledger_rows. rewrite Hs.
    destruct (ledger_rows_cons w) as (r & rows & El). now rewrite El. }
  rewrite (booked_seats_run py_repr w' Hf); rewrite Hcells;
    [reflexivity | constructor].
Qed.

(** X17.  A clear request that is turned away (a non-empty token is
    configured and the header is absent or different) changes nothing at
    all: no call of the spreadsheet client is made and the world is as it
    was. *)
Theorem unauthorized_clear_changes_nothing :
  forall (token : string) (header : option string) (w : world),
    CLEAR_TOKEN cfg = Some token ->
    token <> EmptyString ->
    header <> Some token ->
    clear_sheet_route cfg header w
    = (Ok (jsonify [("ok", PBool false); ("message", PStr "Unauthorized")] 401),
       w).
Proof.
  intros token header w Ht Hne Hh. unfold clear_sheet_route. rewrite Ht.
  assert (Hset : set_and_nonempty (Some token) = true).
  { cbn. now apply nonempty_is_empty. }
  assert (Hneq : opt_string_eqb header (Some token) = false).
  { destruct header as [h|]; [|reflexivity]. cbn.
    apply String.eqb_neq. congruence. }
  now rewrite Hset, Hneq.
Qed.

(** X18.  [GET /booked-seats] changes no row of the ledger and hands nothing
    to the messaging client, whatever fails; its one effect on the worksheet
    is that an empty worksheet gets the header row. *)
Theorem booked_seats_keeps_rows :
  forall w : world,
    (sheet (snd (booked_seats py_repr w)) = sheet w
     \/ (sheet w = [] /\ sheet (snd (booked_seats py_repr w)) = [HEADER]))
    /\ sent (snd (booked_seats py_repr w)) = sent w.
Proof.
  intros w. unfold booked_seats, try_except, bind, lift.
  pose proof (get_sheet_keeps_rows w) as Hg.
  pose proof (get_sheet_sent w) as Hn.
  destruct (get_sheet w) as [[[]|e] w1]; cbn [snd] in Hg, Hn;
    [|cbn; now split].
  unfold col_values, sheets_call.
  destruct (sheets_faults w1 0); cbn; [now split|].
  destruct (mapM _ _); cbn; now split.
Qed.

End ClearFurther.

Lemma cleared_sheet_has_no_booked_seat_witness :
  exists w',
    clear_sheet_route test_config None
                      (quiet_world [HEADER; seat_row "5"; seat_row "7,8"])
    = (Ok (jsonify [("ok", PBool true); ("message", PStr "Sheet cleared")] 200),
       w')
    /\ sheet w' = [HEADER]
    /\ fst (booked_seats no_repr w') = Ok (jsonify [("booked", PList [])] 200).
Proof.
  refine (cleared_sheet_has_no_booked_seat
            no_repr test_config None
            (quiet_world [HEADER; seat_row "5"; seat_row "7,8"]) _ _).
  - intros n. reflexivity.
  - now left.
Defined.

Lemma unauthorized_clear_changes_nothing_witness :
  clear_sheet_route guarded_config (Some "guess")
                    (quiet_world [HEADER; seat_row "5"])
  = (Ok (jsonify [("ok", PBool false); ("message", PStr "Unauthorized")] 401),
     quiet_world [HEADER; seat_row "5"]).
Proof.
  refine (unauthorized_clear_changes_nothing
            guarded_config "s3cret" (Some "guess")
            (quiet_world [HEADER; seat_row "5"]) eq_refl _ _);
    discriminate.
Defined.

(** ** Normalising twice, and the shapes of a request *)

Section Shapes.

Variable py_repr : pyval -> string.
Variable json_dumps : pyval -> string.
Variable cfg : config.

Lemma names_list_clean (name : pyval) :
  Forall (fun n => negb (is_empty n) = true /\ strip n = n)
         (normalize_names_to_list py_repr name).
Proof.
  destruct name; cbn; try constructor.
  - rewrite comma_parts_split. apply Forall_forall. intros n Hin.
    apply filter_In in Hin. destruct Hin as [Hin Hne].
    apply in_map_iff in Hin. destruct Hin as (p & <- & _).
    split; [exact Hne | apply strip_idempotent].
  - apply Forall_forall. intros n Hin.
    apply in_map_iff in Hin. destruct Hin as (v & <- & Hv).
    apply filter_In in Hv. destruct Hv as [_ Hne].
    split; [exact Hne | apply strip_idempotent].
Qed.

Lemma names_of_clean_list (names : list string) :
  Forall (fun n => negb (is_empty n) = true /\ strip n = n) names ->
  normalize_names_to_list py_repr (PList (map PStr names)) = names.
Proof.
  intros H. cbn [normalize_names_to_list].
  assert (Hf : filter (fun n => negb (is_empty (strip (py_str py_repr n))))
                      (map PStr names) = map PStr names).
  { apply filter_id_on. apply Forall_map.
    eapply Forall_impl; [|exact H]. intros n [Hne Hs]. cbn [py_str].
    now rewrite Hs. }
  rewrite Hf, map_map. cbn [py_str]. apply map_id_on.
  eapply Forall_impl; [|exact H]. now intros n [_ Hs].
Qed.

Lemma seats_of_values (l : list pyint) :
  forall res,
    normalize_seats_items py_repr (map pyint_value l) res = Ok (res ++ l).
Proof.
  induction l as [|i l IH]; intros res; cbn.
  - now rewrite app_nil_r.
  - destruct i; cbn; rewrite IH, <- app_assoc; reflexivity.
Qed.

(** X19.  The normalisers are idempotent: the list of names, of mobiles
    or of seats that one of them returned, sent back as a JSON list,
    normalises to itself. *)
Theorem normalisers_are_idempotent :
  forall v : pyval,
    normalize_names_to_list
      py_repr (PList (map PStr (normalize_names_to_list py_repr v)))
    = normalize_names_to_list py_repr v
    /\ (forall l, normalize_mobile_to_list v = Ok l ->
                  normalize_mobile_to_list (PList (map PStr l)) = Ok l)
    /\ (forall l, normalize_seats py_repr v = Ok l ->
                  normalize_seats py_repr (PList (map pyint_value l)) = Ok l).
Proof.
  intros v. split; [|split].
  - apply names_of_clean_list, names_list_clean.
  - intros l H. pose proof (normalize_mobile_digits v l H) as Hd.
    unfold normalize_mobile_to_list. rewrite mapM_map.
    rewrite (mapM_id_on (fun x => only_digits (PStr x)) l).
    + cbn [rbind]. f_equal. apply filter_id_on.
      eapply Forall_impl; [|exact Hd]. intros m [_ Hne].
      now apply nonempty_is_empty.
    + eapply Forall_impl; [|exact Hd]. intros m [Hm _].
      rewrite only_digits_string. f_equal. now apply filter_str_id.
  - intros l _. cbn [normalize_seats]. apply (seats_of_values l []).
Qed.

(** X20.  The three shapes of a request body are one: a non-empty list of
    bookings is handled as the object that holds it under [users], and a
    non-empty object without [users] as the list of that one object.  A
    body that counts as false (null, an empty list, an empty object, zero,
    an empty string) is handled as one empty booking, so it is turned down
    with the 400 for required fields once the worksheet is open, and
    nothing is written. *)
Theorem request_shapes_agree :
  forall (bs : list pyval) (d : list (string * pyval)) (json : pyval)
         (w : world),
    (bs <> [] ->
     submit py_repr json_dumps cfg (PDict [("users", PList bs)]) w
     = submit py_repr json_dumps cfg (PList bs) w)
    /\ (d <> [] -> dict_lookup "users" d = None ->
        submit py_repr json_dumps cfg (PDict d) w
        = submit py_repr json_dumps cfg (PList [PDict d]) w)
    /\ (truthy json = false ->
        submit py_repr json_dumps cfg json w
        = match get_sheet w with
          | (Ok _, w1) => (Ok fields_required_response, w1)
          | (Raise e, w1) => (Raise e, w1)
          end).
Proof.
  intros bs d json w. split; [|split].
  - intros Hne. unfold submit. destruct bs; [congruence | reflexivity].
  - intros Hne Hu. unfold submit. destruct d; [congruence|].
    cbn [truthy bookings_of]. now rewrite Hu.
  - intros Hf. rewrite submit_cases. unfold request_data. rewrite Hf.
    destruct (get_sheet w) as [[[]|e] w1]; reflexivity.
Qed.

End Shapes.

Lemma normalisers_are_idempotent_witness :
  normalize_mobile_to_list (PList [PStr "9876543210"; PStr "919988776655"])
  = Ok ["9876543210"; "919988776655"].
Proof.
  exact (proj1 (proj2 (normalisers_are_idempotent
                         no_repr (PStr " 98765-43210 , +91 99887 76655,,")))
               _ eq_refl).
Defined.

Lemma request_shapes_agree_witness :
  submit no_repr no_repr test_config (PDict [("users", PList [e2e_booking])])
         (quiet_world [])
  = submit no_repr no_repr test_config (PList [e2e_booking]) (quiet_world []).
Proof.
  refine (proj1 (request_shapes_agree
                   no_repr no_repr test_config [e2e_booking] [] PNone
                   (quiet_world [])) _).
  discriminate.
Defined.

Lemma submit_raises_only_when_sheet_fails_witness :
  status (confirmation [IntV 10; IntV 11]) = 200%Z
  \/ status (confirmation [IntV 10; IntV 11]) = 400%Z
  \/ status (confirmation [IntV 10; IntV 11]) = 500%Z.
Proof.
  exact (proj2 (proj2 (submit_raises_only_when_sheet_fails
                         no_repr no_repr test_config e2e_booking
                         (quiet_world [])))
               (confirmation [IntV 10; IntV 11]) eq_refl).
Defined.
